(** * Robokitchen: the track recording/playback engine of the Piper terminal

    A shallow embedding of the parts of [demo/V2/manage] that the playback
    engine rests on: the proximity helpers and the playback loops of
    [terminal_v2.py], the track format layer of [track.py], the name
    canonicalisation of [terminal_v3.py] and the request/response channel of
    [arm_ipc.py].

    Python values are kept as the code has them: joint values are unbounded
    integers ([Z]), [float] is IEEE binary64 (Rocq's primitive floats, the same
    format CPython uses), a raised exception is a constructor of [exn], and the
    hardware, the clock, the pause file and the stop flag are an explicit
    world that the loops read and extend. *)

From Stdlib Require Import String Ascii ZArith List Bool Lia.
From Stdlib Require Import Floats.PrimFloat Floats.FloatOps Floats.SpecFloat.
Import ListNotations.

Set Warnings "-inexact-float,-register-all".
Open Scope string_scope.
Open Scope Z_scope.

(** ** Python results *)

(** The exceptions the modelled code can raise. *)
Inductive exn : Type :=
| IndexError
| KeyError (key : string)
| TypeError
| ValueError (msg : string)
| OverflowError
| ZeroDivisionError
| FileNotFoundError (path : string)
| RuntimeError (msg : string).

(** A pure Python expression either has a value or raises. *)
Inductive Result (A : Type) : Type :=
| Ok (a : A)
| Raise (e : exn).
Arguments Ok {A} a.
Arguments Raise {A} e.

Definition rbind {A B : Type} (r : Result A) (k : A -> Result B) : Result B :=
  match r with
  | Ok a => k a
  | Raise e => Raise e
  end.

Declare Scope result_scope.
Delimit Scope result_scope with result.
Notation "x <- r ;; k" := (rbind r (fun x => k))
  (at level 61, r at next level, right associativity) : result_scope.

(** [[f(x) for x in l]] for an [f] that may raise: the first exception wins. *)
Fixpoint rmap {A B : Type} (f : A -> Result B) (l : list A) : Result (list B) :=
  match l with
  | [] => Ok []
  | x :: xs =>
      (y <- f x ;;
       ys <- rmap f xs ;;
       Ok (y :: ys))%result
  end.

(** [l[i]] on a Python list. *)
Definition py_index {A : Type} (l : list A) (i : nat) : Result A :=
  match nth_error l i with
  | Some x => Ok x
  | None => Raise IndexError
  end.

(** ** Python numbers *)

Module PyNum.

(** [float(z)] for an integer [z]: the nearest binary64 value, ties to even.
    (CPython raises [OverflowError] from 2^1024 on; joint values come from a
    32-bit CAN frame and stay far below that.) *)
Definition float_of_int (z : Z) : float :=
  SF2Prim (binary_normalize prec emax z 0 false).

(** [int(x)] for a float [x]: truncation toward zero; [nan] and the
    infinities raise. *)
Definition py_int (x : float) : Result Z :=
  match Prim2SF x with
  | S754_zero _ => Ok 0
  | S754_finite s m e =>
      let mag := if 0 <=? e then Z.shiftl (Z.pos m) e
                 else Z.shiftr (Z.pos m) (- e) in
      Ok (if s then - mag else mag)
  | S754_infinity _ => Raise OverflowError
  | S754_nan => Raise (ValueError "cannot convert float NaN to integer")
  end.

(** [a / b] on two integers (true division).  For operands up to 2^53 in
    magnitude, the range of every joint value, the correctly rounded quotient
    CPython computes is the binary64 quotient of the converted operands. *)
Definition int_truediv (a b : Z) : Result float :=
  if b =? 0 then Raise ZeroDivisionError
  else Ok (float_of_int a / float_of_int b)%float.

End PyNum.

(** ** Safety / proximity helpers (terminal_v2.py) *)

Module Safety.

(** [TOLERANCE_ANGLE_UNITS = TOLERANCE_ANGLE_DEG * 1000]. *)
Definition TOLERANCE_ANGLE_DEG : Z := 5.
Definition TOLERANCE_ANGLE_UNITS : Z := TOLERANCE_ANGLE_DEG * 1000.

Definition IGNORED_JOINTS : list nat := [3; 5; 6]%nat.

Definition ignored (idx : nat) : bool := existsb (Nat.eqb idx) IGNORED_JOINTS.

(** [[abs(a - b) for a, b in zip(pt_a, pt_b)]] *)
Definition abs_diffs (pt_a pt_b : list Z) : list Z :=
  map (fun ab => Z.abs (fst ab - snd ab)) (combine pt_a pt_b).

(** Modelled from the spec: line 462 of terminal_v2.py, the first statement
    under [if d > max_delta:], is elided in the source tree.  The spec has the
    function report "the maximum deviation and which joint produced it", so
    the statement is the running-maximum update [max_delta = d]. *)
Definition elided_update (d max_delta : Z) : Z := d.

(** The body of [for idx, d in enumerate(diffs)], from index [idx] on, on the
    loop state [(max_delta, worst_joint)]. *)
Fixpoint scan (idx : nat) (diffs : list Z) (st : Z * option nat)
  : Z * option nat :=
  match diffs with
  | [] => st
  | d :: rest =>
      let st' :=
        if ignored idx then st
        else if fst st <? d then (elided_update d (fst st), Some idx)
        else st in
      scan (S idx) rest st'
  end.

Definition _max_delta_and_joint_ignored (pt_a pt_b : list Z) : Z * Z :=
  let '(max_delta, worst_joint) := scan 0 (abs_diffs pt_a pt_b) (-1, None) in
  (max_delta,
   match worst_joint with
   | Some j => Z.of_nat j
   | None => -1
   end).

(** [_max_delta_and_joint_strict]: [max(diffs)] and [diffs.index(max_delta)];
    [max] of an empty sequence raises [ValueError]. *)
Fixpoint index_of (x : Z) (l : list Z) : nat :=
  match l with
  | [] => 0
  | y :: ys => if y =? x then 0%nat else S (index_of x ys)
  end.

Definition _max_delta_and_joint_strict (pt_a pt_b : list Z) : Result (Z * Z) :=
  match abs_diffs pt_a pt_b with
  | [] => Raise (ValueError "max() arg is an empty sequence")
  | d :: ds =>
      let max_delta := fold_left Z.max ds d in
      Ok (max_delta, Z.of_nat (index_of max_delta (d :: ds)))
  end.

Definition _is_close_ignored (pt_a pt_b : list Z) (tol : Z) : bool :=
  fst (_max_delta_and_joint_ignored pt_a pt_b) <=? tol.

(** [_is_close_strict]: [pt[-1]] raises [IndexError] on an empty pose. *)
Definition _is_close_strict (pt_a pt_b : list Z) (tol : Z) (gripper_tol : option Z)
  : Result bool :=
  match rev pt_a, rev pt_b with
  | gripper_a :: motors_a, gripper_b :: motors_b =>
      let motors_flag :=
        forallb (fun ab => Z.abs (fst ab - snd ab) <=? tol)
                (combine (rev motors_a) (rev motors_b)) in
      let gripper_tol := match gripper_tol with Some g => g | None => tol end in
      let gripper_flag := Z.abs (gripper_a - gripper_b) <=? gripper_tol in
      Ok (motors_flag && gripper_flag)
  | _, _ => Raise IndexError
  end.

(** *** Properties of the proximity helpers *)

(** The deviation of joint [k] between two poses. *)
Definition dev (pt_a pt_b : list Z) (k : nat) : Z :=
  Z.abs (nth k pt_a 0 - nth k pt_b 0).

Lemma nth_error_abs_diffs (pt_a pt_b : list Z) (k : nat) :
  nth_error (abs_diffs pt_a pt_b) k =
  if (k <? length pt_a)%nat && (k <? length pt_b)%nat
  then Some (dev pt_a pt_b k) else None.
Proof.
  unfold abs_diffs, dev.
  revert pt_b k; induction pt_a as [|a pt_a IH]; intros [|b pt_b] [|k];
    cbn [combine map nth_error nth length]; try reflexivity.
  - now destruct (_ <? _)%nat.
  - rewrite IH. reflexivity.
Qed.

(** What one run of the scanning loop establishes, from any loop state: the
    running maximum only grows, it bounds every joint that is not ignored, and
    it either is untouched or was set by the first joint that reaches it. *)
Lemma scan_spec (diffs : list Z) :
  forall (i0 : nat) (m0 : Z) (j0 : option nat),
    let r := scan i0 diffs (m0, j0) in
    m0 <= fst r /\
    (forall k d, nth_error diffs k = Some d ->
                 ignored (i0 + k) = false -> d <= fst r) /\
    ((r = (m0, j0)) \/
     (exists k, nth_error diffs k = Some (fst r) /\
                ignored (i0 + k) = false /\
                snd r = Some (i0 + k)%nat /\
                m0 < fst r /\
                forall k' d', (k' < k)%nat -> nth_error diffs k' = Some d' ->
                              ignored (i0 + k') = false -> d' < fst r)).
Proof.
  induction diffs as [|d rest IH]; intros i0 m0 j0; cbn [scan fst].
  - cbn. split; [lia|]. split; [|now left].
    intros [|k] d H; discriminate H.
  - destruct (ignored i0) eqn:Hig.
    + specialize (IH (S i0) m0 j0). cbv zeta in IH.
      destruct IH as (Hle & Hall & Hwho). split; [exact Hle|]. split.
      * intros [|k] d' Hk Hn; cbn in Hk.
        -- rewrite Nat.add_0_r in Hn. congruence.
        -- apply (Hall k d' Hk). now rewrite <- Nat.add_succ_comm in Hn.
      * destruct Hwho as [Heq | (k & Hk & Hn & Hj & Hlt & Hfirst)]; [now left|].
        right. exists (S k). rewrite <- Nat.add_succ_comm.
        repeat split; try assumption.
        intros [|k'] d' Hlt' Hk' Hn'; cbn in Hk'.
        -- rewrite Nat.add_0_r in Hn'. congruence.
        -- apply (Hfirst k' d'); [lia | assumption |].
           now rewrite <- Nat.add_succ_comm in Hn'.
    + destruct (m0 <? d) eqn:Hcmp; unfold elided_update.
      * apply Z.ltb_lt in Hcmp.
        specialize (IH (S i0) d (Some i0)). cbv zeta in IH.
        destruct IH as (Hle & Hall & Hwho). split; [lia|]. split.
        -- intros [|k] d' Hk Hn; cbn in Hk.
           ++ injection Hk as <-. exact Hle.
           ++ apply (Hall k d' Hk). now rewrite <- Nat.add_succ_comm in Hn.
        -- right.
           destruct Hwho as [Heq | (k & Hk & Hn & Hj & Hlt & Hfirst)].
           ++ exists 0%nat. rewrite Heq, Nat.add_0_r. cbn.
              repeat split; try assumption. intros k' d' Hlt'. lia.
           ++ exists (S k). rewrite <- Nat.add_succ_comm.
              repeat split; try assumption; [lia|].
              intros [|k'] d' Hlt' Hk' Hn'; cbn in Hk'.
              ** injection Hk' as <-. exact Hlt.
              ** apply (Hfirst k' d'); [lia | assumption |].
                 now rewrite <- Nat.add_succ_comm in Hn'.
      * apply Z.ltb_ge in Hcmp.
        specialize (IH (S i0) m0 j0). cbv zeta in IH.
        destruct IH as (Hle & Hall & Hwho). split; [exact Hle|]. split.
        -- intros [|k] d' Hk Hn; cbn in Hk.
           ++ injection Hk as <-. lia.
           ++ apply (Hall k d' Hk). now rewrite <- Nat.add_succ_comm in Hn.
        -- destruct Hwho as [Heq | (k & Hk & Hn & Hj & Hlt & Hfirst)]; [now left|].
           right. exists (S k). rewrite <- Nat.add_succ_comm.
           repeat split; try assumption.
           intros [|k'] d' Hlt' Hk' Hn'; cbn in Hk'.
           ++ injection Hk' as <-. lia.
           ++ apply (Hfirst k' d'); [lia | assumption |].
              now rewrite <- Nat.add_succ_comm in Hn'.
Qed.

(** C2.  For two 7-element poses [_max_delta_and_joint_ignored] returns the
    deviation of some joint [j] outside [IGNORED_JOINTS] together with [j];
    that deviation bounds the deviation of every joint outside the ignore set
    (it is their maximum), every earlier such joint deviates strictly less
    (on a tie the lowest index is reported), and for identical poses the
    reported deviation is 0. *)
Theorem max_delta_and_joint_ignored_spec (pt_a pt_b : list Z) :
  length pt_a = 7%nat -> length pt_b = 7%nat ->
  exists j : nat,
    _max_delta_and_joint_ignored pt_a pt_b = (dev pt_a pt_b j, Z.of_nat j) /\
    (j < 7)%nat /\ ~ In j IGNORED_JOINTS /\
    (forall k, (k < 7)%nat -> ~ In k IGNORED_JOINTS ->
               dev pt_a pt_b k <= dev pt_a pt_b j) /\
    (forall k, (k < j)%nat -> ~ In k IGNORED_JOINTS ->
               dev pt_a pt_b k < dev pt_a pt_b j) /\
    (pt_a = pt_b -> dev pt_a pt_b j = 0).
Proof.
  intros Ha Hb.
  assert (Hnth : forall k, (k < 7)%nat ->
            nth_error (abs_diffs pt_a pt_b) k = Some (dev pt_a pt_b k)).
  { intros k Hk. rewrite nth_error_abs_diffs, Ha, Hb.
    apply Nat.ltb_lt in Hk. now rewrite Hk. }
  assert (Hnone : forall k d, nth_error (abs_diffs pt_a pt_b) k = Some d ->
            (k < 7)%nat /\ d = dev pt_a pt_b k).
  { intros k d. rewrite nth_error_abs_diffs, Ha, Hb.
    destruct (k <? 7)%nat eqn:Hk; cbn; [|discriminate].
    intros [= <-]. apply Nat.ltb_lt in Hk. now split. }
  assert (Hin : forall k, ~ In k IGNORED_JOINTS <-> ignored k = false).
  { intros k. unfold ignored. rewrite <- Bool.not_true_iff_false, existsb_exists.
    split; intros H C; apply H.
    - destruct C as (x & Hx & Heq). apply Nat.eqb_eq in Heq. now subst.
    - exists k. split; [exact C | apply Nat.eqb_refl]. }
  unfold _max_delta_and_joint_ignored.
  pose proof (scan_spec (abs_diffs pt_a pt_b) 0 (-1) None) as Hs.
  cbv zeta in Hs. destruct (scan 0 (abs_diffs pt_a pt_b) (-1, None)) as [m j].
  cbn [fst snd] in Hs. destruct Hs as (_ & Hall & Hwho).
  destruct Hwho as [Heq | (k & Hk & Hn & Hj & Hlt & Hfirst)].
  - (* joint 0 is never ignored and deviates by at least 0 > -1 *)
    injection Heq as -> ->. exfalso.
    pose proof (Hall 0%nat _ (Hnth 0%nat ltac:(lia)) eq_refl) as H0.
    unfold dev in H0. lia.
  - destruct (Hnone _ _ Hk) as (Hk7 & Hm). cbn [Nat.add] in *. subst j.
    exists k. rewrite Hm. repeat split.
    + exact Hk7.
    + now apply Hin.
    + intros k' Hk' Hn'. rewrite <- Hm.
      apply (Hall k' _ (Hnth k' Hk')). now apply Hin.
    + intros k' Hk' Hn'. rewrite <- Hm.
      apply (Hfirst k' _ Hk' (Hnth k' ltac:(lia))). now apply Hin.
    + intros ->. unfold dev. rewrite Z.sub_diag. reflexivity.
Qed.

Lemma max_delta_and_joint_ignored_witness :
  exists j : nat,
    _max_delta_and_joint_ignored [1000; 0; 0; 0; 0; 0; 0] [0; 0; 0; 0; 0; 0; 0]
      = (dev [1000; 0; 0; 0; 0; 0; 0] [0; 0; 0; 0; 0; 0; 0] j, Z.of_nat j) /\
    (j < 7)%nat /\ ~ In j IGNORED_JOINTS /\
    (forall k, (k < 7)%nat -> ~ In k IGNORED_JOINTS ->
               dev [1000; 0; 0; 0; 0; 0; 0] [0; 0; 0; 0; 0; 0; 0] k
               <= dev [1000; 0; 0; 0; 0; 0; 0] [0; 0; 0; 0; 0; 0; 0] j) /\
    (forall k, (k < j)%nat -> ~ In k IGNORED_JOINTS ->
               dev [1000; 0; 0; 0; 0; 0; 0] [0; 0; 0; 0; 0; 0; 0] k
               < dev [1000; 0; 0; 0; 0; 0; 0] [0; 0; 0; 0; 0; 0; 0] j) /\
    ([1000; 0; 0; 0; 0; 0; 0] = [0; 0; 0; 0; 0; 0; 0] ->
     dev [1000; 0; 0; 0; 0; 0; 0] [0; 0; 0; 0; 0; 0; 0] j = 0).
Proof.
  apply (max_delta_and_joint_ignored_spec
           [1000; 0; 0; 0; 0; 0; 0] [0; 0; 0; 0; 0; 0; 0]); reflexivity.
Defined.

(** The scenario of the spec: current pose [[1000,0,0,0,0,0,0]] against the
    safe point [[0,0,0,0,0,0,0]] deviates by 1000 at joint 0, which is close
    under the 5000-unit tolerance; a tie is reported at its lowest index. *)
Example max_delta_scenario :
  _max_delta_and_joint_ignored [1000; 0; 0; 0; 0; 0; 0] [0; 0; 0; 0; 0; 0; 0]
    = (1000, 0) /\
  _is_close_ignored [1000; 0; 0; 0; 0; 0; 0] [0; 0; 0; 0; 0; 0; 0]
    TOLERANCE_ANGLE_UNITS = true /\
  _max_delta_and_joint_ignored [0; 7; 7; 9; 7; 9; 9] [0; 0; 0; 0; 0; 0; 0]
    = (7, 1).
Proof. repeat split. Qed.

(** *** The strict comparison *)

Lemma motors_close (tol : Z) (motors_a : list Z) :
  forall motors_b : list Z,
    length motors_a = length motors_b ->
    (forallb (fun ab => Z.abs (fst ab - snd ab) <=? tol)
             (combine motors_a motors_b) = true
     <-> forall k, (k < length motors_a)%nat -> dev motors_a motors_b k <= tol).
Proof.
  unfold dev. induction motors_a as [|x motors_a IH]; intros [|y motors_b] Hlen;
    try discriminate.
  - cbn. split; [intros _ k Hk; lia | reflexivity].
  - cbn [combine forallb fst snd length]. rewrite Bool.andb_true_iff.
    injection Hlen as Hlen. rewrite (IH _ Hlen), Z.leb_le. split.
    + intros [H0 Hrest] [|k] Hk; cbn [nth]; [exact H0 | apply Hrest; lia].
    + intros H. split; [apply (H 0%nat); lia|].
      intros k Hk. apply (H (S k)). lia.
Qed.

(** [_is_close_strict] on two poses of the same, non-zero length never
    raises, and answers [True] exactly when every entry but the last differs
    by at most [tol] and the last one (the gripper) by at most [gripper_tol],
    which is [tol] when it is not given: no joint is left out. *)
Theorem is_close_strict_all_joints
  (pt_a pt_b : list Z) (tol : Z) (gripper_tol : option Z) :
  length pt_a = length pt_b -> pt_a <> [] ->
  let last := (length pt_a - 1)%nat in
  let g_tol := match gripper_tol with Some g => g | None => tol end in
  exists close,
    _is_close_strict pt_a pt_b tol gripper_tol = Ok close /\
    (close = true <->
     (forall k, (k < last)%nat -> dev pt_a pt_b k <= tol) /\
     dev pt_a pt_b last <= g_tol).
Proof.
  intros Hlen Hne last g_tol.
  destruct (exists_last Hne) as (motors_a & gripper_a & ->).
  assert (Hne' : pt_b <> []).
  { intros ->. rewrite length_app in Hlen. cbn in Hlen. lia. }
  destruct (exists_last Hne') as (motors_b & gripper_b & ->).
  rewrite !length_app in Hlen. cbn [length] in Hlen.
  assert (Hm : length motors_a = length motors_b) by lia.
  subst last. rewrite length_app. cbn [length].
  replace (length motors_a + 1 - 1)%nat with (length motors_a) by lia.
  unfold _is_close_strict. rewrite !rev_app_distr. cbn [rev app].
  rewrite !rev_involutive. eexists. split; [reflexivity|].
  fold g_tol. rewrite Bool.andb_true_iff, (motors_close tol _ _ Hm), Z.leb_le.
  assert (Hga : nth (length motors_a) (motors_a ++ [gripper_a]) 0 = gripper_a)
    by apply nth_middle.
  assert (Hgb : nth (length motors_a) (motors_b ++ [gripper_b]) 0 = gripper_b)
    by (rewrite Hm; apply nth_middle).
  unfold dev. rewrite Hga, Hgb.
  split; intros [Hmotors Hgripper]; (split; [|exact Hgripper]);
    intros k Hk; specialize (Hmotors k Hk);
    rewrite !app_nth1 in * by lia; exact Hmotors.
Qed.

Lemma is_close_strict_all_joints_witness :
  exists close,
    _is_close_strict [0; 0; 0; 0; 0; 6000; 0] [0; 0; 0; 0; 0; 0; 0]
                     TOLERANCE_ANGLE_UNITS None = Ok close /\
    (close = true <->
     (forall k, (k < 6)%nat ->
                dev [0; 0; 0; 0; 0; 6000; 0] [0; 0; 0; 0; 0; 0; 0] k
                <= TOLERANCE_ANGLE_UNITS) /\
     dev [0; 0; 0; 0; 0; 6000; 0] [0; 0; 0; 0; 0; 0; 0] 6
     <= TOLERANCE_ANGLE_UNITS).
Proof.
  apply (is_close_strict_all_joints
           [0; 0; 0; 0; 0; 6000; 0] [0; 0; 0; 0; 0; 0; 0]
           TOLERANCE_ANGLE_UNITS None); [reflexivity | discriminate].
Defined.

End Safety.

(** ** Name canonicalisation of the orchestrator (terminal_v3.py) *)

Module Canon.

(** [name.startswith(p)] *)
Definition startswith (name p : string) : bool := String.prefix p name.

(** [name[n:]] *)
Fixpoint slice_from (n : nat) (name : string) : string :=
  match n, name with
  | O, _ => name
  | S n', String _ rest => slice_from n' rest
  | S _, EmptyString => EmptyString
  end.

(** [PiperTerminalV3._canon_name], branch by branch. *)
Definition _canon_name (name : string) : string :=
  if startswith name "l_" then "left__" ++ slice_from 2 name
  else if startswith name "left_" then "left__" ++ slice_from 5 name
  else if startswith name "r_" then "right__" ++ slice_from 2 name
  else if startswith name "right_" && negb (startswith name "right__")
       then "right__" ++ slice_from 6 name
  else if startswith name "scene_" && negb (startswith name "scene__")
       then "scene__" ++ slice_from 6 name
  else name.

(** *** Properties *)

(** A name that already carries [right__] (or [scene__]) is left alone: the
    [right_] and [scene_] branches are guarded against the doubled form. *)
Lemma canon_name_right_fixed (rest : string) :
  _canon_name ("right__" ++ rest) = "right__" ++ rest.
Proof. destruct rest; reflexivity. Qed.

Lemma canon_name_scene_fixed (rest : string) :
  _canon_name ("scene__" ++ rest) = "scene__" ++ rest.
Proof. destruct rest; reflexivity. Qed.

(** The [left_] branch has no such guard: it fires on [left__...] too and
    keeps the second underscore of the prefix in the tail it re-attaches. *)
Lemma canon_name_left_grows (rest : string) :
  _canon_name ("left__" ++ rest) = "left___" ++ rest.
Proof. destruct rest; reflexivity. Qed.

(** C10 (the code departs from the claim).  On the canonical name
    [left__wave] the function answers [left___wave]: the name is not
    returned unchanged, and canonicalising the short form [l_wave] twice
    differs from canonicalising it once. *)
Theorem canon_name_not_idempotent :
  _canon_name "left__wave" = "left___wave" /\
  _canon_name "left__wave" <> "left__wave" /\
  _canon_name "l_wave" = "left__wave" /\
  _canon_name (_canon_name "l_wave") <> _canon_name "l_wave".
Proof.
  split; [reflexivity|]. split; [discriminate|].
  split; [reflexivity | discriminate].
Qed.

End Canon.

(** ** Track format layer (track.py) *)

Module Track.

(** *** JSON documents as [json.loads] returns them *)

(** A [dict] is its items in insertion order; [json.loads] keeps one item per
    key, so the keys of a document are distinct. *)
Inductive json : Type :=
| JNull
| JBool (b : bool)
| JInt (z : Z)
| JFloat (x : float)
| JStr (s : string)
| JList (items : list json)
| JDict (fields : list (string * json)).

(** [d.get(key)] *)
Fixpoint dict_get (fields : list (string * json)) (key : string) : option json :=
  match fields with
  | [] => None
  | (k, v) :: rest => if String.eqb k key then Some v else dict_get rest key
  end.

(** [value == tag] for a string [tag] *)
Definition is_str (value : option json) (tag : string) : bool :=
  match value with
  | Some (JStr s) => String.eqb s tag
  | _ => false
  end.

(** [isinstance(obj, dict) and obj.get("version") == tag] *)
Definition has_version (obj : json) (tag : string) : bool :=
  match obj with
  | JDict fields => is_str (dict_get fields "version") tag
  | _ => false
  end.

(** [len(x)] *)
Definition py_len (x : json) : Result nat :=
  match x with
  | JList items => Ok (List.length items)
  | JDict fields => Ok (List.length fields)
  | JStr s => Ok (String.length s)
  | _ => Raise TypeError
  end.

(** The characters of a string, as Python iterates them. *)
Fixpoint chars (s : string) : list json :=
  match s with
  | EmptyString => []
  | String c rest => JStr (String c EmptyString) :: chars rest
  end.

(** [for item in x]: a list yields its elements, a dict its keys, a string
    its characters. *)
Definition py_iter (x : json) : Result (list json) :=
  match x with
  | JList items => Ok items
  | JDict fields => Ok (map (fun kv => JStr (fst kv)) fields)
  | JStr s => Ok (chars s)
  | _ => Raise TypeError
  end.

(** [key in x] for a string [key]: a key of a dict, an element of a list, a
    substring of a string. *)
Definition py_contains (x : json) (key : string) : Result bool :=
  match x with
  | JDict fields =>
      Ok (match dict_get fields key with Some _ => true | None => false end)
  | JList items =>
      Ok (existsb (fun v => is_str (Some v) key) items)
  | JStr s =>
      Ok (match String.index 0 key s with Some _ => true | None => false end)
  | _ => Raise TypeError
  end.

(** [x[key]] for a string [key] *)
Definition py_getitem (x : json) (key : string) : Result json :=
  match x with
  | JDict fields =>
      match dict_get fields key with
      | Some v => Ok v
      | None => Raise (KeyError key)
      end
  | _ => Raise TypeError
  end.

(** [x[idx]] for a non-negative integer [idx]; the keys of a JSON dict are
    strings, so an integer is never one of them. *)
Definition py_getitem_int (x : json) (idx : nat) : Result json :=
  match x with
  | JList items => py_index items idx
  | JStr s => py_index (chars s) idx
  | JDict _ => Raise (KeyError "<int>")
  | _ => Raise TypeError
  end.

(** Truth value of [x] in [if x:] *)
Definition py_truthy (x : json) : bool :=
  match x with
  | JNull => false
  | JBool b => b
  | JInt z => negb (z =? 0)
  | JFloat f => negb (PrimFloat.eqb f 0)
  | JStr s => negb (String.eqb s "")
  | JList items => match items with [] => false | _ => true end
  | JDict fields => match fields with [] => false | _ => true end
  end.

(** [float(x)]: numbers and booleans convert.  (A duration stored as a JSON
    string is not written by any writer of the repository; CPython would parse
    it, the model reports it as [ValueError].) *)
Definition py_float (x : json) : Result float :=
  match x with
  | JInt z => Ok (PyNum.float_of_int z)
  | JFloat f => Ok f
  | JBool b => Ok (if b then 1%float else 0%float)
  | JStr _ => Raise (ValueError "could not convert string to float")
  | _ => Raise TypeError
  end.

(** *** The tracks directory *)

(** What sits at a path of [TRACK_DIR]: nothing, a file [json.loads]
    rejects, or a document. *)
Inductive file : Type :=
| Missing
| Unparsable
| Doc (obj : json).

Definition FS : Type := string -> file.

(** [TrackBase.path] and [TrackBase.details_path], relative to [TRACK_DIR]. *)
Definition path (name : string) : string := name ++ ".json".
Definition details_path (name : string) : string := name ++ ".details.json".

(** [json.loads(self.path.read_text())] *)
Definition load_json (fs : FS) (p : string) : Result json :=
  match fs p with
  | Missing => Raise (FileNotFoundError p)
  | Unparsable => Raise (ValueError "JSONDecodeError")
  | Doc obj => Ok obj
  end.

(** *** Track objects *)

Record TrackPoint : Type := mkTrackPoint {
  coordinates_timestamp : json;
  coordinates : json;
  details_timestamp : json;
  motor_speed_rpm : json;
  motor_current_ma : json;
  voltage_mv : json;
  motor_pos_deg001 : json;
  motor_effort_mNm : json;
  foc_temp_c : json;
  motor_temp_c : json;
  bus_current_ma : json
}.

(** An instance of one of the three subclasses with its cached attributes. *)
Inductive track : Type :=
| TrackV1 (name : string) (_data : json)
| TrackV2 (name : string) (_raw : json) (_pts : json)
| TrackV3Timed (name : string) (_raw : json) (_pts : list json).

Definition track_name (t : track) : string :=
  match t with
  | TrackV1 name _ | TrackV2 name _ _ | TrackV3Timed name _ _ => name
  end.

Definition V2_version : string := "v2.0".
Definition V3_version : string := "v3.0".

(** [TrackV1.__init__] *)
Definition TrackV1_init (fs : FS) (name : string) : Result track :=
  (_data <- load_json fs (path name) ;;
   Ok (TrackV1 name _data))%result.

(** [obj.get("points", [])] *)
Definition get_points (obj : json) : json :=
  match obj with
  | JDict fields =>
      match dict_get fields "points" with
      | Some v => v
      | None => JList []
      end
  | _ => JList []
  end.

(** [TrackV2.__init__] *)
Definition TrackV2_init (fs : FS) (name : string) : Result track :=
  (obj <- load_json fs (path name) ;;
   if negb (has_version obj V2_version)
   then Raise (ValueError "File is not a v2.0 track")
   else Ok (TrackV2 name obj (get_points obj)))%result.

(** The sanity loop of [TrackV3Timed.__init__]. *)
Fixpoint V3_check_items (items : list json) : Result unit :=
  match items with
  | [] => Ok tt
  | item :: rest =>
      (has_pt <- py_contains item "pt" ;;
       has_dur <- (if has_pt then py_contains item "duration" else Ok true) ;;
       if negb has_pt || negb has_dur
       then Raise (ValueError "Each point entry must contain 'pt' and 'duration'")
       else V3_check_items rest)%result
  end.

(** [TrackV3Timed.__init__] *)
Definition TrackV3Timed_init (fs : FS) (name : string) : Result track :=
  (obj <- load_json fs (path name) ;;
   if negb (has_version obj V3_version)
   then Raise (ValueError "File is not a v3.0 timed track")
   else
     match get_points obj with
     | JList items =>
         _ <- V3_check_items items ;;
         Ok (TrackV3Timed name obj items)
     | _ => Raise (ValueError "'points' must be a list in v3 track")
     end)%result.

(** [TrackBase.read_track]: the format is detected from the version tag, and
    whatever is not v3.0 or v2.0 goes to the legacy class. *)
Definition read_track (fs : FS) (name : string) : Result track :=
  match fs (path name) with
  | Missing => Raise (FileNotFoundError (path name))
  | Unparsable => Raise (ValueError "Failed to read track")
  | Doc obj =>
      if has_version obj V3_version then TrackV3Timed_init fs name
      else if has_version obj V2_version then TrackV2_init fs name
      else TrackV1_init fs name
  end.

(** [TrackBase.details]: the details file when it exists and parses, the
    empty list otherwise ("degraded mode – caller will handle"). *)
Definition base_details (fs : FS) (name : string) : json :=
  match fs (details_path name) with
  | Doc obj => obj
  | _ => JList []
  end.

(** The [TrackPoint(...)] call shared by the v1 and v2 loops; the keyword
    arguments are evaluated in the order written, so the first key that is
    missing raises. *)
Definition make_point (coords_ts pt det : json) : Result TrackPoint :=
  (dts <- py_getitem det "ts" ;;
   speed <- py_getitem det "motor_speed_rpm" ;;
   current <- py_getitem det "motor_current_ma" ;;
   voltage <- py_getitem det "voltage_mv" ;;
   pos <- py_getitem det "motor_pos_deg001" ;;
   effort <- py_getitem det "motor_effort_mNm" ;;
   foc <- py_getitem det "foc_temp_c" ;;
   temp <- py_getitem det "motor_temp_c" ;;
   bus <- py_getitem det "bus_current_ma" ;;
   Ok (mkTrackPoint coords_ts pt dts speed current voltage pos effort foc temp bus))%result.

(** The loop of [TrackV1.track_points] from index [idx] on. *)
Fixpoint V1_points_from (details : json) (idx : nat) (items : list json)
  : Result (list TrackPoint) :=
  match items with
  | [] => Ok []
  | pt :: rest =>
      (n <- py_len details ;;
       if (n <=? idx)%nat
       then Raise (ValueError "Missing details entry for point index {idx}")
       else
         det <- py_getitem_int details idx ;;
         has_ts <- py_contains det "ts" ;;
         if negb has_ts
         then Raise (ValueError "Missing 'ts' in details for v1 track")
         else
           coords_ts <- py_getitem det "ts" ;;
           tp <- make_point coords_ts pt det ;;
           tps <- V1_points_from details (S idx) rest ;;
           Ok (tp :: tps))%result
  end.

Definition V1_track_points (fs : FS) (name : string) (_data : json)
  : Result (list TrackPoint) :=
  let details := base_details fs name in
  (n_details <- py_len details ;;
   n_data <- py_len _data ;;
   if negb (n_details =? n_data)%nat
   then Raise (ValueError "Details length must match points length for v1 track")
   else
     items <- py_iter _data ;;
     V1_points_from details 0 items)%result.

(** [TrackV2.timestamps] and [TrackV2.details] *)
Definition V2_timestamps (_pts : json) : Result (list json) :=
  (items <- py_iter _pts ;;
   rmap (fun item => py_getitem item "ts") items)%result.

Definition V2_details (fs : FS) (name : string) (_pts : json) : Result json :=
  let ext_details := base_details fs name in
  if py_truthy ext_details then Ok ext_details
  else
    (tss <- V2_timestamps _pts ;;
     Ok (JList (map (fun ts => JDict [("ts", ts)]) tss)))%result.

(** The loop of [TrackV2.track_points] from index [idx] on. *)
Fixpoint V2_points_from (details : json) (idx : nat) (items : list json)
  : Result (list TrackPoint) :=
  match items with
  | [] => Ok []
  | item :: rest =>
      (has_pt <- py_contains item "pt" ;;
       has_ts <- (if has_pt then py_contains item "ts" else Ok true) ;;
       if negb has_pt || negb has_ts
       then Raise (ValueError "Each point entry must contain 'pt' and 'ts' in v2 track")
       else
         pt_coords <- py_getitem item "pt" ;;
         coords_ts <- py_getitem item "ts" ;;
         n <- py_len details ;;
         if (n <=? idx)%nat
         then Raise (ValueError "Missing details entry for point index {idx}")
         else
           det <- py_getitem_int details idx ;;
           det_has_ts <- py_contains det "ts" ;;
           if negb det_has_ts
           then Raise (ValueError "Missing 'ts' in details for v2 track")
           else
             tp <- make_point coords_ts pt_coords det ;;
             tps <- V2_points_from details (S idx) rest ;;
             Ok (tp :: tps))%result
  end.

Definition V2_track_points (fs : FS) (name : string) (_pts : json)
  : Result (list TrackPoint) :=
  (details <- V2_details fs name _pts ;;
   items <- py_iter _pts ;;
   V2_points_from details 0 items)%result.

(** [TrackV3Timed.points], [.durations] and the cumulative [.timestamps] *)
Definition V3_points (_pts : list json) : Result (list json) :=
  rmap (fun item => py_getitem item "pt") _pts.

Definition V3_durations (_pts : list json) : Result (list float) :=
  rmap (fun item => (d <- py_getitem item "duration" ;; py_float d)%result) _pts.

Fixpoint running_sums (acc : float) (durs : list float) : list float :=
  match durs with
  | [] => []
  | dur :: rest => (acc + dur)%float :: running_sums (acc + dur)%float rest
  end.

Definition V3_timestamps (_pts : list json) : Result (list float) :=
  (durs <- V3_durations _pts ;;
   Ok (running_sums 0%float durs))%result.

Definition zeros6 : json := JList (repeat (JInt 0) 6).

Definition V3_track_points (_pts : list json) : Result (list TrackPoint) :=
  (tss <- V3_timestamps _pts ;;
   pts <- V3_points _pts ;;
   Ok (map (fun tp =>
              mkTrackPoint (JFloat (fst tp)) (snd tp) (JFloat (fst tp))
                           zeros6 zeros6 zeros6 zeros6 zeros6 zeros6 zeros6 zeros6)
           (combine tss pts)))%result.

(** The [track_points] property, by subclass. *)
Definition track_points (fs : FS) (t : track) : Result (list TrackPoint) :=
  match t with
  | TrackV1 name _data => V1_track_points fs name _data
  | TrackV2 name _ _pts => V2_track_points fs name _pts
  | TrackV3Timed _ _ _pts => V3_track_points _pts
  end.

(** [path.write_text(json.dumps(obj))]: the document [json.loads] gives back
    is [obj] itself (integers and binary64 floats survive the text form). *)
Definition write_json (fs : FS) (p : string) (obj : json) : FS :=
  fun q => if String.eqb q p then Doc obj else fs q.

Definition pose_json (pt : list Z) : json := JList (map JInt pt).

(** [TrackV3Timed.write_from_points] *)
Definition V3_payload (points : list (list Z)) (durations : list float) : json :=
  JDict [("version", JStr V3_version);
         ("points",
          JList (map (fun pd => JDict [("pt", pose_json (fst pd));
                                       ("duration", JFloat (snd pd))])
                     (combine points durations)))].

Definition write_from_points (fs : FS) (name : string)
  (points : list (list Z)) (durations : list float) : Result FS :=
  if negb (List.length points =? List.length durations)%nat
  then Raise (ValueError "points and durations must be same length")
  else Ok (write_json fs (path name) (V3_payload points durations)).

(** [PiperTerminal._load] *)
Definition _load (fs : FS) (full_name : string) : Result (list TrackPoint) :=
  (t <- read_track fs full_name ;;
   track_points fs t)%result.

(** *** Format detection *)

(** A value that is not the string [tag] does not compare equal to it. *)
Lemma is_str_other (v : json) (tag : string) :
  v <> JStr tag -> is_str (Some v) tag = false.
Proof.
  intros Hne. destruct v; try reflexivity. cbn.
  apply String.eqb_neq. congruence.
Qed.

(** A mapping whose version tag is neither ["v3.0"] nor ["v2.0"], stored with
    an empty point list. *)
Definition doc_v9 : json :=
  JDict [("version", JStr "v9.9"); ("points", JList [])].

Definition fs_v9 : FS :=
  fun p => if String.eqb p "left__x.json" then Doc doc_v9 else Missing.

(** C5, as the code has it.  When the stored document is a mapping whose
    version field is present but is neither ["v3.0"] nor ["v2.0"],
    [read_track] does not fail: it takes the legacy fallback and returns a
    [TrackV1] instance that holds the mapping as its raw data. *)
Theorem read_track_unknown_version_is_legacy
  (fs : FS) (name : string) (fields : list (string * json)) (v : json) :
  fs (path name) = Doc (JDict fields) ->
  dict_get fields "version" = Some v ->
  v <> JStr V3_version -> v <> JStr V2_version ->
  read_track fs name = Ok (TrackV1 name (JDict fields)).
Proof.
  intros Hdoc Hv H3 H2. unfold read_track, has_version. rewrite Hdoc, Hv.
  rewrite (is_str_other _ _ H3), (is_str_other _ _ H2).
  unfold TrackV1_init, load_json. rewrite Hdoc. reflexivity.
Qed.

Lemma read_track_unknown_version_witness :
  read_track fs_v9 "left__x" = Ok (TrackV1 "left__x" doc_v9).
Proof.
  apply (read_track_unknown_version_is_legacy fs_v9 "left__x" _ (JStr "v9.9"));
    [reflexivity | reflexivity | discriminate | discriminate].
Defined.

(** C5, as the claim has it, fails: the document tagged ["v9.9"] is loaded
    without any error, as the legacy dense-untimed variant. *)
Lemma read_track_unknown_version_not_fatal :
  read_track fs_v9 "left__x" = Ok (TrackV1 "left__x" doc_v9) /\
  forall e, read_track fs_v9 "left__x" <> Raise e.
Proof. split; [reflexivity | discriminate]. Qed.

(** With a details file of as many entries as the mapping has keys, the
    misread track even yields track points, whose "poses" are the keys. *)
Definition det_full (ts : Z) : json :=
  JDict [("ts", JInt ts); ("motor_speed_rpm", zeros6);
         ("motor_current_ma", zeros6); ("voltage_mv", zeros6);
         ("motor_pos_deg001", zeros6); ("motor_effort_mNm", zeros6);
         ("foc_temp_c", zeros6); ("motor_temp_c", zeros6);
         ("bus_current_ma", zeros6)].

Definition fs_v9_details : FS :=
  fun p => if String.eqb p "left__x.json" then Doc doc_v9
           else if String.eqb p "left__x.details.json"
                then Doc (JList [det_full 10; det_full 11])
           else Missing.

Example unknown_version_read_as_poses :
  (tps <- _load fs_v9_details "left__x" ;; Ok (map coordinates tps))%result
  = Ok [JStr "version"; JStr "points"].
Proof. reflexivity. Qed.

(** *** The legacy (v1) accessor *)

Definition telemetry_keys : list string :=
  ["ts"; "motor_speed_rpm"; "motor_current_ma"; "voltage_mv";
   "motor_pos_deg001"; "motor_effort_mNm"; "foc_temp_c"; "motor_temp_c";
   "bus_current_ma"].

(** A details entry as the recorder writes it: a mapping with a timestamp and
    the eight telemetry fields. *)
Definition entry_complete (det : json) : bool :=
  match det with
  | JDict fields =>
      forallb (fun k => match dict_get fields k with
                        | Some _ => true
                        | None => false
                        end) telemetry_keys
  | _ => false
  end.

Lemma make_point_complete (coords_ts pt det : json) :
  entry_complete det = true ->
  exists tp, make_point coords_ts pt det = Ok tp /\
             coordinates tp = pt /\ coordinates_timestamp tp = coords_ts /\
             py_getitem det "ts" = Ok (details_timestamp tp).
Proof.
  destruct det as [| | | | | |fields]; try discriminate. cbn [entry_complete].
  unfold telemetry_keys. cbn [forallb]. unfold make_point, py_getitem.
  repeat (destruct (dict_get fields _); [|discriminate]).
  intros _. eexists. cbn. repeat split.
Qed.

Lemma entry_complete_has_ts (det : json) :
  entry_complete det = true ->
  py_contains det "ts" = Ok true /\ exists ts, py_getitem det "ts" = Ok ts.
Proof.
  destruct det as [| | | | | |fields]; try discriminate. cbn.
  destruct (dict_get fields "ts"); [|discriminate]. intros _. eauto.
Qed.

Lemma skipn_nth_error {A : Type} (l : list A) (i : nat) (x : A) :
  nth_error l i = Some x -> skipn i l = x :: skipn (S i) l.
Proof.
  revert i; induction l as [|y l IH]; intros [|i] H; try discriminate.
  - now injection H as ->.
  - cbn [nth_error] in H. cbn [skipn]. rewrite (IH _ H). reflexivity.
Qed.

(** The loop succeeds on complete entries: one track point per item, with the
    item as coordinates and the entry's ["ts"] as both timestamps. *)
Lemma V1_points_from_complete (ds : list json) :
  forallb entry_complete ds = true ->
  forall (items : list json) (idx : nat),
    (idx + List.length items = List.length ds)%nat ->
    exists tps, V1_points_from (JList ds) idx items = Ok tps /\
                map coordinates tps = items /\
                map (fun tp => Ok (coordinates_timestamp tp)) tps
                  = map (fun det => py_getitem det "ts") (skipn idx ds) /\
                map details_timestamp tps = map coordinates_timestamp tps.
Proof.
  intros Hall. induction items as [|pt rest IH]; intros idx Hlen.
  - exists []. cbn in *. rewrite Nat.add_0_r in Hlen. subst idx.
    rewrite skipn_all. repeat split.
  - cbn [List.length] in Hlen. cbn [V1_points_from py_len rbind].
    destruct (Nat.leb_spec (List.length ds) idx) as [Hge | Hlt]; [lia|].
    destruct (nth_error ds idx) as [det|] eqn:Hdet;
      [| apply nth_error_None in Hdet; lia].
    assert (Hc : entry_complete det = true).
    { rewrite forallb_forall in Hall. apply Hall.
      eapply nth_error_In; eassumption. }
    cbn [py_getitem_int]. unfold py_index. rewrite Hdet. cbn [rbind].
    destruct (entry_complete_has_ts det Hc) as (Hts & ts & Hget).
    rewrite Hts, Hget. cbn [rbind negb].
    destruct (make_point_complete ts pt det Hc) as (tp & Htp & Hco & Hct & Hdt).
    rewrite Htp. cbn [rbind].
    destruct (IH (S idx) ltac:(lia)) as (tps & Htps & Hmap & Htss & Hsame).
    rewrite Htps. cbn [rbind]. exists (tp :: tps).
    rewrite (skipn_nth_error _ _ _ Hdet). cbn [map].
    rewrite Hco, Hmap, Hct, <- Htss, Hget.
    assert (Hd : details_timestamp tp = ts) by congruence.
    rewrite Hd, Hsame. repeat split.
Qed.

Definition length_error : exn :=
  ValueError "Details length must match points length for v1 track".

(** C6, as the code has it.  For a legacy track whose file holds the list
    [poses]: a missing or unparsable details file reads as the empty details
    list; a details list of another length than [poses] raises the load
    error; and a details list of the same length whose entries carry ["ts"]
    and the eight telemetry fields yields one track point per pose, in order,
    with the pose as coordinates and the entry's ["ts"] as timestamps. *)
Theorem V1_track_points_spec (fs : FS) (name : string) (poses : list json) :
  (fs (details_path name) = Missing \/ fs (details_path name) = Unparsable ->
   base_details fs name = JList []) /\
  (forall ds, base_details fs name = JList ds ->
     List.length ds <> List.length poses ->
     track_points fs (TrackV1 name (JList poses)) = Raise length_error) /\
  (forall ds, base_details fs name = JList ds ->
     List.length ds = List.length poses ->
     forallb entry_complete ds = true ->
     exists tps,
       track_points fs (TrackV1 name (JList poses)) = Ok tps /\
       List.length tps = List.length poses /\
       map coordinates tps = poses /\
       map (fun tp => Ok (coordinates_timestamp tp)) tps
         = map (fun det => py_getitem det "ts") ds /\
       map details_timestamp tps = map coordinates_timestamp tps).
Proof.
  split; [|split].
  - unfold base_details. intros [-> | ->]; reflexivity.
  - intros ds Hds Hne. cbn [track_points]. unfold V1_track_points.
    rewrite Hds. cbn [py_len rbind].
    apply Nat.eqb_neq in Hne. rewrite Hne. reflexivity.
  - intros ds Hds Hlen Hall. cbn [track_points]. unfold V1_track_points.
    rewrite Hds. cbn [py_len rbind py_iter].
    rewrite Hlen, Nat.eqb_refl. cbn [negb].
    destruct (V1_points_from_complete ds Hall poses 0 ltac:(lia))
      as (tps & Htps & Hmap & Hts & Hsame).
    exists tps. repeat split; try assumption.
    rewrite <- Hmap. now rewrite length_map.
Qed.

(** The scenario of the spec: [left__wave] with three poses. *)
Definition wave_poses : list json :=
  [JList (repeat (JInt 0) 7); JList (repeat (JInt 100) 7);
   JList (repeat (JInt 200) 7)].

Definition fs_wave (details : file) : FS :=
  fun p => if String.eqb p "left__wave.json" then Doc (JList wave_poses)
           else if String.eqb p "left__wave.details.json" then details
           else Missing.

Definition wave_details3 : list json := [det_full 1; det_full 2; det_full 3].
Definition wave_details2 : list json := [det_full 1; det_full 2].

Lemma V1_track_points_witness :
  base_details (fs_wave Missing) "left__wave" = JList [] /\
  track_points (fs_wave (Doc (JList wave_details2)))
               (TrackV1 "left__wave" (JList wave_poses)) = Raise length_error /\
  exists tps,
    track_points (fs_wave (Doc (JList wave_details3)))
                 (TrackV1 "left__wave" (JList wave_poses)) = Ok tps /\
    List.length tps = List.length wave_poses /\
    map coordinates tps = wave_poses /\
    map (fun tp => Ok (coordinates_timestamp tp)) tps
      = map (fun det => py_getitem det "ts") wave_details3 /\
    map details_timestamp tps = map coordinates_timestamp tps.
Proof.
  split; [|split].
  - apply (proj1 (V1_track_points_spec (fs_wave Missing) "left__wave" [])).
    left. reflexivity.
  - apply (proj1 (proj2 (V1_track_points_spec
                           (fs_wave (Doc (JList wave_details2)))
                           "left__wave" wave_poses)) wave_details2).
    + reflexivity.
    + cbn. lia.
  - apply (proj2 (proj2 (V1_track_points_spec
                           (fs_wave (Doc (JList wave_details3)))
                           "left__wave" wave_poses)) wave_details3);
      reflexivity.
Defined.

(** C6, as the claim has it, fails at the empty track: with no details file
    at all, the accessor of a legacy track without poses raises nothing and
    returns the empty sequence. *)
Definition fs_empty_track : FS :=
  fun p => if String.eqb p "left__e.json" then Doc (JList []) else Missing.

Lemma V1_missing_details_not_always_error :
  fs_empty_track (details_path "left__e") = Missing /\
  read_track fs_empty_track "left__e" = Ok (TrackV1 "left__e" (JList [])) /\
  track_points fs_empty_track (TrackV1 "left__e" (JList [])) = Ok [].
Proof. repeat split. Qed.

(** Matching lengths alone do not make the accessor succeed either: the
    details a safe-track recording writes hold only ["ts"]. *)
Example V1_matching_lengths_incomplete_entry :
  track_points
    (fs_wave (Doc (JList [JDict [("ts", JInt 1)]; JDict [("ts", JInt 2)];
                          JDict [("ts", JInt 3)]])))
    (TrackV1 "left__wave" (JList wave_poses))
  = Raise (KeyError "motor_speed_rpm").
Proof. reflexivity. Qed.

(** *** Writing and reading back a timed track *)

Definition control_point (pd : list Z * float) : json :=
  JDict [("pt", pose_json (fst pd)); ("duration", JFloat (snd pd))].

Lemma V3_check_control_points (pds : list (list Z * float)) :
  V3_check_items (map control_point pds) = Ok tt.
Proof. induction pds as [|pd rest IH]; [reflexivity | exact IH]. Qed.

Lemma V3_points_control_points (pds : list (list Z * float)) :
  V3_points (map control_point pds) = Ok (map (fun pd => pose_json (fst pd)) pds).
Proof.
  unfold V3_points. induction pds as [|pd rest IH]; [reflexivity|].
  cbn [map rmap]. rewrite IH. reflexivity.
Qed.

Lemma V3_durations_control_points (pds : list (list Z * float)) :
  V3_durations (map control_point pds) = Ok (map snd pds).
Proof.
  unfold V3_durations. induction pds as [|pd rest IH]; [reflexivity|].
  cbn [map rmap]. rewrite IH. reflexivity.
Qed.

Lemma combine_fst_snd {A B : Type} (l : list A) :
  forall l' : list B,
    List.length l = List.length l' ->
    map fst (combine l l') = l /\ map snd (combine l l') = l'.
Proof.
  induction l as [|x l IH]; intros [|y l'] Hlen; try discriminate.
  - now split.
  - cbn in Hlen. injection Hlen as Hlen. destruct (IH l' Hlen) as [Hf Hs].
    cbn. now rewrite Hf, Hs.
Qed.

(** Round trip of the sparse-timed format: a track written from [N] control
    points is detected as v3.0 when read back and exposes the same poses and
    the same durations, in order. *)
Theorem V3_write_read_round_trip
  (fs : FS) (name : string) (points : list (list Z)) (durations : list float) :
  List.length points = List.length durations ->
  exists fs' raw items,
    write_from_points fs name points durations = Ok fs' /\
    read_track fs' name = Ok (TrackV3Timed name raw items) /\
    V3_points items = Ok (map pose_json points) /\
    V3_durations items = Ok durations /\
    List.length items = List.length points.
Proof.
  intros Hlen.
  exists (write_json fs (path name) (V3_payload points durations)),
         (V3_payload points durations),
         (map control_point (combine points durations)).
  destruct (combine_fst_snd points durations Hlen) as [Hfst Hsnd].
  split; [|split; [|split; [|split]]].
  - unfold write_from_points. now rewrite Hlen, Nat.eqb_refl.
  - unfold read_track, write_json. rewrite String.eqb_refl.
    change (has_version (V3_payload points durations) V3_version) with true.
    cbv iota. unfold TrackV3Timed_init, load_json. rewrite String.eqb_refl.
    cbn [rbind].
    change (has_version (V3_payload points durations) V3_version) with true.
    cbn [negb].
    change (get_points (V3_payload points durations))
      with (JList (map control_point (combine points durations))).
    cbv iota. now rewrite V3_check_control_points.
  - rewrite V3_points_control_points. f_equal.
    rewrite <- (map_map fst pose_json). now rewrite Hfst.
  - now rewrite V3_durations_control_points, Hsnd.
  - rewrite length_map, length_combine, <- Hlen. apply Nat.min_id.
Qed.

Lemma V3_write_read_round_trip_witness :
  exists fs' raw items,
    write_from_points (fun _ => Missing) "right__grab"
      [[0; 0; 0; 0; 0; 0; 0]; [0; 0; 0; 0; 0; 0; 50000]] [0%float; 2%float]
    = Ok fs' /\
    read_track fs' "right__grab" = Ok (TrackV3Timed "right__grab" raw items) /\
    V3_points items
    = Ok (map pose_json [[0; 0; 0; 0; 0; 0; 0]; [0; 0; 0; 0; 0; 0; 50000]]) /\
    V3_durations items = Ok [0%float; 2%float] /\
    List.length items
    = List.length [[0; 0; 0; 0; 0; 0; 0]; [0; 0; 0; 0; 0; 0; 50000]].
Proof.
  apply (V3_write_read_round_trip (fun _ => Missing) "right__grab"
           [[0; 0; 0; 0; 0; 0; 0]; [0; 0; 0; 0; 0; 0; 50000]]
           [0%float; 2%float]).
  reflexivity.
Defined.

(** *** Writing and reading back a recorded track *)

(** [TrackV2.write_from_record]: the main file first, then the details. *)
Definition V2_content (points_with_ts : list (list Z * float)) : json :=
  JDict [("version", JStr V2_version);
         ("points",
          JList (map (fun pt_ts => JDict [("pt", pose_json (fst pt_ts));
                                          ("ts", JFloat (snd pt_ts))])
                     points_with_ts))].

Definition V2_write_from_record (fs : FS) (name : string)
  (points_with_ts : list (list Z * float)) (details : list json) : FS :=
  let fs := write_json fs (path name) (V2_content points_with_ts) in
  write_json fs (details_path name) (JList details).

(** [TrackV1.write_from_record] *)
Definition V1_write_from_record (fs : FS) (name : string)
  (points_with_ts : list (list Z * float)) (details : list json) : FS :=
  let pts_only := map fst points_with_ts in
  let fs := write_json fs (path name) (JList (map pose_json pts_only)) in
  write_json fs (details_path name) (JList details).

(** [TrackV2.points] *)
Definition V2_points (_pts : json) : Result (list json) :=
  (items <- py_iter _pts ;;
   rmap (fun item => py_getitem item "pt") items)%result.

(** The two files of a track are distinct paths. *)
Lemma eqb_app_l (n a b : string) :
  String.eqb (n ++ a) (n ++ b) = String.eqb a b.
Proof.
  induction n as [|c n IH]; [reflexivity|].
  cbn. now rewrite Ascii.eqb_refl.
Qed.

Lemma path_not_details (name : string) :
  String.eqb (path name) (details_path name) = false.
Proof. unfold path, details_path. now rewrite eqb_app_l. Qed.

Lemma details_not_path (name : string) :
  String.eqb (details_path name) (path name) = false.
Proof. unfold path, details_path. now rewrite eqb_app_l. Qed.

Lemma written_main (fs : FS) (name : string) (obj details : json) :
  write_json (write_json fs (path name) obj) (details_path name) details
             (path name) = Doc obj.
Proof.
  unfold write_json. now rewrite path_not_details, String.eqb_refl.
Qed.

Lemma written_details (fs : FS) (name : string) (obj details : json) :
  base_details
    (write_json (write_json fs (path name) obj) (details_path name) details)
    name = details.
Proof. unfold base_details, write_json. now rewrite String.eqb_refl. Qed.

Definition recorded_point (pt_ts : list Z * float) : json :=
  JDict [("pt", pose_json (fst pt_ts)); ("ts", JFloat (snd pt_ts))].

Lemma V2_timestamps_recorded (pts : list (list Z * float)) :
  V2_timestamps (JList (map recorded_point pts))
  = Ok (map (fun p => JFloat (snd p)) pts).
Proof.
  unfold V2_timestamps. cbn [py_iter rbind].
  induction pts as [|p rest IH]; [reflexivity|].
  cbn [map rmap]. rewrite IH. reflexivity.
Qed.

(** The v2 loop succeeds on recorded points with complete details. *)
Lemma V2_points_from_recorded (ds : list json) :
  forallb entry_complete ds = true ->
  forall (pts : list (list Z * float)) (idx : nat),
    (idx + List.length pts = List.length ds)%nat ->
    exists tps,
      V2_points_from (JList ds) idx (map recorded_point pts) = Ok tps /\
      map coordinates tps = map (fun p => pose_json (fst p)) pts /\
      map coordinates_timestamp tps = map (fun p => JFloat (snd p)) pts /\
      map (fun tp => Ok (details_timestamp tp)) tps
        = map (fun det => py_getitem det "ts") (skipn idx ds).
Proof.
  intros Hall. induction pts as [|p rest IH]; intros idx Hlen.
  - exists []. cbn in *. rewrite Nat.add_0_r in Hlen. subst idx.
    rewrite skipn_all. repeat split.
  - cbn [List.length] in Hlen. cbn [map V2_points_from].
    change (py_contains (recorded_point p) "pt") with (Ok true).
    change (py_contains (recorded_point p) "ts") with (Ok true).
    change (py_getitem (recorded_point p) "pt") with (Ok (pose_json (fst p))).
    change (py_getitem (recorded_point p) "ts") with (Ok (JFloat (snd p))).
    cbn [rbind negb orb py_len].
    destruct (Nat.leb_spec (List.length ds) idx) as [Hge | Hlt]; [lia|].
    destruct (nth_error ds idx) as [det|] eqn:Hdet;
      [| apply nth_error_None in Hdet; lia].
    assert (Hc : entry_complete det = true).
    { rewrite forallb_forall in Hall. apply Hall.
      eapply nth_error_In; eassumption. }
    cbn [py_getitem_int]. unfold py_index. rewrite Hdet. cbn [rbind].
    destruct (entry_complete_has_ts det Hc) as (Hts & ts & Hget).
    rewrite Hts. cbn [rbind negb].
    destruct (make_point_complete (JFloat (snd p)) (pose_json (fst p)) det Hc)
      as (tp & Htp & Hco & Hct & Hdt).
    rewrite Htp. cbn [rbind].
    destruct (IH (S idx) ltac:(lia)) as (tps & Htps & Hmap & Htss & Hdts).
    rewrite Htps. cbn [rbind]. exists (tp :: tps).
    rewrite (skipn_nth_error _ _ _ Hdet). cbn [map].
    rewrite Hco, Hmap, Hct, Htss, Hdts, Hdt. repeat split.
Qed.

Lemma V2_points_recorded (pts : list (list Z * float)) :
  V2_points (JList (map recorded_point pts))
  = Ok (map (fun p => pose_json (fst p)) pts).
Proof.
  unfold V2_points. cbn [py_iter rbind].
  induction pts as [|p rest IH]; [reflexivity|].
  cbn [map rmap]. rewrite IH. reflexivity.
Qed.

Lemma read_written_V2 (fs : FS) (name : string)
  (pts : list (list Z * float)) (details : json) :
  read_track
    (write_json (write_json fs (path name) (V2_content pts))
                (details_path name) details) name
  = Ok (TrackV2 name (V2_content pts) (JList (map recorded_point pts))).
Proof.
  unfold read_track. rewrite written_main.
  change (has_version (V2_content pts) V3_version) with false.
  change (has_version (V2_content pts) V2_version) with true.
  cbv iota. unfold TrackV2_init, load_json. rewrite written_main.
  reflexivity.
Qed.

(** Round trip of the dense format the recorder writes by default: a track
    written by [TrackV2.write_from_record] from [N] samples and as many
    complete telemetry entries is detected as v2.0 when read back, exposes
    the poses written, and loads as [N] track points that carry, in order,
    the pose and the timestamp of each sample and the ["ts"] of the matching
    telemetry entry. *)
Theorem V2_record_load_round_trip
  (fs : FS) (name : string) (points_with_ts : list (list Z * float))
  (details : list json) :
  List.length details = List.length points_with_ts ->
  forallb entry_complete details = true ->
  let fs' := V2_write_from_record fs name points_with_ts details in
  exists raw _pts tps,
    read_track fs' name = Ok (TrackV2 name raw _pts) /\
    V2_points _pts = Ok (map (fun p => pose_json (fst p)) points_with_ts) /\
    _load fs' name = Ok tps /\
    List.length tps = List.length points_with_ts /\
    map coordinates tps = map (fun p => pose_json (fst p)) points_with_ts /\
    map coordinates_timestamp tps
      = map (fun p => JFloat (snd p)) points_with_ts /\
    map (fun tp => Ok (details_timestamp tp)) tps
      = map (fun det => py_getitem det "ts") details.
Proof.
  intros Hlen Hall fs'. subst fs'. unfold V2_write_from_record. cbv zeta.
  destruct (V2_points_from_recorded details Hall points_with_ts 0
              ltac:(lia)) as (tps & Htps & Hco & Hts & Hdts).
  exists (V2_content points_with_ts), (JList (map recorded_point points_with_ts)),
         tps.
  split; [apply read_written_V2|]. split; [apply V2_points_recorded|].
  split; [|split; [|split; [|split]]]; try assumption.
  - unfold _load. rewrite read_written_V2. cbn [rbind track_points].
    unfold V2_track_points, V2_details. rewrite written_details.
    destruct details as [|d ds].
    + destruct points_with_ts; [|discriminate Hlen].
      cbn in Htps |- *. exact Htps.
    + cbn [py_truthy rbind py_iter]. exact Htps.
  - rewrite <- (length_map coordinates), Hco. apply length_map.
Qed.

Lemma V2_record_load_round_trip_witness :
  let pts := [([0; 0; 0; 0; 0; 0; 0], 10%float);
              ([100; 0; 0; 0; 0; 0; 500], 10.02%float)] in
  let details := [det_full 10; det_full 11] in
  let fs' := V2_write_from_record (fun _ => Missing) "left__wave" pts details in
  exists raw _pts tps,
    read_track fs' "left__wave" = Ok (TrackV2 "left__wave" raw _pts) /\
    V2_points _pts = Ok (map (fun p => pose_json (fst p)) pts) /\
    _load fs' "left__wave" = Ok tps /\
    List.length tps = List.length pts /\
    map coordinates tps = map (fun p => pose_json (fst p)) pts /\
    map coordinates_timestamp tps = map (fun p => JFloat (snd p)) pts /\
    map (fun tp => Ok (details_timestamp tp)) tps
      = map (fun det => py_getitem det "ts") details.
Proof.
  intros pts details.
  apply (V2_record_load_round_trip (fun _ => Missing) "left__wave" pts details);
    reflexivity.
Defined.

(** A v2.0 track whose details file is missing, unreadable or empty cannot
    be loaded as track points once it has a sample: the stand-in details
    [TrackV2.details] builds hold only ["ts"], and the accessor asks each
    entry for its telemetry. *)
Theorem V2_without_telemetry_fails
  (fs : FS) (name : string) (p : list Z * float)
  (rest : list (list Z * float)) :
  fs (path name) = Doc (V2_content (p :: rest)) ->
  py_truthy (base_details fs name) = false ->
  _load fs name = Raise (KeyError "motor_speed_rpm").
Proof.
  intros Hdoc Hfalsy. unfold _load, read_track. rewrite Hdoc.
  change (has_version (V2_content (p :: rest)) V3_version) with false.
  change (has_version (V2_content (p :: rest)) V2_version) with true.
  cbv iota. unfold TrackV2_init, load_json. rewrite Hdoc.
  cbn [rbind].
  change (has_version (V2_content (p :: rest)) V2_version) with true.
  cbn [negb].
  change (get_points (V2_content (p :: rest)))
    with (JList (map recorded_point (p :: rest))).
  cbn [rbind track_points]. unfold V2_track_points, V2_details. cbv zeta.
  rewrite Hfalsy.
  rewrite V2_timestamps_recorded. reflexivity.
Qed.

Lemma V2_without_telemetry_fails_witness :
  _load (write_json (fun _ => Missing) "left__wave.json"
           (V2_content [([0; 0; 0; 0; 0; 0; 0], 10%float)]))
        "left__wave"
  = Raise (KeyError "motor_speed_rpm").
Proof.
  apply (V2_without_telemetry_fails _ "left__wave"
           ([0; 0; 0; 0; 0; 0; 0], 10%float) []); reflexivity.
Defined.

(** Round trip of the legacy format: a track written by
    [TrackV1.write_from_record] from [N] samples and as many complete
    telemetry entries is read back as a legacy track and loads as [N] track
    points with the poses written, in order.  The sample timestamps are not
    stored: both timestamps of a point are the ["ts"] of its telemetry
    entry. *)
Theorem V1_record_load_round_trip
  (fs : FS) (name : string) (points_with_ts : list (list Z * float))
  (details : list json) :
  List.length details = List.length points_with_ts ->
  forallb entry_complete details = true ->
  let fs' := V1_write_from_record fs name points_with_ts details in
  exists tps,
    read_track fs' name
    = Ok (TrackV1 name (JList (map pose_json (map fst points_with_ts)))) /\
    _load fs' name = Ok tps /\
    map coordinates tps = map pose_json (map fst points_with_ts) /\
    map (fun tp => Ok (coordinates_timestamp tp)) tps
      = map (fun det => py_getitem det "ts") details /\
    map details_timestamp tps = map coordinates_timestamp tps.
Proof.
  intros Hlen Hall fs'. subst fs'. unfold V1_write_from_record. cbv zeta.
  set (poses := map pose_json (map fst points_with_ts)).
  assert (Hposes : List.length details = List.length poses).
  { unfold poses. now rewrite !length_map. }
  destruct (V1_points_from_complete details Hall poses 0 ltac:(lia))
    as (tps & Htps & Hco & Hts & Hsame).
  assert (Hread : read_track
            (write_json (write_json fs (path name) (JList poses))
                        (details_path name) (JList details)) name
          = Ok (TrackV1 name (JList poses))).
  { unfold read_track. rewrite written_main. cbn [has_version].
    unfold TrackV1_init, load_json. now rewrite written_main. }
  exists tps. split; [exact Hread|]. split; [|now repeat split].
  unfold _load. rewrite Hread. cbn [rbind track_points].
  unfold V1_track_points. rewrite written_details.
  cbn [py_len rbind py_iter]. rewrite Hposes, Nat.eqb_refl. exact Htps.
Qed.

Lemma V1_record_load_round_trip_witness :
  let pts := [([0; 0; 0; 0; 0; 0; 0], 10%float);
              ([100; 0; 0; 0; 0; 0; 500], 10.02%float)] in
  let details := [det_full 10; det_full 11] in
  let fs' := V1_write_from_record (fun _ => Missing) "left__wave" pts details in
  exists tps,
    read_track fs' "left__wave"
    = Ok (TrackV1 "left__wave" (JList (map pose_json (map fst pts)))) /\
    _load fs' "left__wave" = Ok tps /\
    map coordinates tps = map pose_json (map fst pts) /\
    map (fun tp => Ok (coordinates_timestamp tp)) tps
      = map (fun det => py_getitem det "ts") details /\
    map details_timestamp tps = map coordinates_timestamp tps.
Proof.
  intros pts details.
  apply (V1_record_load_round_trip (fun _ => Missing) "left__wave" pts details);
    reflexivity.
Defined.

(** The telemetry-free track point [TrackV3Timed.track_points] builds. *)
Definition stub_point (ts : float) (pt : json) : TrackPoint :=
  mkTrackPoint (JFloat ts) pt (JFloat ts)
               zeros6 zeros6 zeros6 zeros6 zeros6 zeros6 zeros6 zeros6.

(** A timed track loads for the dense player as well: written from [N]
    control points, it loads as [N] telemetry-free track points whose
    coordinates are the poses written and whose timestamps are the running
    sums of the durations, starting from 0.0. *)
Theorem V3_load_stub_points
  (fs : FS) (name : string) (points : list (list Z)) (durations : list float) :
  List.length points = List.length durations ->
  exists fs',
    write_from_points fs name points durations = Ok fs' /\
    _load fs' name
    = Ok (map (fun tp => stub_point (fst tp) (pose_json (snd tp)))
              (combine (running_sums 0%float durations) points)).
Proof.
  intros Hlen.
  exists (write_json fs (path name) (V3_payload points durations)).
  destruct (combine_fst_snd points durations Hlen) as [Hfst Hsnd].
  split.
  - unfold write_from_points. now rewrite Hlen, Nat.eqb_refl.
  - unfold _load, read_track, write_json. rewrite String.eqb_refl.
    change (has_version (V3_payload points durations) V3_version) with true.
    cbv iota. unfold TrackV3Timed_init, load_json. rewrite String.eqb_refl.
    cbn [rbind].
    change (has_version (V3_payload points durations) V3_version) with true.
    cbn [negb].
    change (get_points (V3_payload points durations))
      with (JList (map control_point (combine points durations))).
    cbv iota. rewrite V3_check_control_points. cbn [rbind track_points].
    unfold V3_track_points, V3_timestamps.
    rewrite V3_durations_control_points, V3_points_control_points, Hsnd.
    cbn [rbind]. f_equal.
    rewrite <- (map_map fst pose_json), Hfst.
    generalize (running_sums 0%float durations) as tss.
    clear. induction points as [|pt points IH]; intros [|ts tss];
      try reflexivity.
    cbn [map combine]. now rewrite IH.
Qed.

Lemma V3_load_stub_points_witness :
  exists fs',
    write_from_points (fun _ => Missing) "right__grab"
      [[0; 0; 0; 0; 0; 0; 0]; [0; 0; 0; 0; 0; 0; 50000]] [0%float; 2%float]
    = Ok fs' /\
    _load fs' "right__grab"
    = Ok (map (fun tp => stub_point (fst tp) (pose_json (snd tp)))
              (combine (running_sums 0%float [0%float; 2%float])
                       [[0; 0; 0; 0; 0; 0; 0]; [0; 0; 0; 0; 0; 0; 50000]])).
Proof.
  apply (V3_load_stub_points (fun _ => Missing) "right__grab"
           [[0; 0; 0; 0; 0; 0; 0]; [0; 0; 0; 0; 0; 0; 50000]]
           [0%float; 2%float]).
  reflexivity.
Defined.

End Track.

(** ** The inter-process command channel (arm_ipc.py) *)

Module Ipc.

Section Channel.

(** The picklable values that travel over the pipe, and the state of the
    [PiperTerminal] the worker hosts. *)
Variable value : Type.
Variable terminal : Type.

(** [getattr(term, method_name)] applied to the arguments of the message: the
    delegated call returns
    a value or raises, and may change the terminal on the way. *)
Variable invoke :
  terminal -> string -> list value -> list (string * value)
  -> (value + exn) * terminal.

(** [repr(exc)] and [traceback.format_exc()] *)
Variable repr : exn -> string.
Variable format_exc : exn -> string.

(** What the parent sends: [{"cmd": "call", ...}], [{"cmd": "shutdown"}], or
    a dict with any other ["cmd"]. *)
Inductive message : Type :=
| Call (method : string) (args : list value) (kwargs : list (string * value))
       (id : Z)
| Shutdown
| Unknown.

(** What the worker sends back: [{"ok", "result" | "error" [, "trace"], "id"}]. *)
Record reply : Type := mkReply {
  ok : bool;
  result : option value;
  error : option string;
  trace : option string;
  reply_id : Z
}.

Definition ok_reply (r : value) (call_id : Z) : reply :=
  mkReply true (Some r) None None call_id.

Definition init_failed_reply (call_id : Z) : reply :=
  mkReply false None (Some "terminal init failed") None call_id.

Definition exn_reply (exc : exn) (call_id : Z) : reply :=
  mkReply false None (Some (repr exc)) (Some (format_exc exc)) call_id.

(** The [while True] loop of [_ArmWorkerProcess.run] over the messages that
    arrive before the parent closes its end ([EOFError] on the empty inbox),
    with [term] the hosted terminal ([None] when its construction failed);
    the result is what the worker sends, in order. *)
Fixpoint run (term : option terminal) (inbox : list message) : list reply :=
  match inbox with
  | [] => []
  | Shutdown :: _ => []
  | Unknown :: rest => run term rest
  | Call method args kwargs call_id :: rest =>
      match term with
      | None => init_failed_reply call_id :: run None rest
      | Some t =>
          match invoke t method args kwargs with
          | (inl r, t') => ok_reply r call_id :: run (Some t') rest
          | (inr exc, t') => exn_reply exc call_id :: run (Some t') rest
          end
      end
  end.

(** The client side: [ArmProxy] holds the correlation counter [_req_id]. *)
Record proxy : Type := mkProxy { _req_id : Z }.

(** The first half of [_send_call]: bump the counter and send. *)
Definition request (p : proxy) (method : string) (args : list value)
  (kwargs : list (string * value)) : proxy * message :=
  let curr_id := _req_id p + 1 in
  (mkProxy curr_id, Call method args kwargs curr_id).

Definition show (s : option string) : string :=
  match s with Some s => s | None => "None" end.

Definition newline : string := String (ascii_of_nat 10) EmptyString.

(** The second half, once [self._conn.recv()] has handed over [resp]. *)
Definition receive (curr_id : Z) (resp : reply) : Result (option value) :=
  if negb (reply_id resp =? curr_id)
  then Raise (RuntimeError "out-of-order IPC reply")
  else if ok resp then Ok (result resp)
  else Raise (RuntimeError
                ("Worker error: " ++ show (error resp) ++ newline
                 ++ match trace resp with Some t => t | None => "" end)).

(** [_send_call] against a pipe that answers the message with [recv]: the
    call has no way to return before the reply is there. *)
Definition _send_call (p : proxy) (method : string) (args : list value)
  (kwargs : list (string * value)) (recv : message -> reply)
  : proxy * Result (option value) :=
  let '(p', msg) := request p method args kwargs in
  (p', receive (_req_id p') (recv msg)).

(** The messages of a series of calls issued one after the other. *)
Fixpoint requests (p : proxy) (calls : list (string * list value))
  : list message :=
  match calls with
  | [] => []
  | (method, args) :: rest =>
      let '(p', msg) := request p method args [] in
      msg :: requests p' rest
  end.

Definition message_id (m : message) : option Z :=
  match m with
  | Call _ _ _ call_id => Some call_id
  | _ => None
  end.

(** *** Properties *)

Lemma requests_ids (calls : list (string * list value)) :
  forall p,
    map message_id (requests p calls)
    = map (fun k => Some (_req_id p + 1 + Z.of_nat k)) (seq 0 (List.length calls)).
Proof.
  induction calls as [|[method args] rest IH]; intros p; [reflexivity|].
  cbn [requests request List.length seq map message_id].
  rewrite IH. cbn [_req_id]. f_equal.
  - f_equal. lia.
  - rewrite <- seq_shift, map_map. apply map_ext. intros k. f_equal. lia.
Qed.

(** Every call gets an id no earlier call of the proxy has used. *)
Lemma requests_fresh (calls : list (string * list value)) (p : proxy) :
  NoDup (map message_id (requests p calls)).
Proof.
  rewrite requests_ids. apply NoDup_map_NoDup_ForallPairs; [|apply seq_NoDup].
  intros a b _ _ H. injection H. lia.
Qed.

(** The worker answers every call it receives, in order and under the id of
    the call, whatever the delegated calls do. *)
Lemma run_answers_all (calls : list (string * list value)) :
  forall p term,
    map (fun r => Some (reply_id r)) (run term (requests p calls))
    = map message_id (requests p calls).
Proof.
  induction calls as [|[method args] rest IH]; intros p term; [reflexivity|].
  cbn [requests request run map message_id].
  destruct term as [t|].
  - destruct (invoke t method args []) as [[r|exc] t'];
      cbn [map reply_id ok_reply exn_reply]; now rewrite IH.
  - cbn [map reply_id init_failed_reply]. now rewrite IH.
Qed.

(** C9.  A call is sent under the id [_req_id + 1], which the proxy then
    holds, so a series of calls carries pairwise distinct ids; the result of
    [_send_call] is a function of the reply it waits for: a reply under
    another id raises the protocol error, a reply under the call's id with
    [ok] set yields the worker's result; and when the delegated call raises
    inside the worker, the worker sends an error reply under the id of the
    call and goes on to serve the rest of its inbox. *)
Theorem ipc_call_protocol :
  (forall p method args kwargs,
     request p method args kwargs
     = (mkProxy (_req_id p + 1), Call method args kwargs (_req_id p + 1))) /\
  (forall p calls, NoDup (map message_id (requests p calls))) /\
  (forall p method args kwargs recv,
     reply_id (recv (Call method args kwargs (_req_id p + 1))) <> _req_id p + 1 ->
     snd (_send_call p method args kwargs recv)
     = Raise (RuntimeError "out-of-order IPC reply")) /\
  (forall p method args kwargs recv,
     reply_id (recv (Call method args kwargs (_req_id p + 1))) = _req_id p + 1 ->
     ok (recv (Call method args kwargs (_req_id p + 1))) = true ->
     snd (_send_call p method args kwargs recv)
     = Ok (result (recv (Call method args kwargs (_req_id p + 1))))) /\
  (forall t t' method args kwargs call_id exc rest,
     invoke t method args kwargs = (inr exc, t') ->
     run (Some t) (Call method args kwargs call_id :: rest)
     = mkReply false None (Some (repr exc)) (Some (format_exc exc)) call_id
       :: run (Some t') rest) /\
  (forall t t' method args kwargs call_id r rest,
     invoke t method args kwargs = (inl r, t') ->
     run (Some t) (Call method args kwargs call_id :: rest)
     = mkReply true (Some r) None None call_id :: run (Some t') rest).
Proof.
  repeat split.
  - intros p calls. apply requests_fresh.
  - intros p method args kwargs recv Hid.
    unfold _send_call, request, receive. cbn [snd _req_id].
    apply Z.eqb_neq in Hid. now rewrite Hid.
  - intros p method args kwargs recv Hid Hok.
    unfold _send_call, request, receive. cbn [snd _req_id].
    rewrite Hid, Z.eqb_refl, Hok. reflexivity.
  - intros t t' method args kwargs call_id exc rest Hinv.
    cbn [run]. now rewrite Hinv.
  - intros t t' method args kwargs call_id r rest Hinv.
    cbn [run]. now rewrite Hinv.
Qed.

(** *** The worker loop and a session of calls *)

(** The ids of the calls the worker gets to see: those that arrive before
    the first shutdown message. *)
Fixpoint served_ids (inbox : list message) : list Z :=
  match inbox with
  | [] => []
  | Shutdown :: _ => []
  | Unknown :: rest => served_ids rest
  | Call _ _ _ call_id :: rest => call_id :: served_ids rest
  end.

(** The worker sends one reply per call, in order and under the id of the
    call, for the calls that arrive before the first shutdown message; a
    message of an unknown kind gets no reply, and neither does anything that
    follows a shutdown. *)
Theorem worker_replies_to_calls_before_shutdown
  (term : option terminal) (inbox : list message) :
  map reply_id (run term inbox) = served_ids inbox /\
  (forall pre post, run term (pre ++ Shutdown :: post)%list = run term pre).
Proof.
  split.
  - revert term. induction inbox as [|[method args kwargs call_id| |] rest IH];
      intros term; cbn [run served_ids map]; try reflexivity; [|apply IH].
    destruct term as [t|].
    + destruct (invoke t method args kwargs) as [[r|exc] t'];
        cbn [map reply_id ok_reply exn_reply]; now rewrite IH.
    + cbn [map reply_id init_failed_reply]. now rewrite IH.
  - intros pre post. revert term.
    induction pre as [|[method args kwargs call_id| |] rest IH]; intros term;
      cbn [app run]; try reflexivity; [|apply IH].
    destruct term as [t|].
    + destruct (invoke t method args kwargs) as [[r|exc] t']; now rewrite IH.
    + now rewrite IH.
Qed.

(** A worker whose terminal could not be constructed stays alive and turns
    every call down: each call before the shutdown is answered, under its
    id, with the error "terminal init failed", which the proxy raises as a
    worker error. *)
Theorem failed_init_turns_every_call_down (inbox : list message) :
  run None inbox = map init_failed_reply (served_ids inbox) /\
  (forall call_id,
     receive call_id (init_failed_reply call_id)
     = Raise (RuntimeError ("Worker error: terminal init failed" ++ newline))).
Proof.
  split.
  - induction inbox as [|[method args kwargs call_id| |] rest IH];
      cbn [run served_ids map]; try reflexivity; [|exact IH].
    now rewrite IH.
  - intros call_id. unfold receive, init_failed_reply. cbn [reply_id ok].
    now rewrite Z.eqb_refl.
Qed.

(** What [_send_call] does with a reply that carries the id of its call. *)
Definition answered (call_id : Z) (resp : reply) : Prop :=
  (ok resp = true /\ receive call_id resp = Ok (result resp)) \/
  (ok resp = false /\
   exists text, receive call_id resp = Raise (RuntimeError ("Worker error: " ++ text))).

Lemma receive_answered (call_id : Z) (resp : reply) :
  reply_id resp = call_id -> answered call_id resp.
Proof.
  intros Hid. unfold answered, receive. rewrite Hid, Z.eqb_refl. cbn [negb].
  destruct (ok resp); [left | right]; split; try reflexivity.
  eexists. reflexivity.
Qed.

(** A session over one pipe: when a proxy issues a series of calls to its
    worker, the k-th reply the worker sends answers the k-th call, so every
    call returns the worker's result or raises the worker's error; the
    protocol error for an out-of-order reply never arises. *)
Theorem session_replies_in_order (calls : list (string * list value)) :
  forall (p : proxy) (term : option terminal),
    Forall2 (fun msg resp =>
               exists call_id,
                 message_id msg = Some call_id /\
                 answered call_id resp /\
                 receive call_id resp
                 <> Raise (RuntimeError "out-of-order IPC reply"))
            (requests p calls) (run term (requests p calls)).
Proof.
  assert (Hno : forall call_id resp,
            answered call_id resp ->
            receive call_id resp <> Raise (RuntimeError "out-of-order IPC reply")).
  { intros call_id resp [[_ ->] | [_ [text ->]]]; discriminate. }
  induction calls as [|[method args] rest IH]; intros p term; [constructor|].
  cbn [requests request run].
  destruct term as [t|].
  - destruct (invoke t method args []) as [[r|exc] t']; constructor;
      try apply IH; exists (_req_id p + 1); (split; [reflexivity|]);
      (split; [apply receive_answered; reflexivity
              | apply Hno, receive_answered; reflexivity]).
  - constructor; [|apply IH]. exists (_req_id p + 1). split; [reflexivity|].
    split; [apply receive_answered; reflexivity
           | apply Hno, receive_answered; reflexivity].
Qed.

End Channel.

(** *** A session against a concrete worker *)

(** A toy terminal that counts the calls it served; its method [boom]
    raises, every other method returns the count. *)
Definition toy_invoke (served : Z) (method : string) (args : list Z)
  (kwargs : list (string * Z)) : (Z + exn) * Z :=
  if String.eqb method "boom"
  then (inr (RuntimeError "Left arm is not initialised/connected."), served + 1)
  else (inl served, served + 1).

Definition toy_repr (e : exn) : string :=
  match e with
  | RuntimeError msg => "RuntimeError('" ++ msg ++ "')"
  | _ => "Exception()"
  end.

Definition toy_trace (e : exn) : string := "Traceback (most recent call last)".

(** A pipe that answers out of turn, under the id 0. *)
Definition stale_pipe (m : message Z) : reply Z :=
  mkReply Z true (Some 7) None None 0.

(** A pipe with the toy worker at its other end, answering one message. *)
Definition toy_pipe (served : Z) (m : message Z) : reply Z :=
  match run Z Z toy_invoke toy_repr toy_trace (Some served) [m] with
  | r :: _ => r
  | [] => mkReply Z false None None None 0
  end.

Lemma ipc_call_protocol_witness :
  snd (_send_call Z (mkProxy 0) "cmd_play" [] [] stale_pipe)
    = Raise (RuntimeError "out-of-order IPC reply") /\
  snd (_send_call Z (mkProxy 0) "cmd_get" [] [] (toy_pipe 5)) = Ok (Some 5) /\
  run Z Z toy_invoke toy_repr toy_trace (Some 0)
      [Call Z "boom" [] [] 1; Call Z "cmd_get" [] [] 2]
  = [mkReply Z false None
       (Some "RuntimeError('Left arm is not initialised/connected.')")
       (Some "Traceback (most recent call last)") 1;
     mkReply Z true (Some 1) None None 2].
Proof.
  pose proof (ipc_call_protocol Z Z toy_invoke toy_repr toy_trace)
    as (_ & _ & Hstale & Hok & Hexn & Hres).
  split; [|split].
  - apply Hstale. cbn. lia.
  - apply (Hok (mkProxy 0) "cmd_get" [] [] (toy_pipe 5)); reflexivity.
  - rewrite (Hexn 0 1 "boom" [] [] 1
               (RuntimeError "Left arm is not initialised/connected.")
               [Call Z "cmd_get" [] [] 2] eq_refl).
    rewrite (Hres 1 2 "cmd_get" [] [] 2 1 [] eq_refl).
    reflexivity.
Defined.

End Ipc.

(** ** The terminal: telemetry, motion helpers and playback (terminal_v2.py) *)

Module Terminal.

Import PyNum Safety.

(** *** Hardware, environment and world *)

Inductive arm : Type := Left | Right.

(** The SDK calls the playback engine issues. *)
Inductive command : Type :=
| JointCtrl (joint_1 joint_2 joint_3 joint_4 joint_5 joint_6 : Z)
| GripperCtrl (gripper_angle gripper_effort gripper_code set_zero : Z)
| EnableArm (motor_num : Z)
| ModeCtrl (ctrl_mode move_mode : Z) (move_spd_rate_ctrl : option Z).

Inductive level : Type := DEBUG | INFO | WARNING | ERROR.

(** What a run leaves behind: SDK calls on an arm, log records, and calls of
    the visualiser hook. *)
Inductive event : Type :=
| Sdk (a : arm) (c : command)
| Log (lv : level) (msg : string)
| PointHook (pt : list Z).

(** [GetArmJointMsgs().joint_state] and [GetArmGripperMsgs().gripper_state] *)
Record feedback : Type := mkFeedback {
  joint_1 : Z; joint_2 : Z; joint_3 : Z; joint_4 : Z; joint_5 : Z; joint_6 : Z;
  grippers_angle : Z
}.

(** Everything the engine reads and does not control, as a function of the
    clock: the feedback of each arm, whether [pause.txt] holds exactly "1",
    and whether [_play_stop] is set (it is cleared when a playback starts and
    set from outside by [stop_play]); and the two directories on disk. *)
Record environment : Type := mkEnvironment {
  read_feedback : arm -> float -> feedback;
  pause_file_is_1 : float -> bool;
  stop_is_set : float -> bool;
  track_dir : Track.FS;
  zero_tracks : list Track.file
}.

(** The attributes of a [PiperTerminal] that playback depends on: which arms
    are connected and whether a point hook is registered. *)
Record terminal : Type := mkTerminal {
  left_arm : bool;
  right_arm : bool;
  _point_hook : bool
}.

(** The clock (seconds; it advances in [time.sleep] only) and the events so
    far, oldest first. *)
Record world : Type := mkWorld {
  now : float;
  out : list event
}.

(** A run ends with a value, ends with an exception, or is still inside a
    [while] loop when the fuel is spent. *)
Inductive outcome (A : Type) : Type :=
| Done (a : A) (w : world)
| Raised (e : exn) (w : world)
| Running (w : world).
Arguments Done {A} a w.
Arguments Raised {A} e w.
Arguments Running {A} w.

Definition final {A : Type} (o : outcome A) : world :=
  match o with
  | Done _ w | Raised _ w | Running w => w
  end.

Definition M (A : Type) : Type := world -> outcome A.

Definition ret {A : Type} (a : A) : M A := fun w => Done a w.

Definition bind {A B : Type} (m : M A) (k : A -> M B) : M B :=
  fun w =>
    match m w with
    | Done a w' => k a w'
    | Raised e w' => Raised e w'
    | Running w' => Running w'
    end.

Definition raise {A : Type} (e : exn) : M A := fun w => Raised e w.

Definition lift {A : Type} (r : Result A) : M A :=
  match r with
  | Ok a => ret a
  | Raise e => raise e
  end.

Definition emit (ev : event) : M unit :=
  fun w => Done tt (mkWorld (now w) (out w ++ [ev])%list).

Definition log (lv : level) (msg : string) : M unit := emit (Log lv msg).

(** [time.time()] and [time.perf_counter()] *)
Definition clock : M float := fun w => Done (now w) w.

(** [time.sleep(d)] *)
Definition sleep (d : float) : M unit :=
  fun w => Done tt (mkWorld (now w + d)%float (out w)).

Declare Scope prog_scope.
Delimit Scope prog_scope with prog.
Notation "x <- m ;; k" := (bind m (fun x => k))
  (at level 61, m at next level, right associativity) : prog_scope.
Notation "m ;; k" := (bind m (fun _ => k))
  (at level 61, right associativity) : prog_scope.

(** [range(n)] and [range(1, n + 1)] *)
Definition range (n : Z) : list Z := map Z.of_nat (seq 0 (Z.to_nat n)).
Definition range1 (n : Z) : list Z := map Z.of_nat (seq 1 (Z.to_nat n)).

Definition pose_of (fb : feedback) : list Z :=
  [joint_1 fb; joint_2 fb; joint_3 fb; joint_4 fb; joint_5 fb; joint_6 fb;
   grippers_angle fb].

(** [any(v != 0 for v in pt)] *)
Definition any_nonzero (pt : list Z) : bool :=
  existsb (fun v => negb (v =? 0)) pt.

Definition GRIPPER_EFFORT : Z := 5000.
Definition GRIPPER_TIGHT_COEFFICEINT : float := 0.075%float.
Definition DELAY_BETWEEN_TRACKS : Z := 3.

(** [_effective_target]: a copy of [pt] with the gripper (index 6) tightened. *)
Definition _effective_target (pt : list Z) : Result (list Z) :=
  if (0 <? GRIPPER_TIGHT_COEFFICEINT)%float
  then
    (g <- py_index pt 6 ;;
     v <- py_int (float_of_int g * (float_of_int 1 - GRIPPER_TIGHT_COEFFICEINT)) ;;
     Ok (firstn 6 pt ++ v :: skipn 7 pt)%list)%result
  else Ok pt.

(** [PiperResponse] *)
Record PiperResponse : Type := mkResponse {
  ok : bool;
  error : option string
}.

(** A track of control points as [_run_timed_track] reads it off a
    [TrackV3Timed] object: its name, [points] and [durations]. *)
Record TimedTrack : Type := mkTimedTrack {
  tt_name : string;
  tt_points : list (list Z);
  tt_durations : list float
}.

(** [TrackV3Timed.speed_up], the table keyed by track name.  (The branches
    that return the integer 0 are given as the float 0: the only use is
    [durations[idx] * (1 - speed_up)], and [d * 1] is [d * 1.0].) *)
Definition speed_up (name : string) : float :=
  if String.eqb name "left__open_door" then 0%float
  else if String.eqb name "left__lopatka1" then 0.15%float
  else if String.eqb name "right__open_door" then 0.3%float
  else if String.eqb name "right__meat" then 0.2%float
  else if String.eqb name "right__tomat" then 0.47%float
  else if String.eqb name "right__salt" then 0.2%float
  else if String.eqb name "right__lapsha" then 0.3%float
  else if String.eqb name "right__cheese" then 0.15%float
  else if String.eqb name "right__close_door" then 0.1%float
  else if String.eqb name "left__close_door" then 0.25%float
  else if String.eqb name "left__colba1" then 0.3%float
  else if String.eqb name "left__lopatka2_open" then 0.6%float
  else if String.eqb name "left__lopatka2_mix" then 0.6%float
  else if String.eqb name "left__lopatka2_close" then 0.6%float
  else if String.eqb name "left__lopatka2_open_faster" then 0.6%float
  else if String.eqb name "left__lopatka2_mix_faster" then 0.6%float
  else if String.eqb name "left__lopatka2_close_faster" then 0.6%float
  else if String.eqb name "left__colba_suhtrav" then 0%float
  else if String.eqb name "left__colba_svezhtrav" then 0%float
  else 0%float.

(** A pose read from a track file is a JSON list of integers (booleans count
    as integers in Python); any other value fails in the integer arithmetic it
    is put through, which the model reports at the conversion. *)
Definition as_int (x : Track.json) : Result Z :=
  match x with
  | Track.JInt z => Ok z
  | Track.JBool b => Ok (if b then 1 else 0)
  | _ => Raise TypeError
  end.

Definition as_pose (x : Track.json) : Result (list Z) :=
  match x with
  | Track.JList items => rmap as_int items
  | _ => Raise TypeError
  end.

(** [[(t - c) / steps for c, t in zip(curr, target_pt)]] *)
Definition step_diffs (curr target_pt : list Z) (steps : Z) : Result (list float) :=
  rmap (fun ct => int_truediv (snd ct - fst ct) steps) (combine curr target_pt).

(** [[int(c + d * i) for c, d in zip(curr, diffs)]] *)
Definition smooth_pose (curr : list Z) (diffs : list float) (i : Z)
  : Result (list Z) :=
  rmap (fun cd => py_int (float_of_int (fst cd) + snd cd * float_of_int i))
       (combine curr diffs).

(** [[int(start_pt[i] + diffs[i] * step) for i in range(7)]] *)
Definition segment_pose (start_pt : list Z) (diffs : list float) (step : Z)
  : Result (list Z) :=
  rmap (fun i =>
          (s <- py_index start_pt i ;;
           d <- py_index diffs i ;;
           py_int (float_of_int s + d * float_of_int step))%result)
       (seq 0 7).

(** [1.0 / hz] *)
Definition period_of (hz : Z) : Result float :=
  if hz =? 0 then Raise ZeroDivisionError
  else Ok (1 / float_of_int hz)%float.

(** [max(1, int(dur * hz))] with
    [dur = float(durations[idx] * (1 - trk_obj.speed_up))] *)
Definition segment_steps (duration : float) (name : string) (hz : Z) : Result Z :=
  let dur := (duration * (float_of_int 1 - speed_up name))%float in
  (n <- py_int (dur * float_of_int hz) ;;
   Ok (Z.max 1 n))%result.

Section Engine.

Variable E : environment.
Variable self : terminal.

Local Open Scope prog_scope.

(** [self._play_stop.is_set()] and [self._external_pause_active()] *)
Definition is_set : M bool := fun w => Done (stop_is_set E (now w)) w.
Definition _external_pause_active : M bool :=
  fun w => Done (pause_file_is_1 E (now w)) w.

(** The [while True] loop of [_current_point]: its only exit is the
    [return pt] under [any(v != 0 for v in pt)]. *)
Fixpoint current_point_loop (fuel : nat) (a : arm) (deadline warned_at : float)
  : M (list Z) :=
  match fuel with
  | O => fun w => Running w
  | S fuel' =>
      t <- clock ;;
      let pt := pose_of (read_feedback E a t) in
      if any_nonzero pt then ret pt
      else
        t1 <- clock ;;
        warned_at' <-
          (if (deadline <=? t1)%float
           then
             t2 <- clock ;;
             if (0.1 <? t2 - warned_at)%float
             then
               log WARNING "[DATA] No valid joint data for >100 ms (all zeros)" ;;
               clock
             else ret warned_at
           else ret warned_at) ;;
        sleep 0.005 ;;
        current_point_loop fuel' a deadline warned_at'
  end.

Definition _current_point (fuel : nat) (a : arm) : M (list Z) :=
  t <- clock ;;
  let deadline := (t + 0.1)%float in
  warned_at <- clock ;;
  current_point_loop fuel a deadline warned_at.

(** [_send_point]: the tightened pose goes to [JointCtrl] and [GripperCtrl],
    the raw one to the hook. *)
Definition _send_point (a : arm) (pt : list Z) : M unit :=
  eff_pt <- lift (_effective_target pt) ;;
  match eff_pt with
  | j1 :: j2 :: j3 :: j4 :: j5 :: j6 :: _ =>
      emit (Sdk a (JointCtrl j1 j2 j3 j4 j5 j6)) ;;
      g <- lift (py_index eff_pt 6) ;;
      emit (Sdk a (GripperCtrl g GRIPPER_EFFORT 1 0)) ;;
      if _point_hook self then emit (PointHook pt) else ret tt
  | _ => raise TypeError
  end.

Definition _prepare_track_play (a : arm) : M unit :=
  emit (Sdk a (EnableArm 7)) ;;
  emit (Sdk a (ModeCtrl 1 1 (Some 50))) ;;
  sleep 0.01.

(** The [for i in range(steps)] loop of [_move_smooth]. *)
Fixpoint smooth_loop (a : arm) (curr : list Z) (diffs : list float)
  (period : float) (indices : list Z) : M unit :=
  match indices with
  | [] => ret tt
  | i :: rest =>
      pt <- lift (smooth_pose curr diffs i) ;;
      _send_point a pt ;;
      sleep period ;;
      smooth_loop a curr diffs period rest
  end.

Definition _move_smooth (fuel : nat) (a : arm) (target_pt : list Z)
  (steps hz : Z) : M PiperResponse :=
  curr <- _current_point fuel a ;;
  diffs <- lift (step_diffs curr target_pt steps) ;;
  period <- lift (period_of hz) ;;
  log INFO "[SEND] sending points started" ;;
  smooth_loop a curr diffs period (range steps) ;;
  log INFO "[SEND] sending points finished" ;;
  reached <- _current_point fuel a ;;
  close <- lift (_is_close_strict reached target_pt TOLERANCE_ANGLE_UNITS None) ;;
  if negb close
  then ret (mkResponse false (Some "not close to target_pt"))
  else ret (mkResponse true None).

(** Modelled from the spec: [_safe_move_smooth] is called by [cmd_play],
    [cmd_play_parallel] and [cmd_play_v2] but defined nowhere in the source
    tree.  The spec has the engine execute "a smooth linear glide (fixed step
    count, default 100 steps at 50 Hz) from the current pose to the first
    point" and abort "if that glide fails to converge within a strict
    tolerance": the glide and its strict check are [_move_smooth], the step
    count is 100 unless the caller passes one ([cmd_play_v2] passes 25), and
    the callers test the result as a boolean. *)
Definition _safe_move_smooth (fuel : nat) (a : arm) (target_pt : list Z)
  (steps : option Z) : M bool :=
  let steps := match steps with Some n => n | None => 100 end in
  resp <- _move_smooth fuel a target_pt steps 50 ;;
  ret (ok resp).

(** The pause handling shared by both playback loops, on the local flag
    [paused_by_file]; the result is the flag afterwards. *)
Fixpoint wait_unpaused (fuel : nat) : M unit :=
  match fuel with
  | O => fun w => Running w
  | S fuel' =>
      paused <- _external_pause_active ;;
      if paused
      then
        stop <- is_set ;;
        if stop then ret tt
        else sleep 0.2 ;; wait_unpaused fuel'
      else ret tt
  end.

Definition pause_gate (fuel : nat) (a : arm) (paused_by_file : bool) : M bool :=
  active <- _external_pause_active ;;
  paused_by_file <-
    (if active
     then
       (if paused_by_file then ret tt
        else
          emit (Sdk a (ModeCtrl 0 0 None)) ;;
          log DEBUG "[PAUSE_FILE] Enter pause (track).") ;;
       wait_unpaused fuel ;;
       ret true
     else ret paused_by_file) ;;
  if paused_by_file
  then
    active <- _external_pause_active ;;
    if active then ret true
    else
      emit (Sdk a (ModeCtrl 1 1 (Some 50))) ;;
      log DEBUG "[PAUSE_FILE] Resume (track)." ;;
      ret false
  else ret false.

(** The [for step in range(1, steps + 1)] loop of one segment. *)
Fixpoint timed_steps (fuel : nat) (a : arm) (start_pt : list Z)
  (diffs : list float) (period : float) (paused_by_file : bool)
  (steps : list Z) : M unit :=
  match steps with
  | [] => ret tt
  | step :: rest =>
      pt <- lift (segment_pose start_pt diffs step) ;;
      paused_by_file <- pause_gate fuel a paused_by_file ;;
      _send_point a pt ;;
      stop <- is_set ;;
      if stop
      then log INFO "[PLAY_V2] stop requested, leaving the segment"
      else
        sleep period ;;
        timed_steps fuel a start_pt diffs period paused_by_file rest
  end.

(** The [for idx in range(1, len(points))] loop, over the indices left. *)
Fixpoint timed_segments (fuel : nat) (a : arm) (trk_obj : TimedTrack) (hz : Z)
  (period : float) (indices : list nat) : M unit :=
  match indices with
  | [] => ret tt
  | idx :: rest =>
      start_pt <- lift (py_index (tt_points trk_obj) (idx - 1)) ;;
      end_pt <- lift (py_index (tt_points trk_obj) idx) ;;
      log INFO "playing point" ;;
      duration <- lift (py_index (tt_durations trk_obj) idx) ;;
      steps <- lift (segment_steps duration (tt_name trk_obj) hz) ;;
      diffs <- lift (step_diffs start_pt end_pt steps) ;;
      timed_steps fuel a start_pt diffs period false (range1 steps) ;;
      stop <- is_set ;;
      if stop then ret tt
      else timed_segments fuel a trk_obj hz period rest
  end.

Definition _run_timed_track (fuel : nat) (a : arm) (trk_obj : TimedTrack)
  (hz : Z) : M unit :=
  match tt_points trk_obj with
  | [] => log WARNING "[PLAY_V2] track is empty, nothing to play"
  | [point] =>
      _prepare_track_play a ;;
      _move_smooth fuel a point 100 50 ;;
      emit (Sdk a (ModeCtrl 0 0 None)) ;;
      log INFO "[PLAY_V2] 1-point track, move done"
  | points =>
      _prepare_track_play a ;;
      period <- lift (period_of hz) ;;
      timed_segments fuel a trk_obj hz period
                     (seq 1 (List.length points - 1)) ;;
      emit (Sdk a (ModeCtrl 0 0 None)) ;;
      stop <- is_set ;;
      (if stop then log INFO "[PLAY_V2] track stopped early" else ret tt) ;;
      log INFO "ModeCtrl: ctrl_mode=0x00, move_mode=0x00   (end track v2)"
  end.

(** [a - b] on two recorded timestamps (JSON numbers), as a float. *)
Definition py_sub (x y : Track.json) : Result float :=
  match x, y with
  | (Track.JInt _ | Track.JFloat _ | Track.JBool _),
    (Track.JInt _ | Track.JFloat _ | Track.JBool _) =>
      (fx <- Track.py_float x ;;
       fy <- Track.py_float y ;;
       Ok (fx - fy)%float)%result
  | _, _ => Raise TypeError
  end.

(** The inner [while True] of [_run_track]: wait for the recorded offset. *)
Fixpoint sync_wait (fuel : nat) (started_at target_offset : float) : M unit :=
  match fuel with
  | O => fun w => Running w
  | S fuel' =>
      t <- clock ;;
      let run_time := (t - started_at)%float in
      if (target_offset <=? run_time)%float then ret tt
      else
        stop <- is_set ;;
        if stop then ret tt
        else sleep 0.001 ;; sync_wait fuel' started_at target_offset
  end.

(** The [for idx, tp in enumerate(data)] loop of [_run_track], on the local
    state [(last_pct, paused_by_file)]. *)
Fixpoint track_loop (fuel : nat) (a : arm) (total_pts : Z) (started_at : float)
  (first_ts : Track.json) (idx : Z) (last_pct : Z) (paused_by_file : bool)
  (data : list Track.TrackPoint) : M unit :=
  match data with
  | [] => ret tt
  | tp :: rest =>
      stop <- is_set ;;
      if stop then log INFO "[PLAY] stop requested, leaving the track"
      else
        target_offset <-
          lift (py_sub (Track.coordinates_timestamp tp) first_ts) ;;
        sync_wait fuel started_at target_offset ;;
        pt <- lift (as_pose (Track.coordinates tp)) ;;
        _send_point a pt ;;
        ratio <- lift (int_truediv ((idx + 1) * 100) total_pts) ;;
        pct <- lift (py_int ratio) ;;
        last_pct <-
          (if last_pct / 10 <? pct / 10
           then log INFO "[PLAY] progress" ;; ret pct
           else ret last_pct) ;;
        paused_by_file <- pause_gate fuel a paused_by_file ;;
        track_loop fuel a total_pts started_at first_ts (idx + 1) last_pct
                   paused_by_file rest
  end.

Definition _run_track (fuel : nat) (a : arm) (data : list Track.TrackPoint)
  : M unit :=
  log INFO "ModeCtrl: ctrl_mode=0x01, move_mode=0x01   (start track)" ;;
  _prepare_track_play a ;;
  let total_pts := Z.of_nat (List.length data) in
  started_at <- clock ;;
  tp0 <- lift (py_index data 0) ;;
  let first_ts := Track.coordinates_timestamp tp0 in
  track_loop fuel a total_pts started_at first_ts 0 (-10) false data ;;
  emit (Sdk a (ModeCtrl 0 0 None)) ;;
  stop <- is_set ;;
  (if stop then log INFO "[PLAY] track stopped early" else ret tt) ;;
  log INFO "ModeCtrl: ctrl_mode=0x00, move_mode=0x00   (end track)".

(** [_arm_from_name] and [_arm_can_from_name] *)
Definition _arm_from_name (full_name : string) : Result arm :=
  if Canon.startswith full_name "left__"
  then if left_arm self then Ok Left
       else Raise (RuntimeError "Left arm is not initialised/connected.")
  else if Canon.startswith full_name "right__"
  then if right_arm self then Ok Right
       else Raise (RuntimeError "Right arm is not initialised/connected.")
  else Raise (ValueError "name must start with left__ or right__").

Definition _arm_can_from_name (full_name : string) : Result arm :=
  if Canon.startswith full_name "left__" then Ok Left
  else if Canon.startswith full_name "right__" then Ok Right
  else Raise (ValueError "name must start with left__ or right__").

(** The pre-flight check [_maybe_reset_from_safe_pose_and_move_to_0]: the
    smallest deviation from the current pose to a point of a zero track
    ([None] is [math.inf]); an unreadable zero track is logged and skipped. *)
Fixpoint nearest_in_track (curr : list Z) (best_delta : option Z)
  (points : list Track.json) : Result (option Z) :=
  match points with
  | [] => Ok best_delta
  | pt :: rest =>
      (pose <- as_pose pt ;;
       let delta := fst (_max_delta_and_joint_ignored curr pose) in
       let closer := match best_delta with
                     | None => true
                     | Some best => delta <? best
                     end in
       nearest_in_track curr (if closer then Some delta else best_delta) rest)%result
  end.

Fixpoint nearest_in_tracks (curr : list Z) (best_delta : option Z)
  (z_tracks : list Track.file) : M (option Z) :=
  match z_tracks with
  | [] => ret best_delta
  | Track.Doc data :: rest =>
      points <- lift (Track.py_iter data) ;;
      best_delta <- lift (nearest_in_track curr best_delta points) ;;
      nearest_in_tracks curr best_delta rest
  | _ :: rest =>
      log ERROR "fail" ;;
      nearest_in_tracks curr best_delta rest
  end.

Definition _maybe_reset_from_safe_pose_and_move_to_0 (fuel : nat) (a : arm)
  : M PiperResponse :=
  match zero_tracks E with
  | [] => ret (mkResponse false (Some "no 0 tracks"))
  | z_tracks =>
      curr <- _current_point fuel a ;;
      nearest_in_tracks curr None z_tracks ;;
      log INFO "[SAFE] nearest safe-track" ;;
      log INFO "[SAFE] arrived at 0-pos" ;;
      ret (mkResponse true None)
  end.

(** The wait of [DELAY_BETWEEN_TRACKS] seconds between two tracks. *)
Fixpoint pause_between (n : nat) : M unit :=
  match n with
  | O => ret tt
  | S n' =>
      stop <- is_set ;;
      if stop then ret tt
      else sleep 0.1 ;; pause_between n'
  end.

(** The [for i, full_name in enumerate(tracks)] loop of [cmd_play] with its
    closing log line; [i < len(tracks) - 1] is "more tracks follow". *)
Fixpoint play_loop (fuel : nat) (tracks : list string) : M unit :=
  match tracks with
  | [] => ret tt
  | full_name :: rest =>
      stop <- is_set ;;
      if stop then log INFO "[PLAY] stop requested, leaving after the track"
      else
        data <- lift (Track._load (track_dir E) full_name) ;;
        a <- lift (_arm_from_name full_name) ;;
        log INFO "[PLAY] track" ;;
        _run_track fuel a data ;;
        stop <- is_set ;;
        if stop then log INFO "[PLAY] stop requested, no further tracks"
        else
          match rest with
          | [] => ret tt
          | _ =>
              log INFO "pause between tracks" ;;
              pause_between (Z.to_nat (DELAY_BETWEEN_TRACKS * 10)) ;;
              stop <- is_set ;;
              if stop then log INFO "[PLAY] stop requested during the pause"
              else play_loop fuel rest
          end
  end.

Definition play_all (fuel : nat) (tracks : list string) : M unit :=
  play_loop fuel tracks ;;
  log INFO "playback finished".

Definition cmd_play (fuel : nat) (tracks : list string) : M unit :=
  match tracks with
  | [] => log INFO "play: at least one track is required"
  | first :: _ =>
      arm0 <- lift (_arm_from_name first) ;;
      lift (_arm_can_from_name first) ;;
      result <- _maybe_reset_from_safe_pose_and_move_to_0 fuel arm0 ;;
      if negb (ok result) then log ERROR "bad status"
      else
        data0 <- lift (Track._load (track_dir E) first) ;;
        tp0 <- lift (py_index data0 0) ;;
        first_track_start <- lift (as_pose (Track.coordinates tp0)) ;;
        curr <- _current_point fuel arm0 ;;
        if negb (_is_close_ignored curr first_track_start TOLERANCE_ANGLE_UNITS)
        then
          log INFO "[INFO] moving the robot to the start of the track" ;;
          moved <- _safe_move_smooth fuel arm0 first_track_start None ;;
          if negb moved
          then log ERROR "[PLAY] move to the start point cancelled for safety"
          else sleep 0.2 ;; play_all fuel tracks
        else play_all fuel tracks
  end.

End Engine.

Arguments float_of_int : simpl never.
Arguments py_int : simpl never.

(** *** Running the monad *)

(** The world [w] after the clock reached [t] and the events [l] were added. *)
Definition after (w : world) (t : float) (l : list event) : world :=
  mkWorld t (out w ++ l)%list.

Lemma after_after (w : world) (t t' : float) (l l' : list event) :
  after (after w t l) t' l' = after w t' (l ++ l')%list.
Proof. unfold after. cbn. now rewrite <- app_assoc. Qed.

Lemma after_nil (w : world) : after w (now w) [] = w.
Proof. destruct w. unfold after. cbn. now rewrite app_nil_r. Qed.

Lemma bind_Done {A B : Type} (m : M A) (k : A -> M B) (w w' : world) (a : A) :
  m w = Done a w' -> bind m k w = k a w'.
Proof. intros H. unfold bind. now rewrite H. Qed.

Lemma bind_lift_Ok {A B : Type} (r : Result A) (k : A -> M B) (w : world) (a : A) :
  r = Ok a -> bind (lift r) k w = k a w.
Proof. intros ->. reflexivity. Qed.

Lemma emit_after (ev : event) (w : world) :
  emit ev w = Done tt (after w (now w) [ev]).
Proof. reflexivity. Qed.

Lemma sleep_after (d : float) (w : world) :
  sleep d w = Done tt (after w (now w + d)%float []).
Proof. unfold sleep, after. now rewrite app_nil_r. Qed.

(** The clock after [n] sleeps of [period] seconds. *)
Fixpoint after_sleeps (n : nat) (period t : float) : float :=
  match n with
  | O => t
  | S n' => after_sleeps n' period (t + period)%float
  end.

(** *** The position accessor *)

(** A reading that is not all zeros is returned at once. *)
Lemma current_point_ready (E : environment) (fuel : nat) (a : arm) (w : world) :
  any_nonzero (pose_of (read_feedback E a (now w))) = true ->
  _current_point E (S fuel) a w = Done (pose_of (read_feedback E a (now w))) w.
Proof.
  intros H. unfold _current_point, bind, clock. cbn [current_point_loop].
  unfold bind, clock. now rewrite H.
Qed.

(** While the hardware reports zeros the loop has no way out: whatever the
    fuel, the deadline and the clock, the run is still inside the loop. *)
Lemma current_point_loop_zeros (E : environment) (a : arm) :
  (forall t, any_nonzero (pose_of (read_feedback E a t)) = false) ->
  forall fuel deadline warned_at w,
    exists w', current_point_loop E fuel a deadline warned_at w = Running w'.
Proof.
  intros Hzero. induction fuel as [|fuel IH]; intros deadline warned_at w.
  - now exists w.
  - cbn [current_point_loop]. unfold bind at 1. unfold clock at 1.
    rewrite Hzero. unfold bind at 1. unfold clock at 1.
    unfold bind at 1.
    destruct (deadline <=? now w)%float.
    + unfold bind at 1. unfold clock at 1.
      destruct (0.1 <? now w - warned_at)%float.
      * unfold bind at 1, log, emit. unfold clock at 1. cbn [now out].
        unfold bind at 1, sleep. apply IH.
      * unfold ret. unfold bind at 1, sleep. apply IH.
    + unfold ret. unfold bind at 1, sleep. apply IH.
Qed.

Definition is_warning (ev : event) : Prop := exists msg, ev = Log WARNING msg.

(** The loop polls every 5 ms and hands back the first reading that is not
    all zeros; until then it adds nothing but warnings. *)
Lemma current_point_loop_polls (E : environment) (a : arm) :
  forall (k fuel : nat) (deadline warned_at : float) (w : world),
    (forall j, (j < k)%nat ->
       any_nonzero (pose_of (read_feedback E a (after_sleeps j 0.005 (now w))))
       = false) ->
    any_nonzero (pose_of (read_feedback E a (after_sleeps k 0.005 (now w))))
    = true ->
    exists l,
      current_point_loop E (S k + fuel) a deadline warned_at w
      = Done (pose_of (read_feedback E a (after_sleeps k 0.005 (now w))))
             (after w (after_sleeps k 0.005 (now w)) l)
      /\ Forall is_warning l.
Proof.
  induction k as [|k IH]; intros fuel deadline warned_at w Hzero Hlive.
  - exists []. split; [|constructor].
    cbn [Nat.add current_point_loop after_sleeps] in *.
    unfold bind, clock. rewrite Hlive. unfold ret. now rewrite after_nil.
  - assert (H0 : any_nonzero (pose_of (read_feedback E a (now w))) = false)
      by apply (Hzero 0%nat ltac:(lia)).
    assert (Hstep : forall warned_at' l0,
              Forall is_warning l0 ->
              exists l,
                current_point_loop E (S k + fuel) a deadline warned_at'
                  (after w (now w + 0.005)%float l0)
                = Done (pose_of (read_feedback E a
                                   (after_sleeps (S k) 0.005 (now w))))
                       (after w (after_sleeps (S k) 0.005 (now w)) l)
                /\ Forall is_warning l).
    { intros warned_at' l0 Hl0.
      destruct (IH fuel deadline warned_at' (after w (now w + 0.005)%float l0))
        as (l & Hrun & Hl).
      - intros j Hj. apply (Hzero (S j)). lia.
      - exact Hlive.
      - exists (l0 ++ l)%list. split.
        + rewrite Hrun. cbn [now after after_sleeps]. now rewrite after_after.
        + apply Forall_app. now split. }
    change (S (S k) + fuel)%nat with (S (S k + fuel)).
    cbn [current_point_loop]. unfold bind at 1. unfold clock at 1.
    rewrite H0. unfold bind at 1. unfold clock at 1. unfold bind at 1.
    destruct (deadline <=? now w)%float.
    + unfold bind at 1. unfold clock at 1.
      destruct (0.1 <? now w - warned_at)%float.
      * unfold bind at 1, log. rewrite emit_after. unfold clock at 1.
        unfold bind at 1. rewrite sleep_after, after_after.
        cbn [now after app]. apply Hstep.
        constructor; [now eexists | constructor].
      * unfold ret. unfold bind at 1. rewrite sleep_after. apply Hstep.
        constructor.
    + unfold ret. unfold bind at 1. rewrite sleep_after. apply Hstep.
      constructor.
Qed.

(** [_current_point] on a link that comes alive at its [k]-th re-poll: the
    call returns, after [k] sleeps of 5 ms, the first reading that is not all
    zeros. *)
Theorem current_point_returns_first_reading
  (E : environment) (a : arm) (k fuel : nat) (w : world) :
  (forall j, (j < k)%nat ->
     any_nonzero (pose_of (read_feedback E a (after_sleeps j 0.005 (now w))))
     = false) ->
  any_nonzero (pose_of (read_feedback E a (after_sleeps k 0.005 (now w))))
  = true ->
  exists l,
    _current_point E (S k + fuel) a w
    = Done (pose_of (read_feedback E a (after_sleeps k 0.005 (now w))))
           (after w (after_sleeps k 0.005 (now w)) l)
    /\ Forall is_warning l.
Proof.
  intros Hzero Hlive. unfold _current_point, bind at 1 2, clock.
  now apply current_point_loop_polls.
Qed.

(** A link that reports zeros during the first 12 ms after a reconnect. *)
Definition waking_link : environment :=
  mkEnvironment
    (fun _ t => if (t <? 0.012)%float then mkFeedback 0 0 0 0 0 0 0
                else mkFeedback 1000 0 0 0 0 0 0)
    (fun _ => false) (fun _ => false) (fun _ => Track.Missing) [].

Lemma current_point_returns_first_reading_witness :
  exists l,
    _current_point waking_link 4 Left (mkWorld 0 [])
    = Done [1000; 0; 0; 0; 0; 0; 0]
           (after (mkWorld 0 []) (after_sleeps 3 0.005 0) l)
    /\ Forall is_warning l.
Proof.
  apply (current_point_returns_first_reading waking_link Left 3 0 (mkWorld 0 [])).
  - intros j Hj. destruct j as [|[|[|j]]]; [reflexivity .. | lia].
  - reflexivity.
Defined.

(** A link that reports zeros for ever (the state right after a reconnect,
    never left). *)
Definition dead_link : environment :=
  mkEnvironment (fun _ _ => mkFeedback 0 0 0 0 0 0 0)
                (fun _ => false) (fun _ => false)
                (fun _ => Track.Missing) [].

(** C4 (the code departs from the claim and from its own docstring).  On a
    link that keeps reporting zeros [_current_point] never returns: for every
    amount of fuel, from every world, the run is still inside the [while]
    loop; no deadline makes it hand back the last reading. *)
Theorem current_point_hangs_on_dead_link :
  forall (fuel : nat) (a : arm) (w : world),
    exists w', _current_point dead_link fuel a w = Running w'.
Proof.
  intros fuel a w. unfold _current_point, bind at 1 2, clock.
  apply current_point_loop_zeros. reflexivity.
Qed.

(** After the deadline the loop does warn, about every 105 ms, and goes on:
    sixty polls from time 0 leave two warnings and no result. *)
Example current_point_dead_link_warns :
  exists t,
    _current_point dead_link 60 Left (mkWorld 0 [])
    = Running (mkWorld t
        [Log WARNING "[DATA] No valid joint data for >100 ms (all zeros)";
         Log WARNING "[DATA] No valid joint data for >100 ms (all zeros)"]).
Proof. eexists. vm_compute. reflexivity. Qed.

(** *** What a completed move sends *)

(** [int(g * (1 - GRIPPER_TIGHT_COEFFICEINT))]: the gripper value that goes
    out for the recorded value [g]. *)
Definition tightened (g : Z) : Result Z :=
  py_int (float_of_int g * (float_of_int 1 - GRIPPER_TIGHT_COEFFICEINT)).

Definition hook_events (self : terminal) (pt : list Z) : list event :=
  if _point_hook self then [PointHook pt] else [].

(** The events of one [_send_point] that commands the gripper value [v]. *)
Definition pose_events (self : terminal) (a : arm) (pt : list Z) (v : Z)
  : list event :=
  (Sdk a (JointCtrl (nth 0 pt 0) (nth 1 pt 0) (nth 2 pt 0)
                    (nth 3 pt 0) (nth 4 pt 0) (nth 5 pt 0))
   :: Sdk a (GripperCtrl v GRIPPER_EFFORT 1 0)
   :: hook_events self pt)%list.

(** The events [_send_point] adds for [pt] when it raises nothing. *)
Definition sent (self : terminal) (a : arm) (pt : list Z) : Result (list event) :=
  if (7 <=? List.length pt)%nat
  then (v <- tightened (nth 6 pt 0) ;; Ok (pose_events self a pt v))%result
  else Raise IndexError.

Lemma gripper_coefficient_positive :
  (0 <? GRIPPER_TIGHT_COEFFICEINT)%float = true.
Proof. reflexivity. Qed.

Lemma send_point_sent (self : terminal) (a : arm) (pt : list Z)
  (evs : list event) (w : world) :
  sent self a pt = Ok evs ->
  _send_point self a pt w = Done tt (after w (now w) evs).
Proof.
  unfold sent, _send_point, _effective_target, tightened.
  rewrite gripper_coefficient_positive.
  destruct pt as [|j1 [|j2 [|j3 [|j4 [|j5 [|j6 [|g rest]]]]]]];
    try discriminate.
  cbn [List.length Nat.leb nth py_index nth_error rbind].
  destruct (py_int _) as [v|e]; [|discriminate].
  cbn [rbind]. intros [= <-].
  cbn [firstn skipn app lift]. unfold bind, ret, emit, after, pose_events,
    hook_events. cbn [now out nth py_index nth_error lift ret].
  destruct (_point_hook self); cbn [now out];
    repeat rewrite <- app_assoc; reflexivity.
Qed.

(** A move that runs through sends its poses one after the other and sleeps
    one period after each. *)
Lemma smooth_loop_run (self : terminal) (a : arm) (curr : list Z)
  (diffs : list float) (period : float) :
  forall (indices : list Z) (poses : list (list Z)) (sends : list (list event))
         (w : world),
    rmap (smooth_pose curr diffs) indices = Ok poses ->
    rmap (sent self a) poses = Ok sends ->
    smooth_loop self a curr diffs period indices w
    = Done tt (after w (after_sleeps (List.length indices) period (now w))
                     (concat sends)).
Proof.
  induction indices as [|i rest IH]; intros poses sends w Hposes Hsends.
  - cbn in Hposes. injection Hposes as <-. cbn in Hsends.
    injection Hsends as <-. cbn. unfold ret. now rewrite after_nil.
  - cbn [rmap] in Hposes.
    destruct (smooth_pose curr diffs i) as [pt|] eqn:Hpt; [|discriminate].
    destruct (rmap (smooth_pose curr diffs) rest) as [pts|] eqn:Hpts;
      [|discriminate].
    cbn [rbind] in Hposes. injection Hposes as <-.
    cbn [rmap] in Hsends.
    destruct (sent self a pt) as [evs|] eqn:Hevs; [|discriminate].
    destruct (rmap (sent self a) pts) as [evss|] eqn:Hevss; [|discriminate].
    cbn [rbind] in Hsends. injection Hsends as <-.
    cbn [smooth_loop]. rewrite Hpt. cbn [lift]. unfold bind at 1, ret at 1.
    unfold bind at 1. rewrite (send_point_sent _ _ _ _ _ Hevs).
    unfold bind at 1. rewrite sleep_after.
    rewrite (IH pts evss _ eq_refl Hevss).
    rewrite !after_after. cbn [concat List.length after_sleeps now after].
    reflexivity.
Qed.

Lemma rmap_length {A B : Type} (f : A -> Result B) :
  forall (l : list A) (l' : list B),
    rmap f l = Ok l' -> List.length l' = List.length l.
Proof.
  induction l as [|x xs IH]; intros l' H; cbn in H.
  - now injection H as <-.
  - destruct (f x); [|discriminate]. destruct (rmap f xs) eqn:Hxs; [|discriminate].
    cbn in H. injection H as <-. cbn. f_equal. now apply IH.
Qed.

Lemma range_length (n : Z) : List.length (range n) = Z.to_nat n.
Proof. unfold range. now rewrite length_map, length_seq. Qed.

Definition moved (close : bool) : PiperResponse :=
  if negb close then mkResponse false (Some "not close to target_pt")
  else mkResponse true None.

(** [_move_smooth] on a live link: from the reading [curr] it sends the
    [steps] poses [int(c + (t - c) / steps * i)], [i = 0 .. steps - 1], one
    per period, and answers whether the reading after the last sleep is
    strictly close to the target. *)
Lemma move_smooth_run (E : environment) (self : terminal) (fuel : nat) (a : arm)
  (target_pt : list Z) (steps hz : Z) (w : world)
  (curr : list Z) (diffs : list float) (period : float)
  (poses : list (list Z)) (sends : list (list event))
  (reached : list Z) (close : bool) :
  pose_of (read_feedback E a (now w)) = curr ->
  any_nonzero curr = true ->
  step_diffs curr target_pt steps = Ok diffs ->
  period_of hz = Ok period ->
  rmap (smooth_pose curr diffs) (range steps) = Ok poses ->
  rmap (sent self a) poses = Ok sends ->
  pose_of (read_feedback E a (after_sleeps (Z.to_nat steps) period (now w)))
    = reached ->
  any_nonzero reached = true ->
  _is_close_strict reached target_pt TOLERANCE_ANGLE_UNITS None = Ok close ->
  _move_smooth E self (S fuel) a target_pt steps hz w
  = Done (moved close)
         (after w (after_sleeps (Z.to_nat steps) period (now w))
                ([Log INFO "[SEND] sending points started"]
                 ++ concat sends
                 ++ [Log INFO "[SEND] sending points finished"])%list).
Proof.
  intros Hcurr Hnz Hdiffs Hperiod Hposes Hsends Hreached Hnz' Hclose.
  unfold _move_smooth.
  rewrite (bind_Done _ _ _ _ _ (current_point_ready E fuel a w
                                   ltac:(now rewrite Hcurr))).
  rewrite Hcurr, Hdiffs, Hperiod. cbn [lift]. unfold bind at 1, ret at 1.
  unfold bind at 1, ret at 1. unfold bind at 1, log. rewrite emit_after.
  unfold bind at 1. rewrite (smooth_loop_run _ _ _ _ _ _ _ _ _ Hposes Hsends).
  rewrite range_length. unfold bind at 1. rewrite emit_after.
  rewrite !after_after. cbn [now after].
  set (t2 := after_sleeps (Z.to_nat steps) period (now w)) in *.
  set (w2 := after w t2 _).
  assert (Hready : _current_point E (S fuel) a w2 = Done reached w2).
  { rewrite <- Hreached. apply current_point_ready. cbn [now w2 after].
    now rewrite Hreached. }
  rewrite (bind_Done _ _ _ _ _ Hready). rewrite Hclose. cbn [lift].
  unfold bind, ret, moved. subst w2. cbn [app].
  now destruct close.
Qed.

(** What [sent] stands for: the pose has its seven values, the six joints go
    out as recorded and the gripper as [int(g * (1 - 0.075))]. *)
Lemma sent_shape (self : terminal) (a : arm) (pt : list Z) (evs : list event) :
  sent self a pt = Ok evs ->
  (7 <= List.length pt)%nat /\
  exists v, tightened (nth 6 pt 0) = Ok v /\ evs = pose_events self a pt v.
Proof.
  unfold sent. destruct (Nat.leb_spec 7 (List.length pt)); [|discriminate].
  destruct (tightened (nth 6 pt 0)) as [v|]; [|discriminate].
  intros [= <-]. split; [assumption|]. now exists v.
Qed.

Lemma period_of_50 : period_of 50 = Ok 0.02%float.
Proof. vm_compute. reflexivity. Qed.

Lemma prepare_track_play_run (a : arm) (w : world) :
  _prepare_track_play a w
  = Done tt (after w (now w + 0.01)%float
                   [Sdk a (EnableArm 7); Sdk a (ModeCtrl 1 1 (Some 50))]).
Proof.
  unfold _prepare_track_play, bind, emit, sleep, after. cbn [now out].
  now rewrite <- app_assoc.
Qed.

(** *** Links and terminals of the scenarios *)

(** A link that reports the same pose at every poll, nothing paused, no stop
    requested; and a terminal with both arms and no hook. *)
Definition steady (fb : feedback) : environment :=
  mkEnvironment (fun _ _ => fb) (fun _ => false) (fun _ => false)
                (fun _ => Track.Missing) [].

Definition both_arms : terminal := mkTerminal true true false.

Definition at_rest : feedback := mkFeedback 1000 0 0 0 0 0 0.

(** *** The start of a dense playback *)

(** A zero track the pre-flight check can read: a list of integer poses. *)
Definition pose_readable (pt : Track.json) : bool :=
  match as_pose pt with Ok _ => true | Raise _ => false end.

Definition zero_track_readable (f : Track.file) : bool :=
  match f with
  | Track.Doc (Track.JList points) => forallb pose_readable points
  | _ => false
  end.

Lemma nearest_in_track_readable (curr : list Z) :
  forall (points : list Track.json) (best : option Z),
    forallb pose_readable points = true ->
    exists best', nearest_in_track curr best points = Ok best'.
Proof.
  induction points as [|pt rest IH]; intros best Hall.
  - now exists best.
  - cbn [forallb] in Hall. apply andb_prop in Hall as [Hpt Hrest].
    unfold pose_readable in Hpt. cbn [nearest_in_track].
    destruct (as_pose pt) as [pose|]; [|discriminate]. cbn [rbind].
    now apply IH.
Qed.

Lemma nearest_in_tracks_readable (curr : list Z) :
  forall (z_tracks : list Track.file) (best : option Z) (w : world),
    forallb zero_track_readable z_tracks = true ->
    exists best', nearest_in_tracks curr best z_tracks w = Done best' w.
Proof.
  induction z_tracks as [|f rest IH]; intros best w Hall.
  - now exists best.
  - cbn [forallb] in Hall. apply andb_prop in Hall as [Hf Hrest].
    destruct f as [| |[| | | | |points|]]; try discriminate.
    cbn [zero_track_readable] in Hf. cbn [nearest_in_tracks Track.py_iter lift].
    unfold bind at 1, ret at 1.
    destruct (nearest_in_track_readable curr points best Hf) as [b Hb].
    rewrite Hb. cbn [lift]. unfold bind at 1, ret at 1. now apply IH.
Qed.

(** With at least one zero track, all readable, and a live link the
    pre-flight check reports success and sends nothing. *)
Lemma preflight_run (E : environment) (fuel : nat) (a : arm) (w : world) :
  zero_tracks E <> [] ->
  forallb zero_track_readable (zero_tracks E) = true ->
  any_nonzero (pose_of (read_feedback E a (now w))) = true ->
  _maybe_reset_from_safe_pose_and_move_to_0 E (S fuel) a w
  = Done (mkResponse true None)
         (after w (now w) [Log INFO "[SAFE] nearest safe-track";
                           Log INFO "[SAFE] arrived at 0-pos"]).
Proof.
  intros Hne Hall Hnz. unfold _maybe_reset_from_safe_pose_and_move_to_0.
  destruct (zero_tracks E) as [|z zs] eqn:Hz; [congruence|].
  rewrite (bind_Done _ _ _ _ _ (current_point_ready E fuel a w Hnz)).
  destruct (nearest_in_tracks_readable
              (pose_of (read_feedback E a (now w))) (z :: zs) None w Hall)
    as [best Hbest].
  rewrite (bind_Done _ _ _ _ _ Hbest).
  unfold log. rewrite (bind_Done _ _ _ _ _ (emit_after _ _)).
  rewrite (bind_Done _ _ _ _ _ (emit_after _ _)).
  unfold ret. now rewrite after_after.
Qed.

Lemma arm_can_from_name (self : terminal) (full_name : string) (a : arm) :
  _arm_from_name self full_name = Ok a -> _arm_can_from_name full_name = Ok a.
Proof.
  unfold _arm_from_name, _arm_can_from_name.
  destruct (Canon.startswith full_name "left__").
  - now destruct (left_arm self).
  - destruct (Canon.startswith full_name "right__"); [|discriminate].
    now destruct (right_arm self).
Qed.


(** The left arm rests 9 degrees off the first point of [left__wave] and
    does not follow the commands it is sent. *)
Definition stuck_env : environment :=
  mkEnvironment (fun _ _ => mkFeedback 9000 0 0 0 0 0 0)
                (fun _ => false) (fun _ => false)
                (Track.fs_wave (Track.Doc (Track.JList Track.wave_details3)))
                [Track.Doc (Track.JList [Track.JList (repeat (Track.JInt 0) 7)])].

(** A track name without the [left__] or [right__] prefix is refused before
    anything is read from or sent to the hardware: [cmd_play] raises the
    naming error and leaves the world as it was. *)
Theorem cmd_play_rejects_unprefixed_name
  (E : environment) (self : terminal) (fuel : nat) (first : string)
  (rest : list string) (w : world) :
  Canon.startswith first "left__" = false ->
  Canon.startswith first "right__" = false ->
  cmd_play E self fuel (first :: rest) w
  = Raised (ValueError "name must start with left__ or right__") w.
Proof.
  intros Hl Hr. unfold cmd_play, _arm_from_name. now rewrite Hl, Hr.
Qed.

Lemma cmd_play_rejects_unprefixed_name_witness :
  cmd_play stuck_env both_arms 1 ["wave"] (mkWorld 0 [])
  = Raised (ValueError "name must start with left__ or right__") (mkWorld 0 []).
Proof.
  apply (cmd_play_rejects_unprefixed_name stuck_env both_arms 1 "wave" []
           (mkWorld 0 [])); reflexivity.
Defined.

(** *** What every run adds to the event log *)

(** [_send_point] either adds the events of [sent] or raises before its
    first SDK call. *)
Lemma send_point_eq (self : terminal) (a : arm) (pt : list Z) (w : world) :
  _send_point self a pt w
  = match sent self a pt with
    | Ok evs => Done tt (after w (now w) evs)
    | Raise e => Raised e w
    end.
Proof.
  destruct (sent self a pt) as [evs|e] eqn:Hsent.
  - now apply send_point_sent.
  - revert Hsent. unfold sent, _send_point, _effective_target, tightened.
    rewrite gripper_coefficient_positive.
    destruct pt as [|j1 [|j2 [|j3 [|j4 [|j5 [|j6 [|g rest]]]]]]];
      cbn [List.length Nat.leb nth py_index nth_error rbind lift];
      try (intros [= <-]; reflexivity).
    destruct (py_int _) as [v|e']; [discriminate|].
    cbn [rbind lift]. intros [= <-]. reflexivity.
Qed.

(** [extends P m]: from every world, whatever way the run of [m] ends or
    wherever the fuel leaves it, the events it added satisfy [P]. *)
Definition extends {A : Type} (P : list event -> Prop) (m : M A) : Prop :=
  forall w, exists l, out (final (m w)) = (out w ++ l)%list /\ P l.

Definition is_pose_command (ev : event) : bool :=
  match ev with
  | Sdk _ (JointCtrl _ _ _ _ _ _) | Sdk _ (GripperCtrl _ _ _ _) => true
  | _ => false
  end.

Section Invariant.

Variable E : environment.
Variable self : terminal.
Variable a : arm.

(** A property of event lists that holds of the empty list, is kept by
    concatenation, holds of every single event that is not a pose command,
    and holds of what [_send_point] adds on the arm [a]. *)
Variable P : list event -> Prop.
Hypothesis P_nil : P [].
Hypothesis P_app : forall l l', P l -> P l' -> P (l ++ l')%list.
Hypothesis P_other : forall ev, is_pose_command ev = false -> P [ev].
Hypothesis P_send : forall pt, extends P (_send_point self a pt).

Lemma ext_same {A : Type} (m : M A) :
  (forall w, final (m w) = w) -> extends P m.
Proof.
  intros H w. exists []. rewrite H, app_nil_r. now split.
Qed.

Lemma ext_ret {A : Type} (x : A) : extends P (ret x).
Proof. now apply ext_same. Qed.

Lemma ext_raise {A : Type} (e : exn) : extends P (@raise A e).
Proof. now apply ext_same. Qed.

Lemma ext_lift {A : Type} (r : Result A) : extends P (lift r).
Proof. destruct r; [apply ext_ret | apply ext_raise]. Qed.

Lemma ext_running {A : Type} : extends P (fun w => @Running A w).
Proof. now apply ext_same. Qed.

Lemma ext_clock : extends P clock.
Proof. now apply ext_same. Qed.

Lemma ext_is_set : extends P (is_set E).
Proof. now apply ext_same. Qed.

Lemma ext_pause_active : extends P (_external_pause_active E).
Proof. now apply ext_same. Qed.

Lemma ext_sleep (d : float) : extends P (sleep d).
Proof. intros w. exists []. cbn. rewrite app_nil_r. now split. Qed.

Lemma ext_emit (ev : event) : is_pose_command ev = false -> extends P (emit ev).
Proof. intros H w. exists [ev]. split; [reflexivity | now apply P_other]. Qed.

Lemma ext_log (lv : level) (msg : string) : extends P (log lv msg).
Proof. now apply ext_emit. Qed.

Lemma ext_bind {A B : Type} (m : M A) (k : A -> M B) :
  extends P m -> (forall x, extends P (k x)) -> extends P (bind m k).
Proof.
  intros Hm Hk w. destruct (Hm w) as (l & Hl & HP). unfold bind.
  destruct (m w) as [x w'|e w'|w']; cbn [final] in *.
  - destruct (Hk x w') as (l' & Hl' & HP'). exists (l ++ l')%list.
    rewrite Hl', Hl, app_assoc. split; [reflexivity | now apply P_app].
  - now exists l.
  - now exists l.
Qed.

(** Structural descent through a program, trying [known] (the lemmas of the
    loops and helpers already covered) before taking a bind apart. *)
Ltac ext_with known :=
  repeat first
    [ assumption
    | known
    | apply ext_ret | apply ext_raise | apply ext_lift | apply ext_running
    | apply ext_clock | apply ext_is_set | apply ext_pause_active
    | apply ext_sleep | apply ext_log | apply P_send
    | apply ext_emit; reflexivity
    | apply ext_bind; [| intros ?]
    | match goal with
      | |- extends _ (if ?b then _ else _) => destruct b
      | |- extends _ (match ?x with _ => _ end) => destruct x
      end ].

Lemma ext_current_point_loop (fuel : nat) :
  forall deadline warned_at,
    extends P (current_point_loop E fuel a deadline warned_at).
Proof.
  induction fuel as [|fuel IH]; intros deadline warned_at;
    cbn [current_point_loop]; ext_with ltac:(apply IH).
Qed.

Lemma ext_current_point (fuel : nat) : extends P (_current_point E fuel a).
Proof.
  unfold _current_point. ext_with ltac:(apply ext_current_point_loop).
Qed.

Lemma ext_prepare : extends P (_prepare_track_play a).
Proof. unfold _prepare_track_play. ext_with fail. Qed.

Lemma ext_smooth_loop (curr : list Z) (diffs : list float) (period : float)
  (indices : list Z) :
  extends P (smooth_loop self a curr diffs period indices).
Proof.
  induction indices as [|i rest IH]; cbn [smooth_loop];
    ext_with ltac:(apply IH).
Qed.

Lemma ext_move_smooth (fuel : nat) (target_pt : list Z) (steps hz : Z) :
  extends P (_move_smooth E self fuel a target_pt steps hz).
Proof.
  unfold _move_smooth.
  ext_with ltac:(first [ apply ext_current_point | apply ext_smooth_loop ]).
Qed.

Lemma ext_wait_unpaused (fuel : nat) : extends P (wait_unpaused E fuel).
Proof.
  induction fuel as [|fuel IH]; cbn [wait_unpaused];
    ext_with ltac:(apply IH).
Qed.

Lemma ext_pause_gate (fuel : nat) (paused_by_file : bool) :
  extends P (pause_gate E fuel a paused_by_file).
Proof.
  unfold pause_gate. ext_with ltac:(apply ext_wait_unpaused).
Qed.

Lemma ext_timed_steps (fuel : nat) (start_pt : list Z) (diffs : list float)
  (period : float) (steps : list Z) :
  forall paused_by_file,
    extends P (timed_steps E self fuel a start_pt diffs period paused_by_file
                           steps).
Proof.
  induction steps as [|step rest IH]; intros paused_by_file;
    cbn [timed_steps];
    ext_with ltac:(first [ apply ext_pause_gate | apply IH ]).
Qed.

Lemma ext_timed_segments (fuel : nat) (trk_obj : TimedTrack) (hz : Z)
  (period : float) (indices : list nat) :
  extends P (timed_segments E self fuel a trk_obj hz period indices).
Proof.
  induction indices as [|idx rest IH]; cbn [timed_segments];
    ext_with ltac:(first [ apply ext_timed_steps | apply IH ]).
Qed.

Lemma ext_run_timed_track (fuel : nat) (trk_obj : TimedTrack) (hz : Z) :
  extends P (_run_timed_track E self fuel a trk_obj hz).
Proof.
  unfold _run_timed_track.
  destruct (tt_points trk_obj) as [|point [|point' points]];
    ext_with ltac:(first [ apply ext_prepare | apply ext_move_smooth
                         | apply ext_timed_segments ]).
Qed.

Lemma ext_sync_wait (fuel : nat) (started_at target_offset : float) :
  extends P (sync_wait E fuel started_at target_offset).
Proof.
  induction fuel as [|fuel IH]; cbn [sync_wait];
    ext_with ltac:(apply IH).
Qed.

Lemma ext_track_loop (fuel : nat) (total_pts : Z) (started_at : float)
  (first_ts : Track.json) (data : list Track.TrackPoint) :
  forall idx last_pct paused_by_file,
    extends P (track_loop E self fuel a total_pts started_at first_ts idx
                          last_pct paused_by_file data).
Proof.
  induction data as [|tp rest IH]; intros idx last_pct paused_by_file;
    cbn [track_loop];
    ext_with ltac:(first [ apply ext_sync_wait | apply ext_pause_gate
                         | apply IH ]).
Qed.

Lemma ext_run_track (fuel : nat) (data : list Track.TrackPoint) :
  extends P (_run_track E self fuel a data).
Proof.
  unfold _run_track.
  ext_with ltac:(first [ apply ext_prepare | apply ext_track_loop ]).
Qed.

End Invariant.

(** The constant at work: a recorded opening of 50000 goes out as 46250. *)
Example tightened_50000 : tightened 50000 = Ok 46250.
Proof. vm_compute. reflexivity. Qed.

(** *** Timed playback of a segment *)

(** The last [JointCtrl] of an event log. *)
Definition last_joint_command (l : list event) : option command :=
  fold_left (fun acc ev =>
               match ev with
               | Sdk _ (JointCtrl j1 j2 j3 j4 j5 j6) =>
                   Some (JointCtrl j1 j2 j3 j4 j5 j6)
               | _ => acc
               end) l None.

Definition count_joint_commands (l : list event) : nat :=
  List.length (filter (fun ev => match ev with
                                 | Sdk _ (JointCtrl _ _ _ _ _ _) => true
                                 | _ => false
                                 end) l).

(** The scenario of the spec with one second of effective duration: 50
    steps, and the last pose sent is the target (its gripper value 50000 goes
    to the hardware tightened). *)
Definition grab : TimedTrack :=
  mkTimedTrack "right__grab"
    [[0; 0; 0; 0; 0; 0; 0]; [0; 0; 0; 0; 0; 0; 50000]] [0%float; 1%float].

Example timed_segment_scenario :
  segment_steps 1 "right__grab" 50 = Ok 50 /\
  (diffs <- step_diffs [0; 0; 0; 0; 0; 0; 0] [0; 0; 0; 0; 0; 0; 50000] 50 ;;
   segment_pose [0; 0; 0; 0; 0; 0; 0] diffs 50)%result
  = Ok [0; 0; 0; 0; 0; 0; 50000] /\
  count_joint_commands
    (out (final (_run_timed_track (steady at_rest) both_arms 0 Right grab 50
                                  (mkWorld 0 [])))) = 50%nat.
Proof. vm_compute. repeat split. Qed.










(** A two-point track that moves joint 1 by 29 units (0.029 degree) in one
    second, the default duration of a control point. *)
Definition nudge : TimedTrack :=
  mkTimedTrack "left__nudge"
    [[0; 0; 0; 0; 0; 0; 0]; [29; 0; 0; 0; 0; 0; 0]] [0%float; 1%float].

(** C1 (the code departs from the claim).  The segment of [nudge] is played
    in [max(1, int(1.0 * (1 - 0) * 50)) = 50] steps, as the claim has it, but
    the pose computed for the final step is [[28,0,0,0,0,0,0]], not the target
    [[29,0,0,0,0,0,0]]: in binary64, [(29 - 0) / 50 * 50] is the float just
    below 29 and [int] truncates it to 28.  The run ends normally after 50
    poses, and the last [JointCtrl] the hardware receives carries 28 for
    joint 1. *)
Theorem timed_final_pose_falls_short :
  segment_steps 1 "left__nudge" 50 = Ok 50 /\
  (diffs <- step_diffs [0; 0; 0; 0; 0; 0; 0] [29; 0; 0; 0; 0; 0; 0] 50 ;;
   segment_pose [0; 0; 0; 0; 0; 0; 0] diffs 50)%result
  = Ok [28; 0; 0; 0; 0; 0; 0] /\
  (exists w,
     _run_timed_track (steady at_rest) both_arms 0 Left nudge 50 (mkWorld 0 [])
     = Done tt w /\
     count_joint_commands (out w) = 50%nat /\
     last_joint_command (out w) = Some (JointCtrl 28 0 0 0 0 0)).
Proof.
  split; [|split].
  - vm_compute. reflexivity.
  - vm_compute. reflexivity.
  - eexists. split; [vm_compute; reflexivity|]. split; vm_compute; reflexivity.
Qed.

(** *** Playback under a stop request *)

Lemma bind_assoc {A B C : Type} (m : M A) (k : A -> M B) (k' : B -> M C)
  (w : world) :
  bind (bind m k) k' w = bind m (fun x => bind (k x) k') w.
Proof. unfold bind. now destruct (m w). Qed.

Lemma log_after (lv : level) (msg : string) (w : world) :
  log lv msg w = Done tt (after w (now w) [Log lv msg]).
Proof. reflexivity. Qed.

Lemma clock_run (w : world) : clock w = Done (now w) w.
Proof. reflexivity. Qed.

(** One step of a run: the head of the program is known to succeed. *)
Tactic Notation "step" constr(lemma) :=
  rewrite ?bind_assoc; rewrite (bind_Done _ _ _ _ _ (lemma _)).
Tactic Notation "step" constr(lemma) constr(hyp) :=
  rewrite ?bind_assoc; rewrite (bind_Done _ _ _ _ _ (lemma _ hyp)).
Tactic Notation "step_ok" constr(eqn) :=
  rewrite ?bind_assoc; rewrite (bind_lift_Ok _ _ _ _ eqn).

(** An environment in which the stop flag is set all along. *)
Definition stopped (E : environment) : Prop :=
  forall t, stop_is_set E t = true.

Lemma is_set_stopped (E : environment) (w : world) :
  stopped E -> is_set E w = Done true w.
Proof. intros Hs. unfold is_set. now rewrite Hs. Qed.

(** Dense playback checks the stop flag before it sends a point: started
    under a stop request, it engages the motion mode, leaves the loop at the
    first point without sending any pose, and disengages. *)
Theorem run_track_stopped_sends_no_pose
  (E : environment) (self : terminal) (fuel : nat) (a : arm)
  (tp : Track.TrackPoint) (rest : list Track.TrackPoint) (w : world) :
  stopped E ->
  _run_track E self fuel a (tp :: rest) w
  = Done tt
      (after w (now w + 0.01)
         [Log INFO "ModeCtrl: ctrl_mode=0x01, move_mode=0x01   (start track)";
          Sdk a (EnableArm 7); Sdk a (ModeCtrl 1 1 (Some 50));
          Log INFO "[PLAY] stop requested, leaving the track";
          Sdk a (ModeCtrl 0 0 None);
          Log INFO "[PLAY] track stopped early";
          Log INFO "ModeCtrl: ctrl_mode=0x00, move_mode=0x00   (end track)"]).
Proof.
  intros Hs. unfold _run_track.
  rewrite (bind_Done _ _ _ _ _ (log_after _ _ _)).
  rewrite (bind_Done _ _ _ _ _ (prepare_track_play_run a _)).
  rewrite (bind_Done _ _ _ _ _ (clock_run _)).
  cbn [py_index nth_error]. rewrite (bind_lift_Ok _ _ _ _ eq_refl).
  cbn [track_loop]. rewrite bind_assoc.
  rewrite (bind_Done _ _ _ _ _ (is_set_stopped E _ Hs)).
  rewrite (bind_Done _ _ _ _ _ (log_after _ _ _)).
  rewrite (bind_Done _ _ _ _ _ (emit_after _ _)).
  rewrite (bind_Done _ _ _ _ _ (is_set_stopped E _ Hs)).
  rewrite (bind_Done _ _ _ _ _ (log_after _ _ _)).
  rewrite log_after, !after_after. reflexivity.
Qed.

(** A link that reports a pose, with the stop flag set all along. *)
Definition stop_requested (fb : feedback) : environment :=
  mkEnvironment (fun _ _ => fb) (fun _ => false) (fun _ => true)
                (fun _ => Track.Missing) [].

Lemma run_track_stopped_sends_no_pose_witness :
  _run_track (stop_requested at_rest) both_arms 0 Left
             [Track.stub_point 0 (Track.pose_json [0; 0; 0; 0; 0; 0; 0])]
             (mkWorld 0 [])
  = Done tt
      (after (mkWorld 0 []) (0 + 0.01)
         [Log INFO "ModeCtrl: ctrl_mode=0x01, move_mode=0x01   (start track)";
          Sdk Left (EnableArm 7); Sdk Left (ModeCtrl 1 1 (Some 50));
          Log INFO "[PLAY] stop requested, leaving the track";
          Sdk Left (ModeCtrl 0 0 None);
          Log INFO "[PLAY] track stopped early";
          Log INFO "ModeCtrl: ctrl_mode=0x00, move_mode=0x00   (end track)"]).
Proof.
  apply (run_track_stopped_sends_no_pose (stop_requested at_rest) both_arms
           0%nat Left _ [] (mkWorld 0 [])).
  intros t. reflexivity.
Defined.

(** What entering the pause adds to the log when the pause file holds 1. *)
Definition pause_entry (a : arm) (active : bool) : list event :=
  if active
  then [Sdk a (ModeCtrl 0 0 None); Log DEBUG "[PAUSE_FILE] Enter pause (track)."]
  else [].

(** Under a stop request the pause handling returns at once; when the pause
    file holds 1 it has put the arm in standby and does not resume. *)
Lemma pause_gate_stopped (E : environment) (fuel : nat) (a : arm) (w : world) :
  stopped E ->
  pause_gate E (S fuel) a false w
  = Done (pause_file_is_1 E (now w))
         (after w (now w) (pause_entry a (pause_file_is_1 E (now w)))).
Proof.
  intros Hs. unfold pause_gate, pause_entry.
  unfold bind at 1, _external_pause_active at 1.
  destruct (pause_file_is_1 E (now w)) eqn:Hp.
  - rewrite !bind_assoc. rewrite (bind_Done _ _ _ _ _ (emit_after _ _)).
    rewrite (bind_Done _ _ _ _ _ (log_after _ _ _)).
    cbn [wait_unpaused]. rewrite !bind_assoc.
    unfold bind at 1, _external_pause_active at 1. rewrite after_after.
    cbn [now after]. rewrite Hp. rewrite !bind_assoc.
    rewrite (bind_Done _ _ _ _ _ (is_set_stopped E _ Hs)).
    unfold bind at 1, ret at 1. unfold bind at 1, ret at 1.
    unfold bind, _external_pause_active. cbn [now after]. rewrite Hp.
    reflexivity.
  - unfold bind at 1, ret at 1. unfold ret. now rewrite after_nil.
Qed.

Lemma range1_first (n : Z) :
  exists rest, range1 (Z.max 1 n) = 1 :: rest.
Proof.
  unfold range1. destruct (Z.to_nat (Z.max 1 n)) as [|k] eqn:Hk; [lia|].
  cbn [seq map]. now eexists.
Qed.

(** Timed playback checks the stop flag only after it has sent a pose:
    started under a stop request on a track of two or more control points,
    it still commands the first interpolated pose of the first segment, and
    then leaves and disengages.  When the pause file holds 1 as well, that
    pose is commanded after the arm was put in standby and without
    re-engaging the motion mode. *)
Theorem timed_track_stopped_sends_one_pose
  (E : environment) (self : terminal) (fuel : nat) (a : arm) (name : string)
  (p0 p1 : list Z) (more : list (list Z)) (d0 d1 : float) (dmore : list float)
  (hz : Z) (w : world) (period : float) (n : Z) (diffs : list float)
  (pt : list Z) (evs : list event) :
  let steps := Z.max 1 n in
  stopped E ->
  period_of hz = Ok period ->
  py_int (d1 * (float_of_int 1 - speed_up name) * float_of_int hz) = Ok n ->
  step_diffs p0 p1 steps = Ok diffs ->
  segment_pose p0 diffs 1 = Ok pt ->
  sent self a pt = Ok evs ->
  _run_timed_track E self (S fuel) a
    (mkTimedTrack name (p0 :: p1 :: more) (d0 :: d1 :: dmore)) hz w
  = Done tt
      (after w (now w + 0.01)
         ([Sdk a (EnableArm 7); Sdk a (ModeCtrl 1 1 (Some 50));
           Log INFO "playing point"]
          ++ pause_entry a (pause_file_is_1 E (now w + 0.01))
          ++ evs
          ++ [Log INFO "[PLAY_V2] stop requested, leaving the segment";
              Sdk a (ModeCtrl 0 0 None);
              Log INFO "[PLAY_V2] track stopped early";
              Log INFO "ModeCtrl: ctrl_mode=0x00, move_mode=0x00   (end track v2)"])%list).
Proof.
  intros steps Hs Hperiod Hn Hdiffs Hpt Hsent.
  assert (Hsteps : segment_steps d1 name hz = Ok steps).
  { unfold segment_steps. now rewrite Hn. }
  destruct (range1_first n) as [later Hrange]. fold steps in Hrange.
  unfold _run_timed_track. cbn [tt_points List.length Nat.sub seq].
  step (prepare_track_play_run a). step_ok Hperiod.
  cbn [timed_segments tt_points tt_durations tt_name Nat.sub py_index
       nth_error].
  step_ok (@eq_refl _ (Ok p0)). step_ok (@eq_refl _ (Ok p1)).
  step (log_after INFO "playing point"). step_ok (@eq_refl _ (Ok d1)).
  step_ok Hsteps. step_ok Hdiffs.
  rewrite Hrange. cbn [timed_steps]. step_ok Hpt.
  step (pause_gate_stopped E fuel a) Hs. step (send_point_sent self a pt evs) Hsent.
  step (is_set_stopped E) Hs.
  step (log_after INFO "[PLAY_V2] stop requested, leaving the segment").
  step (is_set_stopped E) Hs. unfold bind at 1, ret at 1.
  step (emit_after (Sdk a (ModeCtrl 0 0 None))). step (is_set_stopped E) Hs.
  step (log_after INFO "[PLAY_V2] track stopped early").
  rewrite log_after, !after_after. cbn [now after].
  rewrite <- ?app_assoc. reflexivity.
Qed.

(** The stop flag and the pause file both set all along. *)
Definition stop_in_pause (fb : feedback) : environment :=
  mkEnvironment (fun _ _ => fb) (fun _ => true) (fun _ => true)
                (fun _ => Track.Missing) [].

Lemma timed_track_stopped_sends_one_pose_witness :
  exists evs,
    sent both_arms Right [0; 0; 0; 0; 0; 0; 1000] = Ok evs /\
    _run_timed_track (stop_in_pause at_rest) both_arms 1 Right grab 50
                     (mkWorld 0 [])
    = Done tt
        (after (mkWorld 0 []) (0 + 0.01)
           ([Sdk Right (EnableArm 7); Sdk Right (ModeCtrl 1 1 (Some 50));
             Log INFO "playing point"]
            ++ pause_entry Right true
            ++ evs
            ++ [Log INFO "[PLAY_V2] stop requested, leaving the segment";
                Sdk Right (ModeCtrl 0 0 None);
                Log INFO "[PLAY_V2] track stopped early";
                Log INFO "ModeCtrl: ctrl_mode=0x00, move_mode=0x00   (end track v2)"])%list).
Proof.
  eexists. split; [vm_compute; reflexivity|].
  eapply (timed_track_stopped_sends_one_pose (stop_in_pause at_rest) both_arms
            0%nat Right "right__grab" [0; 0; 0; 0; 0; 0; 0]
            [0; 0; 0; 0; 0; 0; 50000] [] 0%float 1%float [] 50 (mkWorld 0 [])
            0.02%float 50).
  - intros t. reflexivity.
  - vm_compute. reflexivity.
  - vm_compute. reflexivity.
  - vm_compute. reflexivity.
  - vm_compute. reflexivity.
  - vm_compute. reflexivity.
Defined.

(** *** Playback while the pause file holds 1 *)

(** An environment in which the pause file holds 1 all along and no stop is
    requested. *)
Definition held (E : environment) : Prop :=
  forall t, pause_file_is_1 E t = true /\ stop_is_set E t = false.

Lemma wait_unpaused_held (E : environment) :
  held E ->
  forall (fuel : nat) (w : world),
    wait_unpaused E fuel w
    = Running (after w (after_sleeps fuel 0.2 (now w)) []).
Proof.
  intros Hh. induction fuel as [|fuel IH]; intros w.
  - cbn. now rewrite after_nil.
  - cbn [wait_unpaused after_sleeps].
    unfold bind at 1, _external_pause_active at 1. rewrite (proj1 (Hh _)).
    unfold bind at 1, is_set at 1. rewrite (proj2 (Hh _)).
    step (sleep_after 0.2). rewrite IH, after_after. reflexivity.
Qed.

(** Timed playback handles the pause before it sends a pose: while the
    pause file holds 1 and nobody requests a stop, a track of two or more
    control points engages the motion mode, puts the arm in standby at the
    first step of the first segment and stays there, polling every 0.2 s; no
    pose is commanded and the call does not return. *)
Theorem timed_track_held_in_pause
  (E : environment) (self : terminal) (fuel : nat) (a : arm) (name : string)
  (p0 p1 : list Z) (more : list (list Z)) (d0 d1 : float) (dmore : list float)
  (hz : Z) (w : world) (period : float) (n : Z) (diffs : list float)
  (pt : list Z) :
  let steps := Z.max 1 n in
  held E ->
  period_of hz = Ok period ->
  py_int (d1 * (float_of_int 1 - speed_up name) * float_of_int hz) = Ok n ->
  step_diffs p0 p1 steps = Ok diffs ->
  segment_pose p0 diffs 1 = Ok pt ->
  _run_timed_track E self fuel a
    (mkTimedTrack name (p0 :: p1 :: more) (d0 :: d1 :: dmore)) hz w
  = Running
      (after w (after_sleeps fuel 0.2 (now w + 0.01))
         [Sdk a (EnableArm 7); Sdk a (ModeCtrl 1 1 (Some 50));
          Log INFO "playing point";
          Sdk a (ModeCtrl 0 0 None);
          Log DEBUG "[PAUSE_FILE] Enter pause (track)."]).
Proof.
  intros steps Hh Hperiod Hn Hdiffs Hpt.
  assert (Hsteps : segment_steps d1 name hz = Ok steps).
  { unfold segment_steps. now rewrite Hn. }
  destruct (range1_first n) as [later Hrange]. fold steps in Hrange.
  unfold _run_timed_track. cbn [tt_points List.length Nat.sub seq].
  step (prepare_track_play_run a). step_ok Hperiod.
  cbn [timed_segments tt_points tt_durations tt_name Nat.sub py_index
       nth_error].
  step_ok (@eq_refl _ (Ok p0)). step_ok (@eq_refl _ (Ok p1)).
  step (log_after INFO "playing point"). step_ok (@eq_refl _ (Ok d1)).
  step_ok Hsteps. step_ok Hdiffs.
  rewrite Hrange. cbn [timed_steps]. step_ok Hpt.
  unfold pause_gate. rewrite ?bind_assoc.
  unfold bind at 1, _external_pause_active at 1. rewrite (proj1 (Hh _)).
  step (emit_after (Sdk a (ModeCtrl 0 0 None))).
  step (log_after DEBUG "[PAUSE_FILE] Enter pause (track).").
  rewrite ?bind_assoc. unfold bind at 1. rewrite (wait_unpaused_held E Hh).
  rewrite !after_after. reflexivity.
Qed.

(** The pause file holds 1 all along; no stop is requested. *)
Definition pause_held (fb : feedback) : environment :=
  mkEnvironment (fun _ _ => fb) (fun _ => true) (fun _ => false)
                (fun _ => Track.Missing) [].

Lemma timed_track_held_in_pause_witness :
  _run_timed_track (pause_held at_rest) both_arms 3 Right grab 50 (mkWorld 0 [])
  = Running
      (after (mkWorld 0 []) (after_sleeps 3 0.2 (0 + 0.01))
         [Sdk Right (EnableArm 7); Sdk Right (ModeCtrl 1 1 (Some 50));
          Log INFO "playing point";
          Sdk Right (ModeCtrl 0 0 None);
          Log DEBUG "[PAUSE_FILE] Enter pause (track)."]).
Proof.
  eapply (timed_track_held_in_pause (pause_held at_rest) both_arms 3%nat Right
            "right__grab" [0; 0; 0; 0; 0; 0; 0] [0; 0; 0; 0; 0; 0; 50000] []
            0%float 1%float [] 50 (mkWorld 0 []) 0.02%float 50).
  - intros t. split; reflexivity.
  - vm_compute. reflexivity.
  - vm_compute. reflexivity.
  - vm_compute. reflexivity.
  - vm_compute. reflexivity.
Defined.

(** *** How a playback leaves the arm *)

(** The last SDK call of an event log. *)
Definition last_sdk (l : list event) : option (arm * command) :=
  fold_left (fun acc ev =>
               match ev with
               | Sdk a c => Some (a, c)
               | _ => acc
               end) l None.

Lemma last_sdk_app (l l' : list event) (a : arm) (c : command) :
  last_sdk (l ++ Sdk a c :: l')%list = last_sdk (Sdk a c :: l').
Proof.
  unfold last_sdk. rewrite fold_left_app. cbn [fold_left].
  reflexivity.
Qed.

Lemma bind_Done_inv {A B : Type} (m : M A) (k : A -> M B) (w w' : world)
  (b : B) :
  bind m k w = Done b w' ->
  exists x w1, m w = Done x w1 /\ k x w1 = Done b w'.
Proof.
  unfold bind. destruct (m w) as [x w1| |]; try discriminate.
  intros H. now exists x, w1.
Qed.

(** Whenever a playback of a track with at least one point returns, the
    arm has been put in standby: the last SDK call in the log is
    [ModeCtrl(0, 0)] on the arm that played, for the dense player and for the
    timed one, whatever the pause file and the stop flag did meanwhile. *)
Theorem playback_return_leaves_standby
  (E : environment) (self : terminal) (fuel : nat) (a : arm) (w w' : world) :
  (forall data,
     _run_track E self fuel a data w = Done tt w' ->
     last_sdk (out w') = Some (a, ModeCtrl 0 0 None)) /\
  (forall trk_obj hz,
     tt_points trk_obj <> [] ->
     _run_timed_track E self fuel a trk_obj hz w = Done tt w' ->
     last_sdk (out w') = Some (a, ModeCtrl 0 0 None)).
Proof.
  split.
  - intros data H. unfold _run_track in H.
    apply bind_Done_inv in H as (? & w1 & _ & H).
    apply bind_Done_inv in H as (? & w2 & _ & H).
    apply bind_Done_inv in H as (? & w3 & _ & H).
    apply bind_Done_inv in H as (? & w4 & _ & H).
    apply bind_Done_inv in H as (? & w5 & _ & H).
    revert H. unfold bind, emit, is_set, log, emit, ret. cbn [now out].
    destruct (stop_is_set E (now w5)); intros [= <-]; cbn [out];
      rewrite <- ?app_assoc; cbn [app]; now rewrite last_sdk_app.
  - intros trk_obj hz Hne H. unfold _run_timed_track in H.
    destruct (tt_points trk_obj) as [|point [|point' points]]; [congruence| |].
    + apply bind_Done_inv in H as (? & w1 & _ & H).
      apply bind_Done_inv in H as (? & w2 & _ & H).
      revert H. unfold bind, emit, log, emit. cbn [now out].
      intros [= <-]. cbn [out]. rewrite <- ?app_assoc. cbn [app].
      now rewrite last_sdk_app.
    + apply bind_Done_inv in H as (? & w1 & _ & H).
      apply bind_Done_inv in H as (? & w2 & _ & H).
      apply bind_Done_inv in H as (? & w3 & _ & H).
      revert H. unfold bind, emit, is_set, log, emit, ret. cbn [now out].
      destruct (stop_is_set E (now w3)); intros [= <-]; cbn [out];
        rewrite <- ?app_assoc; cbn [app]; now rewrite last_sdk_app.
Qed.

Lemma playback_return_leaves_standby_witness :
  exists w',
    _run_timed_track (steady at_rest) both_arms 0 Right grab 50 (mkWorld 0 [])
    = Done tt w' /\
    last_sdk (out w') = Some (Right, ModeCtrl 0 0 None).
Proof.
  eexists. split; [vm_compute; reflexivity|].
  eapply (proj2 (playback_return_leaves_standby (steady at_rest) both_arms
                   0%nat Right (mkWorld 0 []) _) grab 50).
  - discriminate.
  - vm_compute. reflexivity.
Defined.

(** An exception does not: dense playback of a track without points engages
    the motion mode and then raises [IndexError] at [data[0]], so the arm is
    left enabled in the motion mode and no [ModeCtrl(0, 0)] follows. *)
Theorem run_track_without_points_leaves_arm_engaged
  (E : environment) (self : terminal) (fuel : nat) (a : arm) (w : world) :
  exists w',
    _run_track E self fuel a [] w = Raised IndexError w' /\
    out w' = (out w ++
              [Log INFO "ModeCtrl: ctrl_mode=0x01, move_mode=0x01   (start track)";
               Sdk a (EnableArm 7); Sdk a (ModeCtrl 1 1 (Some 50))])%list /\
    last_sdk (out w') = Some (a, ModeCtrl 1 1 (Some 50)).
Proof.
  eexists. split; [|split].
  - unfold _run_track. step (log_after INFO
      "ModeCtrl: ctrl_mode=0x01, move_mode=0x01   (start track)").
    step (prepare_track_play_run a). step clock_run. reflexivity.
  - rewrite !after_after. reflexivity.
  - rewrite !after_after. cbn [after out].
    change [Log INFO "ModeCtrl: ctrl_mode=0x01, move_mode=0x01   (start track)";
            Sdk a (EnableArm 7); Sdk a (ModeCtrl 1 1 (Some 50))]
      with ([Log INFO "ModeCtrl: ctrl_mode=0x01, move_mode=0x01   (start track)";
             Sdk a (EnableArm 7)] ++ [Sdk a (ModeCtrl 1 1 (Some 50))])%list.
    rewrite app_assoc. now rewrite last_sdk_app.
Qed.

(** *** The pre-flight check of [cmd_play] *)

(** With no zero track on disk, [cmd_play] of a well-named track on a
    connected arm refuses to play: it logs the failed status and returns,
    having read nothing from and sent nothing to the hardware. *)
Theorem cmd_play_without_zero_tracks
  (E : environment) (self : terminal) (fuel : nat) (first : string)
  (rest : list string) (a : arm) (w : world) :
  _arm_from_name self first = Ok a ->
  zero_tracks E = [] ->
  cmd_play E self fuel (first :: rest) w
  = Done tt (after w (now w) [Log ERROR "bad status"]).
Proof.
  intros Harm Hz. unfold cmd_play. step_ok Harm.
  step_ok (arm_can_from_name self first a Harm).
  unfold _maybe_reset_from_safe_pose_and_move_to_0. rewrite Hz.
  unfold bind at 1, ret at 1. cbn [ok negb]. apply log_after.
Qed.

Lemma cmd_play_without_zero_tracks_witness :
  cmd_play (steady at_rest) both_arms 1 ["left__wave"] (mkWorld 0 [])
  = Done tt (after (mkWorld 0 []) 0 [Log ERROR "bad status"]).
Proof.
  apply (cmd_play_without_zero_tracks (steady at_rest) both_arms 1
           "left__wave" [] Left (mkWorld 0 [])); reflexivity.
Defined.

(** *** The poses a dense playback commands *)

(** Event lists without a pose command. *)
Definition no_pose (l : list event) : Prop := filter is_pose_command l = [].

Lemma no_pose_nil : no_pose [].
Proof. reflexivity. Qed.

Lemma no_pose_app (l l' : list event) :
  no_pose l -> no_pose l' -> no_pose (l ++ l')%list.
Proof. unfold no_pose. intros Hl Hl'. now rewrite filter_app, Hl, Hl'. Qed.

Lemma no_pose_other (ev : event) : is_pose_command ev = false -> no_pose [ev].
Proof. unfold no_pose. cbn. now intros ->. Qed.

Create HintDb no_pose.
#[local] Hint Resolve no_pose_nil no_pose_app no_pose_other : no_pose.

(** An environment in which nobody requests a stop. *)
Definition never_stopped (E : environment) : Prop :=
  forall t, stop_is_set E t = false.

(** [plays E self a data c w]: the run of [c] from [w] commands the poses of
    the first [k] points of [data], in order and once each, and no other
    pose; and when nobody requests a stop and the run returns, [k] is the
    number of points. *)
Definition plays {A : Type} (E : environment) (self : terminal) (a : arm)
  (data : list Track.TrackPoint) (c : M A) (w : world) : Prop :=
  exists (k : nat) (poses : list (list Z)) (sends : list (list event))
         (l : list event),
    (k <= List.length data)%nat /\
    rmap as_pose (map Track.coordinates (firstn k data)) = Ok poses /\
    rmap (sent self a) poses = Ok sends /\
    out (final (c w)) = (out w ++ l)%list /\
    filter is_pose_command l = filter is_pose_command (concat sends) /\
    (never_stopped E -> (exists x w', c w = Done x w') -> k = List.length data).

Section Plays.

Variable E : environment.
Variable self : terminal.
Variable a : arm.

(** A run that commands no pose and cannot count as a complete playback. *)
Lemma plays_nothing {A : Type} (data : list Track.TrackPoint) (c : M A)
  (w : world) :
  extends no_pose c ->
  (never_stopped E -> (exists x w', c w = Done x w') -> data = []) ->
  plays E self a data c w.
Proof.
  intros Hc Hdone. destruct (Hc w) as (l & Hl & Hq).
  exists 0%nat, [], [], l. cbn [firstn map rmap concat filter].
  repeat split; try assumption; try lia.
  intros Hn Hd. now rewrite (Hdone Hn Hd).
Qed.

Lemma plays_quiet_prefix {A B : Type} (data : list Track.TrackPoint)
  (m : M A) (k : A -> M B) (w : world) :
  extends no_pose m ->
  (forall x w1, plays E self a data (k x) w1) ->
  plays E self a data (bind m k) w.
Proof.
  intros Hm Hk. destruct (Hm w) as (l1 & Hl1 & Hq1). unfold bind.
  destruct (m w) as [x w1|e w1|w1] eqn:Hmw; cbn [final] in Hl1.
  - destruct (Hk x w1) as (n & poses & sends & l & Hn & Hposes & Hsends & Hl
                           & Hf & Hall).
    exists n, poses, sends, (l1 ++ l)%list. unfold bind. rewrite Hmw.
    repeat split; try assumption.
    + now rewrite Hl, Hl1, app_assoc.
    + rewrite filter_app, Hq1. exact Hf.
  - exists 0%nat, [], [], l1. unfold bind. rewrite Hmw.
    cbn [firstn map rmap concat filter final].
    repeat split; try assumption; try lia.
    intros _ (x & w' & Hd). discriminate Hd.
  - exists 0%nat, [], [], l1. unfold bind. rewrite Hmw.
    cbn [firstn map rmap concat filter final].
    repeat split; try assumption; try lia.
    intros _ (x & w' & Hd). discriminate Hd.
Qed.

Lemma plays_quiet_suffix {A B : Type} (data : list Track.TrackPoint)
  (m : M A) (k : A -> M B) (w : world) :
  plays E self a data m w ->
  (forall x, extends no_pose (k x)) ->
  plays E self a data (bind m k) w.
Proof.
  intros (n & poses & sends & l & Hn & Hposes & Hsends & Hl & Hf & Hall) Hk.
  unfold plays, bind. destruct (m w) as [x w1|e w1|w1] eqn:Hmw;
    cbn [final] in Hl.
  - destruct (Hk x w1) as (l2 & Hl2 & Hq2).
    exists n, poses, sends, (l ++ l2)%list. repeat split; try assumption.
    + now rewrite Hl2, Hl, app_assoc.
    + rewrite filter_app, Hq2, app_nil_r. exact Hf.
    + intros Hns _. apply (Hall Hns). now exists x, w1.
  - exists n, poses, sends, l. repeat split; try assumption.
    intros _ (x & w' & Hd). discriminate Hd.
  - exists n, poses, sends, l. repeat split; try assumption.
    intros _ (x & w' & Hd). discriminate Hd.
Qed.

(** Sending the pose of the next point, then playing the rest. *)
Lemma plays_send {B : Type} (tp : Track.TrackPoint)
  (rest : list Track.TrackPoint) (pt : list Z) (k : unit -> M B) (w : world) :
  as_pose (Track.coordinates tp) = Ok pt ->
  (forall w1, plays E self a rest (k tt) w1) ->
  plays E self a (tp :: rest) (bind (_send_point self a pt) k) w.
Proof.
  intros Hpt Hk. unfold plays, bind. rewrite send_point_eq.
  destruct (sent self a pt) as [evs|e] eqn:Hsent.
  - destruct (Hk (after w (now w) evs))
      as (n & poses & sends & l & Hn & Hposes & Hsends & Hl & Hf & Hall).
    exists (S n), (pt :: poses), (evs :: sends), (evs ++ l)%list.
    cbn [List.length firstn map rmap concat]. rewrite Hpt, Hposes, Hsent, Hsends.
    repeat split; try reflexivity.
    + lia.
    + rewrite Hl. cbn [after out]. now rewrite app_assoc.
    + now rewrite !filter_app, Hf.
    + intros Hns (x & w' & Hd). f_equal. apply (Hall Hns). now exists x, w'.
  - exists 0%nat, [], [], []. cbn [firstn map rmap concat filter final].
    rewrite app_nil_r. repeat split; try lia.
    intros _ (x & w' & Hd). discriminate Hd.
Qed.

Lemma plays_eq {A : Type} (data : list Track.TrackPoint) (c c' : M A)
  (w : world) :
  c w = c' w -> plays E self a data c' w -> plays E self a data c w.
Proof. unfold plays. now intros ->. Qed.

Lemma bind_is_set {A : Type} (k : bool -> M A) (w : world) :
  bind (is_set E) k w = k (stop_is_set E (now w)) w.
Proof. reflexivity. Qed.

End Plays.

(** Everything in the loops but [_send_point] commands no pose. *)
Ltac quiet_with known :=
  repeat first
    [ known
    | apply ext_ret; auto with no_pose
    | apply ext_raise; auto with no_pose
    | apply ext_lift; auto with no_pose
    | apply ext_clock; auto with no_pose
    | apply ext_is_set; auto with no_pose
    | apply ext_sleep; auto with no_pose
    | apply ext_log; auto with no_pose
    | apply ext_emit; [auto with no_pose | reflexivity]
    | apply ext_sync_wait; auto with no_pose
    | apply ext_pause_gate; auto with no_pose
    | apply ext_prepare; auto with no_pose
    | apply ext_bind; [auto with no_pose | | intros ?]
    | match goal with
      | |- extends _ (if ?b then _ else _) => destruct b
      end ].

Lemma track_loop_plays (E : environment) (self : terminal) (fuel : nat)
  (a : arm) (total_pts : Z) (started_at : float) (first_ts : Track.json)
  (data : list Track.TrackPoint) :
  forall (idx last_pct : Z) (paused_by_file : bool) (w : world),
    plays E self a data
          (track_loop E self fuel a total_pts started_at first_ts idx last_pct
                      paused_by_file data) w.
Proof.
  induction data as [|tp rest IH]; intros idx last_pct paused_by_file w;
    cbn [track_loop].
  - apply plays_nothing; [quiet_with fail | reflexivity].
  - apply (plays_eq E self a _ _ _ _ (bind_is_set E _ w)).
    destruct (stop_is_set E (now w)) eqn:Hstop.
    + apply plays_nothing; [quiet_with fail|].
      intros Hns _. rewrite Hns in Hstop. discriminate Hstop.
    + apply plays_quiet_prefix; [quiet_with fail | intros target_offset w1].
      apply plays_quiet_prefix; [quiet_with fail | intros [] w2].
      destruct (as_pose (Track.coordinates tp)) as [pt|e] eqn:Hpt.
      * apply (plays_eq E self a _ _ _ _ (bind_lift_Ok _ _ w2 pt eq_refl)).
        apply (plays_send E self a tp rest pt _ w2 Hpt). intros w3.
        apply plays_quiet_prefix; [quiet_with fail | intros ratio w4].
        apply plays_quiet_prefix; [quiet_with fail | intros pct w5].
        apply plays_quiet_prefix; [quiet_with fail | intros last_pct' w6].
        apply plays_quiet_prefix; [quiet_with fail | intros paused w7].
        apply IH.
      * apply plays_nothing; [quiet_with fail|].
        intros _ (x & w' & Hd). discriminate Hd.
Qed.

(** Whatever the environment does and however the run ends, a dense
    playback commands the poses of the first [k] points of the track, in
    track order and once each, and no other pose; and when nobody requests a
    stop and the playback returns, it has commanded the pose of every
    point. *)
Theorem run_track_commands_a_prefix
  (E : environment) (self : terminal) (fuel : nat) (a : arm)
  (data : list Track.TrackPoint) (w : world) :
  exists (k : nat) (poses : list (list Z)) (sends : list (list event))
         (l : list event),
    (k <= List.length data)%nat /\
    rmap as_pose (map Track.coordinates (firstn k data)) = Ok poses /\
    rmap (sent self a) poses = Ok sends /\
    out (final (_run_track E self fuel a data w)) = (out w ++ l)%list /\
    filter is_pose_command l = filter is_pose_command (concat sends) /\
    (never_stopped E ->
     (exists w', _run_track E self fuel a data w = Done tt w') ->
     k = List.length data).
Proof.
  assert (H : plays E self a data (_run_track E self fuel a data) w).
  { unfold _run_track.
    apply plays_quiet_prefix; [quiet_with fail | intros [] w1].
    apply plays_quiet_prefix; [quiet_with fail | intros [] w2].
    apply plays_quiet_prefix; [quiet_with fail | intros started_at w3].
    apply plays_quiet_prefix; [quiet_with fail | intros tp0 w4].
    apply plays_quiet_suffix; [apply track_loop_plays | intros []].
    quiet_with fail. }
  destruct H as (k & poses & sends & l & Hk & Hposes & Hsends & Hl & Hf & Hall).
  exists k, poses, sends, l. repeat split; try assumption.
  intros Hns (w' & Hd). apply (Hall Hns). now exists tt, w'.
Qed.

(** *** The poses a timed playback commands *)

(** What a segment needs before its first step: the start point, the
    per-step increments and the number of steps. *)
Definition segment_header (trk_obj : TimedTrack) (hz : Z) (idx : nat)
  : Result (list Z * list float * Z) :=
  (start_pt <- py_index (tt_points trk_obj) (idx - 1) ;;
   end_pt <- py_index (tt_points trk_obj) idx ;;
   duration <- py_index (tt_durations trk_obj) idx ;;
   steps <- segment_steps duration (tt_name trk_obj) hz ;;
   diffs <- step_diffs start_pt end_pt steps ;;
   Ok (start_pt, diffs, steps))%result.

(** The poses of a timed track in the order the loops compute them, segment
    by segment and step by step; an entry is the exception its computation
    raises when it fails. *)
Fixpoint timed_plan (trk_obj : TimedTrack) (hz : Z) (indices : list nat)
  : list (Result (list Z)) :=
  match indices with
  | [] => []
  | idx :: rest =>
      match segment_header trk_obj hz idx with
      | Raise e => [Raise e]
      | Ok (start_pt, diffs, steps) =>
          (map (segment_pose start_pt diffs) (range1 steps)
           ++ timed_plan trk_obj hz rest)%list
      end
  end.

(** [follows E self a plan c w]: the run of [c] from [w] commands the first
    [k] poses of [plan], in order and once each, and no other pose; and when
    nobody requests a stop and the run returns, it has commanded the whole
    plan. *)
Definition follows {A : Type} (E : environment) (self : terminal) (a : arm)
  (plan : list (Result (list Z))) (c : M A) (w : world) : Prop :=
  exists (k : nat) (poses : list (list Z)) (sends : list (list event))
         (l : list event),
    map Ok poses = firstn k plan /\
    rmap (sent self a) poses = Ok sends /\
    out (final (c w)) = (out w ++ l)%list /\
    filter is_pose_command l = filter is_pose_command (concat sends) /\
    (never_stopped E -> (exists x w', c w = Done x w') -> map Ok poses = plan).

Section Follows.

Variable E : environment.
Variable self : terminal.
Variable a : arm.

Lemma follows_eq {A : Type} (plan : list (Result (list Z))) (c c' : M A)
  (w : world) :
  c w = c' w -> follows E self a plan c' w -> follows E self a plan c w.
Proof. unfold follows. now intros ->. Qed.

Lemma follows_nothing {A : Type} (plan : list (Result (list Z))) (c : M A)
  (w : world) :
  extends no_pose c ->
  (never_stopped E -> (exists x w', c w = Done x w') -> plan = []) ->
  follows E self a plan c w.
Proof.
  intros Hc Hdone. destruct (Hc w) as (l & Hl & Hq).
  exists 0%nat, [], [], l. cbn [firstn map rmap concat filter].
  repeat split; try assumption.
  intros Hn Hd. now rewrite (Hdone Hn Hd).
Qed.

Lemma follows_quiet_prefix {A B : Type} (plan : list (Result (list Z)))
  (m : M A) (k : A -> M B) (w : world) :
  extends no_pose m ->
  (forall x w1, m w = Done x w1 -> follows E self a plan (k x) w1) ->
  follows E self a plan (bind m k) w.
Proof.
  intros Hm Hk. destruct (Hm w) as (l1 & Hl1 & Hq1). unfold follows, bind.
  destruct (m w) as [x w1|e w1|w1] eqn:Hmw; cbn [final] in Hl1.
  - destruct (Hk x w1 eq_refl)
      as (n & poses & sends & l & Hposes & Hsends & Hl & Hf & Hall).
    exists n, poses, sends, (l1 ++ l)%list.
    repeat split; try assumption.
    + now rewrite Hl, Hl1, app_assoc.
    + rewrite filter_app, Hq1. exact Hf.
  - exists 0%nat, [], [], l1. cbn [firstn map rmap concat filter final].
    repeat split; try assumption.
    intros _ (x & w' & Hd). discriminate Hd.
  - exists 0%nat, [], [], l1. cbn [firstn map rmap concat filter final].
    repeat split; try assumption.
    intros _ (x & w' & Hd). discriminate Hd.
Qed.

Lemma follows_quiet_suffix {A B : Type} (plan : list (Result (list Z)))
  (m : M A) (k : A -> M B) (w : world) :
  follows E self a plan m w ->
  (forall x, extends no_pose (k x)) ->
  follows E self a plan (bind m k) w.
Proof.
  intros (n & poses & sends & l & Hposes & Hsends & Hl & Hf & Hall) Hk.
  unfold follows, bind. destruct (m w) as [x w1|e w1|w1] eqn:Hmw;
    cbn [final] in Hl.
  - destruct (Hk x w1) as (l2 & Hl2 & Hq2).
    exists n, poses, sends, (l ++ l2)%list. repeat split; try assumption.
    + now rewrite Hl2, Hl, app_assoc.
    + rewrite filter_app, Hq2, app_nil_r. exact Hf.
    + intros Hns _. apply (Hall Hns). now exists x, w1.
  - exists n, poses, sends, l. repeat split; try assumption.
    intros _ (x & w' & Hd). discriminate Hd.
  - exists n, poses, sends, l. repeat split; try assumption.
    intros _ (x & w' & Hd). discriminate Hd.
Qed.

(** Sending the next pose of the plan, then going on. *)
Lemma follows_send {B : Type} (pt : list Z) (plan : list (Result (list Z)))
  (k : unit -> M B) (w : world) :
  (forall w1, now w1 = now w -> follows E self a plan (k tt) w1) ->
  follows E self a (Ok pt :: plan) (bind (_send_point self a pt) k) w.
Proof.
  intros Hk. unfold follows, bind. rewrite send_point_eq.
  destruct (sent self a pt) as [evs|e] eqn:Hsent.
  - destruct (Hk (after w (now w) evs) eq_refl)
      as (n & poses & sends & l & Hposes & Hsends & Hl & Hf & Hall).
    exists (S n), (pt :: poses), (evs :: sends), (evs ++ l)%list.
    cbn [firstn map rmap concat]. rewrite Hsent, Hsends, Hposes.
    repeat split; try reflexivity.
    + rewrite Hl. cbn [after out]. now rewrite app_assoc.
    + now rewrite !filter_app, Hf.
    + intros Hns (x & w' & Hd). f_equal. rewrite <- Hposes.
      apply (Hall Hns). now exists x, w'.
  - exists 0%nat, [], [], []. cbn [firstn map rmap concat filter final].
    rewrite app_nil_r. repeat split.
    intros _ (x & w' & Hd). discriminate Hd.
Qed.

End Follows.

(** The step loop of a segment inside what follows it: the rest of the plan
    is played by [k] when the loop runs to its end, and [k] adds no pose
    when the loop was left on a stop request. *)
Lemma timed_steps_follows {B : Type} (E : environment) (self : terminal)
  (fuel : nat) (a : arm) (start_pt : list Z) (diffs : list float)
  (period : float) (plan : list (Result (list Z))) (k : unit -> M B) :
  (forall w1, follows E self a plan (k tt) w1) ->
  (forall w1 plan', stop_is_set E (now w1) = true ->
                    follows E self a plan' (k tt) w1) ->
  forall (steps : list Z) (paused_by_file : bool) (w : world),
    follows E self a (map (segment_pose start_pt diffs) steps ++ plan)%list
            (bind (timed_steps E self fuel a start_pt diffs period
                               paused_by_file steps) k) w.
Proof.
  intros Hgo Hstop. induction steps as [|step rest IH];
    intros paused_by_file w; cbn [timed_steps map app].
  - apply (follows_eq E self a _ _ (k tt)); [reflexivity | apply Hgo].
  - destruct (segment_pose start_pt diffs step) as [pt|e] eqn:Hpt.
    + eapply follows_eq.
      { rewrite bind_assoc. apply (bind_lift_Ok _ _ _ _ eq_refl). }
      eapply follows_eq; [apply bind_assoc|].
      apply follows_quiet_prefix; [quiet_with fail | intros paused w1 _].
      eapply follows_eq; [apply bind_assoc|].
      apply follows_send. intros w2 _.
      eapply follows_eq.
      { rewrite bind_assoc. apply bind_is_set. }
      destruct (stop_is_set E (now w2)) eqn:Hs.
      * apply follows_quiet_prefix; [quiet_with fail | intros [] w3 Hlog].
        apply Hstop. injection Hlog as <-. exact Hs.
      * eapply follows_eq; [apply bind_assoc|].
        apply follows_quiet_prefix; [quiet_with fail | intros [] w3 _].
        apply IH.
    + apply follows_nothing.
      * intros w0. exists []. rewrite app_nil_r. split; [|reflexivity].
        rewrite bind_assoc. reflexivity.
      * intros _ (x & w' & Hd). rewrite bind_assoc in Hd. discriminate Hd.
Qed.

Lemma timed_segments_follows (E : environment) (self : terminal) (fuel : nat)
  (a : arm) (trk_obj : TimedTrack) (hz : Z) (period : float)
  (indices : list nat) :
  forall w,
    follows E self a (timed_plan trk_obj hz indices)
            (timed_segments E self fuel a trk_obj hz period indices) w.
Proof.
  induction indices as [|idx rest IH]; intros w;
    cbn [timed_segments timed_plan].
  - apply follows_nothing; [quiet_with fail | reflexivity].
  - unfold segment_header.
    destruct (py_index (tt_points trk_obj) (idx - 1)) as [start_pt|e] eqn:H0;
      [|apply follows_nothing;
         [quiet_with fail | intros _ (x & w' & Hd); discriminate Hd]].
    cbn [rbind]. eapply follows_eq; [apply (bind_lift_Ok _ _ _ _ eq_refl)|].
    destruct (py_index (tt_points trk_obj) idx) as [end_pt|e] eqn:H1;
      [|apply follows_nothing;
         [quiet_with fail | intros _ (x & w' & Hd); discriminate Hd]].
    cbn [rbind]. eapply follows_eq; [apply (bind_lift_Ok _ _ _ _ eq_refl)|].
    apply follows_quiet_prefix; [quiet_with fail | intros [] w1 _].
    destruct (py_index (tt_durations trk_obj) idx) as [duration|e] eqn:H2;
      [|apply follows_nothing;
         [quiet_with fail | intros _ (x & w' & Hd); discriminate Hd]].
    cbn [rbind]. eapply follows_eq; [apply (bind_lift_Ok _ _ _ _ eq_refl)|].
    destruct (segment_steps duration (tt_name trk_obj) hz) as [steps|e] eqn:H3;
      [|apply follows_nothing;
         [quiet_with fail | intros _ (x & w' & Hd); discriminate Hd]].
    cbn [rbind]. eapply follows_eq; [apply (bind_lift_Ok _ _ _ _ eq_refl)|].
    destruct (step_diffs start_pt end_pt steps) as [diffs|e] eqn:H4;
      [|apply follows_nothing;
         [quiet_with fail | intros _ (x & w' & Hd); discriminate Hd]].
    cbn [rbind]. eapply follows_eq; [apply (bind_lift_Ok _ _ _ _ eq_refl)|].
    cbn [rbind]. apply timed_steps_follows.
    + intros w2. eapply follows_eq; [apply bind_is_set|].
      destruct (stop_is_set E (now w2)) eqn:Hs; [|apply IH].
      apply follows_nothing; [quiet_with fail|].
      intros Hns _. rewrite Hns in Hs. discriminate Hs.
    + intros w2 plan' Hs. eapply follows_eq; [apply bind_is_set|].
      rewrite Hs. apply follows_nothing; [quiet_with fail|].
      intros Hns _. rewrite Hns in Hs. discriminate Hs.
Qed.



(** *** The pre-flight check accepts any pose *)

(** As soon as one zero track is on disk, the pre-flight check of [cmd_play]
    succeeds on a live link however far the arm is from every point of every
    zero track: the nearest distance is computed and logged, never compared
    with the tolerance, and nothing is sent to the arm. *)
Theorem preflight_accepts_any_pose
  (E : environment) (fuel : nat) (a : arm) (w : world) :
  zero_tracks E <> [] ->
  forallb zero_track_readable (zero_tracks E) = true ->
  any_nonzero (pose_of (read_feedback E a (now w))) = true ->
  exists w',
    _maybe_reset_from_safe_pose_and_move_to_0 E (S fuel) a w
    = Done (mkResponse true None) w' /\
    now w' = now w /\
    exists logs, out w' = (out w ++ logs)%list /\
                 Forall (fun ev => exists lv msg, ev = Log lv msg) logs.
Proof.
  intros Hne Hall Hnz. eexists. split; [now apply preflight_run|].
  split; [reflexivity|]. eexists. split; [reflexivity|].
  repeat constructor; eauto.
Qed.

(** One zero track holding the factory zero pose, and a link that reports a
    pose 90 degrees away on joint 1. *)
Definition far_away : environment :=
  mkEnvironment (fun _ _ => mkFeedback 90000 0 0 0 0 0 0)
                (fun _ => false) (fun _ => false) (fun _ => Track.Missing)
                [Track.Doc (Track.JList [Track.pose_json [0; 0; 0; 0; 0; 0; 0]])].

Lemma preflight_accepts_any_pose_witness :
  exists w',
    _maybe_reset_from_safe_pose_and_move_to_0 far_away 1 Left (mkWorld 0 [])
    = Done (mkResponse true None) w' /\
    now w' = now (mkWorld 0 []) /\
    exists logs, out w' = (out (mkWorld 0 []) ++ logs)%list /\
                 Forall (fun ev => exists lv msg, ev = Log lv msg) logs.
Proof.
  apply (preflight_accepts_any_pose far_away 0%nat Left (mkWorld 0 []));
    [discriminate | reflexivity | reflexivity].
Defined.

(** *** The glide of a smooth move *)

(** [int(c + (t - c) / steps * i)]: the value the loop of [_move_smooth]
    commands for a joint at step [i], on the way from the reading [c] to the
    target [t]. *)
Definition glide_value (c t steps i : Z) : Result Z :=
  (d <- int_truediv (t - c) steps ;;
   py_int (float_of_int c + d * float_of_int i))%result.

(** The [JointCtrl] calls of an event log, in the order they were issued. *)
Definition joint_commands (l : list event) : list command :=
  flat_map (fun ev =>
              match ev with
              | Sdk _ (JointCtrl j1 j2 j3 j4 j5 j6) =>
                  [JointCtrl j1 j2 j3 j4 j5 j6]
              | _ => []
              end) l.

(** Is [c] the [JointCtrl] call that commands the six joints of [pt]? *)
Definition commands_joints_of (pt : list Z) (c : command) : bool :=
  match c with
  | JointCtrl j1 j2 j3 j4 j5 j6 =>
      (j1 =? nth 0 pt 0) && (j2 =? nth 1 pt 0) && (j3 =? nth 2 pt 0)
      && (j4 =? nth 3 pt 0) && (j5 =? nth 4 pt 0) && (j6 =? nth 5 pt 0)
  | _ => false
  end.

(** A link that reports [start] until the time [t0] and [final] from then
    on: an arm that has moved by the time it is polled again.  Nothing is
    paused and no stop is requested. *)
Definition follower (start final : feedback) (t0 : float)
  (tracks : Track.FS) (zeros : list Track.file) : environment :=
  mkEnvironment (fun _ t => if (t <? t0)%float then start else final)
                (fun _ => false) (fun _ => false) tracks zeros.

(** The left arm rests at 1 degree on joint 1 and has followed the glide one
    second later; the track [left__park] holds the single point at 11
    degrees. *)
Definition park_env : environment :=
  follower at_rest (mkFeedback 10900 0 0 0 0 0 0) 1 (fun _ => Track.Missing) [].

Definition park : TimedTrack :=
  mkTimedTrack "left__park" [[11000; 0; 0; 0; 0; 0; 0]] [0%float].


Lemma rmap_nth_error {A B : Type} (f : A -> Result B) :
  forall (l : list A) (ys : list B),
    rmap f l = Ok ys ->
    forall (k : nat) (x : A),
      nth_error l k = Some x ->
      exists y, nth_error ys k = Some y /\ f x = Ok y.
Proof.
  induction l as [|x0 xs IH]; intros ys H k x Hk.
  - destruct k; discriminate Hk.
  - cbn [rmap] in H. destruct (f x0) as [y0|] eqn:Hy0; [|discriminate].
    destruct (rmap f xs) as [ys'|] eqn:Hxs; [|discriminate].
    cbn [rbind] in H. injection H as <-. destruct k as [|k].
    + injection Hk as <-. now exists y0.
    + cbn [nth_error] in Hk |- *. now apply (IH ys' eq_refl).
Qed.

Lemma nth_error_combine {A B : Type} :
  forall (l : list A) (l' : list B) (k : nat) (x : A) (y : B),
    nth_error l k = Some x -> nth_error l' k = Some y ->
    nth_error (combine l l') k = Some (x, y).
Proof.
  induction l as [|x0 xs IH]; intros l' k x y Hx Hy.
  - destruct k; discriminate Hx.
  - destruct l' as [|y0 ys]; [destruct k; discriminate Hy|].
    destruct k as [|k]; cbn [nth_error combine] in *.
    + now injection Hx as <-; injection Hy as <-.
    + now apply IH.
Qed.

Lemma range_nth_error (n : Z) (i : nat) :
  (i < Z.to_nat n)%nat -> nth_error (range n) i = Some (Z.of_nat i).
Proof.
  intros Hi. unfold range. rewrite nth_error_map.
  rewrite (nth_error_nth' _ 0%nat) by now rewrite length_seq.
  now rewrite seq_nth.
Qed.

(** The poses of a glide, joint by joint: pose number [k] holds, for the
    joint [j], the value [int(c + (t - c) / steps * i)] of the step [i] it
    was computed for. *)
Lemma glide_formula (curr target_pt : list Z) (steps : Z) (diffs : list float)
  (indices : list Z) (poses : list (list Z)) :
  step_diffs curr target_pt steps = Ok diffs ->
  rmap (smooth_pose curr diffs) indices = Ok poses ->
  forall (k j : nat) (i c t : Z),
    nth_error indices k = Some i ->
    nth_error curr j = Some c ->
    nth_error target_pt j = Some t ->
    exists pose v,
      nth_error poses k = Some pose /\ nth_error pose j = Some v /\
      glide_value c t steps i = Ok v.
Proof.
  intros Hdiffs Hposes k j i c t Hi Hc Ht.
  destruct (rmap_nth_error _ _ _ Hposes k i Hi) as (pose & Hpose & Hp).
  destruct (rmap_nth_error _ _ _ Hdiffs j (c, t)
              (nth_error_combine _ _ _ _ _ Hc Ht)) as (d & Hd & Hdv).
  destruct (rmap_nth_error _ _ _ Hp j (c, d)
              (nth_error_combine _ _ _ _ _ Hc Hd)) as (v & Hv & Hvv).
  exists pose, v. repeat split; try assumption.
  unfold glide_value. cbn [fst snd] in Hdv, Hvv. now rewrite Hdv.
Qed.

(** *** Timed playback of a track without segments *)

(** C7 (the code departs from the claim on the one-point track).
    [_run_timed_track] on a track without control points only logs a
    warning: no SDK call is made.  On a track with exactly one control point,
    and a link whose readings are not all zero when polled, it engages the
    motion mode ([EnableArm(7)], [ModeCtrl(1, 1, 50)]), sends 100 poses at
    50 Hz and disengages ([ModeCtrl(0, 0)]); nothing else is sent.  The
    poses are those of the steps [i = 0 .. 99] of the glide, pose [i] being
    [int(c + (t - c) / 100 * i)] joint by joint, from the value [c] read
    toward the value [t] of the point: the last pose is that of step 99,
    one step short of the point.  On the track
    [left__park], whose single point has joint 1 at 11000, an arm that
    starts at 1000 is commanded from 1000 up to 10900 and the motion mode is
    disengaged there: the point itself is never commanded. *)
Theorem timed_track_without_segments :
  (forall E self fuel a name durations hz w,
     _run_timed_track E self fuel a (mkTimedTrack name [] durations) hz w
     = Done tt (after w (now w)
                      [Log WARNING "[PLAY_V2] track is empty, nothing to play"]))
  /\
  (forall E self fuel a name point durations hz w
          curr diffs poses sends reached close,
     let t1 := (now w + 0.01)%float in
     let t2 := after_sleeps 100 0.02 t1 in
     pose_of (read_feedback E a t1) = curr ->
     any_nonzero curr = true ->
     step_diffs curr point 100 = Ok diffs ->
     rmap (smooth_pose curr diffs) (range 100) = Ok poses ->
     rmap (sent self a) poses = Ok sends ->
     pose_of (read_feedback E a t2) = reached ->
     any_nonzero reached = true ->
     _is_close_strict reached point TOLERANCE_ANGLE_UNITS None = Ok close ->
     _run_timed_track E self (S fuel) a (mkTimedTrack name [point] durations) hz w
     = Done tt
         (after w t2
            ([Sdk a (EnableArm 7); Sdk a (ModeCtrl 1 1 (Some 50));
              Log INFO "[SEND] sending points started"]
             ++ concat sends
             ++ [Log INFO "[SEND] sending points finished";
                 Sdk a (ModeCtrl 0 0 None);
                 Log INFO "[PLAY_V2] 1-point track, move done"])%list)
     /\ List.length sends = 100%nat
     /\ (forall (i j : nat) (c t : Z),
           (i < 100)%nat ->
           nth_error curr j = Some c ->
           nth_error point j = Some t ->
           exists pose v,
             nth_error poses i = Some pose /\ nth_error pose j = Some v /\
             glide_value c t 100 (Z.of_nat i) = Ok v))
  /\
  (exists w',
     _run_timed_track park_env both_arms 1 Left park 50 (mkWorld 0 [])
     = Done tt w' /\
     List.length (joint_commands (out w')) = 100%nat /\
     nth_error (joint_commands (out w')) 0 = Some (JointCtrl 1000 0 0 0 0 0) /\
     nth_error (joint_commands (out w')) 99
     = Some (JointCtrl 10900 0 0 0 0 0) /\
     existsb (commands_joints_of [11000; 0; 0; 0; 0; 0; 0])
             (joint_commands (out w')) = false /\
     last_sdk (out w') = Some (Left, ModeCtrl 0 0 None)).
Proof.
  split; [reflexivity | split].
  - intros E self fuel a name point durations hz w
           curr diffs poses sends reached close t1 t2
           Hcurr Hnz Hdiffs Hposes Hsends Hreached Hnz' Hclose.
    split; [|split].
    + unfold _run_timed_track. cbn [tt_points].
      rewrite (bind_Done _ _ _ _ _ (prepare_track_play_run a w)).
      rewrite (bind_Done _ _ _ _ _
                 (move_smooth_run E self fuel a point 100 50
                    (after w t1 [Sdk a (EnableArm 7);
                                 Sdk a (ModeCtrl 1 1 (Some 50))])
                    curr diffs 0.02%float poses sends reached close
                    Hcurr Hnz Hdiffs period_of_50 Hposes Hsends
                    Hreached Hnz' Hclose)).
      rewrite (bind_Done _ _ _ _ _ (emit_after _ _)).
      unfold log. rewrite emit_after.
      rewrite !after_after. cbn [now after].
      change (after_sleeps (Z.to_nat 100) 0.02 t1) with t2.
      f_equal. f_equal. cbn [app]. rewrite <- !app_assoc. reflexivity.
    + rewrite (rmap_length _ _ _ Hsends), (rmap_length _ _ _ Hposes).
      now rewrite range_length.
    + intros i j c t Hi. apply (glide_formula _ _ _ _ _ _ Hdiffs Hposes).
      now apply range_nth_error.
  - eexists. split; [vm_compute; reflexivity|]. now vm_compute.
Qed.

Lemma timed_track_without_segments_witness :
  exists t sends poses,
    _run_timed_track park_env both_arms 1 Left park 50 (mkWorld 0 [])
    = Done tt
        (after (mkWorld 0 []) t
           ([Sdk Left (EnableArm 7); Sdk Left (ModeCtrl 1 1 (Some 50));
             Log INFO "[SEND] sending points started"]
            ++ concat sends
            ++ [Log INFO "[SEND] sending points finished";
                Sdk Left (ModeCtrl 0 0 None);
                Log INFO "[PLAY_V2] 1-point track, move done"])%list)
    /\ List.length sends = 100%nat
    /\ (forall (i j : nat) (c t : Z),
          (i < 100)%nat ->
          nth_error (pose_of at_rest) j = Some c ->
          nth_error [11000; 0; 0; 0; 0; 0; 0] j = Some t ->
          exists pose v,
            nth_error poses i = Some pose /\ nth_error pose j = Some v /\
            glide_value c t 100 (Z.of_nat i) = Ok v).
Proof.
  eexists. eexists. eexists.
  eapply (proj1 (proj2 timed_track_without_segments)
            park_env both_arms 0%nat
            Left "left__park" [11000; 0; 0; 0; 0; 0; 0] [0%float] 50
            (mkWorld 0 [])).
  - vm_compute. reflexivity.
  - reflexivity.
  - vm_compute. reflexivity.
  - vm_compute. reflexivity.
  - vm_compute. reflexivity.
  - vm_compute. reflexivity.
  - reflexivity.
  - vm_compute. reflexivity.
Defined.

(** *** The glide to the first point of a dense playback *)



(** *** Every pose command is tightened *)

(** The two SDK calls that carry the pose [pt] to the arm [a]: the six
    joints as they are in [pt], then the gripper value of [pt] scaled down,
    [int(pt[6] * (1 - 0.075))], under [GRIPPER_EFFORT]. *)
Definition tight_pair (a : arm) (pt : list Z) : Result (list event) :=
  if (7 <=? List.length pt)%nat
  then
    (v <- py_int (float_of_int (nth 6 pt 0) * (float_of_int 1 - 0.075)) ;;
     Ok [Sdk a (JointCtrl (nth 0 pt 0) (nth 1 pt 0) (nth 2 pt 0)
                          (nth 3 pt 0) (nth 4 pt 0) (nth 5 pt 0));
         Sdk a (GripperCtrl v GRIPPER_EFFORT 1 0)])%result
  else Raise IndexError.

(** [commands_tightened undisturbed a plan c w]: the pose commands that the
    run of [c] from [w] adds to the event log are, in this order and with
    nothing in between, the tight pairs of the first [k] poses of [plan];
    and when the run is [undisturbed] and returns, [k] is the length of the
    plan. *)
Definition commands_tightened {A : Type} (undisturbed : Prop) (a : arm)
  (plan : list (Result (list Z))) (c : M A) (w : world) : Prop :=
  exists (k : nat) (poses : list (list Z)) (pairs : list (list event))
         (l : list event),
    map Ok poses = firstn k plan /\
    rmap (tight_pair a) poses = Ok pairs /\
    out (final (c w)) = (out w ++ l)%list /\
    filter is_pose_command l = concat pairs /\
    (undisturbed -> (exists x w', c w = Done x w') -> map Ok poses = plan).

(** The environment [E] without its stop requests. *)
Definition unstoppable (E : environment) : environment :=
  mkEnvironment (read_feedback E) (pause_file_is_1 E) (fun _ => false)
                (track_dir E) (zero_tracks E).

(** The poses [_move_smooth] is about to command from the world [w]: those
    of the steps [0 .. steps - 1] of the glide from the pose it reads; an
    entry is the exception its computation raises when it fails, and the
    plan is empty when the move fails before its loop. *)
Definition smooth_plan (E : environment) (fuel : nat) (a : arm)
  (target_pt : list Z) (steps : Z) (w : world) : list (Result (list Z)) :=
  match _current_point E fuel a w with
  | Done curr _ =>
      match step_diffs curr target_pt steps with
      | Ok diffs => map (smooth_pose curr diffs) (range steps)
      | Raise _ => []
      end
  | _ => []
  end.

(** The poses of a dense track, point by point. *)
Definition track_plan (data : list Track.TrackPoint) : list (Result (list Z)) :=
  map (fun tp => as_pose (Track.coordinates tp)) data.

(** The poses of a timed track: the glide to the point when there is a
    single one (it starts once the motion mode is engaged), the steps of the
    segments otherwise. *)
Definition timed_track_plan (E : environment) (fuel : nat) (a : arm)
  (trk_obj : TimedTrack) (hz : Z) (w : world) : list (Result (list Z)) :=
  match tt_points trk_obj with
  | [point] =>
      smooth_plan E fuel a point 100
        (after w (now w + 0.01)%float
               [Sdk a (EnableArm 7); Sdk a (ModeCtrl 1 1 (Some 50))])
  | points => timed_plan trk_obj hz (seq 1 (List.length points - 1))
  end.

Lemma sent_tight_pair (self : terminal) (a : arm) :
  forall (poses : list (list Z)) (sends : list (list event)),
    rmap (sent self a) poses = Ok sends ->
    exists pairs,
      rmap (tight_pair a) poses = Ok pairs /\
      filter is_pose_command (concat sends) = concat pairs.
Proof.
  induction poses as [|pt poses IH]; intros sends H; cbn [rmap] in H.
  - injection H as <-. now exists [].
  - destruct (sent self a pt) as [evs|] eqn:Hsent; [|discriminate].
    destruct (rmap (sent self a) poses) as [sends'|]; [|discriminate].
    cbn [rbind] in H. injection H as <-.
    destruct (IH sends' eq_refl) as (pairs & Hpairs & Hf).
    revert Hsent. unfold sent, tightened.
    destruct (7 <=? List.length pt)%nat eqn:Hlen; [|discriminate].
    destruct (py_int _) as [v|] eqn:Hv; [|discriminate].
    cbn [rbind]. intros [= <-].
    exists ([Sdk a (JointCtrl (nth 0 pt 0) (nth 1 pt 0) (nth 2 pt 0)
                              (nth 3 pt 0) (nth 4 pt 0) (nth 5 pt 0));
             Sdk a (GripperCtrl v GRIPPER_EFFORT 1 0)] :: pairs).
    cbn [rmap]. unfold tight_pair at 1. rewrite Hlen.
    change 0.075%float with GRIPPER_TIGHT_COEFFICEINT. rewrite Hv.
    cbn [rbind]. rewrite Hpairs. split; [reflexivity|].
    cbn [concat]. rewrite filter_app, Hf. unfold pose_events, hook_events.
    now destruct (_point_hook self).
Qed.

Lemma follows_tightened {A : Type} (E : environment) (self : terminal)
  (a : arm) (plan : list (Result (list Z))) (c : M A) (w : world) :
  follows E self a plan c w ->
  commands_tightened (never_stopped E) a plan c w.
Proof.
  intros (k & poses & sends & l & Hposes & Hsends & Hl & Hf & Hall).
  destruct (sent_tight_pair self a poses sends Hsends) as (pairs & Hpairs & Hc).
  exists k, poses, pairs, l. repeat split; try assumption.
  now rewrite Hf.
Qed.

Lemma rmap_map_Ok {A B : Type} (f : A -> Result B) :
  forall (l : list A) (ys : list B), rmap f l = Ok ys -> map Ok ys = map f l.
Proof.
  induction l as [|x xs IH]; intros ys H; cbn [rmap] in H.
  - now injection H as <-.
  - destruct (f x) as [y|] eqn:Hy; [|discriminate].
    destruct (rmap f xs) as [ys'|]; [|discriminate].
    cbn [rbind] in H. injection H as <-. cbn [map].
    now rewrite Hy, (IH ys' eq_refl).
Qed.

Lemma plays_follows {A : Type} (E : environment) (self : terminal) (a : arm)
  (data : list Track.TrackPoint) (c : M A) (w : world) :
  plays E self a data c w -> follows E self a (track_plan data) c w.
Proof.
  intros (k & poses & sends & l & Hk & Hposes & Hsends & Hl & Hf & Hall).
  assert (Hplan : map Ok poses = firstn k (track_plan data)).
  { rewrite (rmap_map_Ok _ _ _ Hposes). unfold track_plan.
    now rewrite map_map, firstn_map. }
  exists k, poses, sends, l. repeat split; try assumption.
  intros Hns Hd. rewrite Hplan, (Hall Hns Hd).
  rewrite <- (length_map (fun tp => as_pose (Track.coordinates tp))).
  apply firstn_all.
Qed.

Lemma smooth_loop_follows (E : environment) (self : terminal) (a : arm)
  (curr : list Z) (diffs : list float) (period : float) :
  forall (indices : list Z) (w : world),
    follows E self a (map (smooth_pose curr diffs) indices)
            (smooth_loop self a curr diffs period indices) w.
Proof.
  induction indices as [|i rest IH]; intros w; cbn [smooth_loop map].
  - apply follows_nothing; [quiet_with fail | reflexivity].
  - destruct (smooth_pose curr diffs i) as [pt|e] eqn:Hpt.
    + eapply follows_eq; [apply (bind_lift_Ok _ _ _ _ eq_refl)|].
      apply follows_send. intros w1 _.
      apply follows_quiet_prefix; [quiet_with fail | intros [] w2 _].
      apply IH.
    + apply follows_nothing.
      * intros w0. exists []. rewrite app_nil_r. split; reflexivity.
      * intros _ (x & w' & Hd). discriminate Hd.
Qed.

Lemma move_smooth_follows (E : environment) (self : terminal) (fuel : nat)
  (a : arm) (target_pt : list Z) (steps hz : Z) (w : world) :
  follows E self a (smooth_plan E fuel a target_pt steps w)
          (_move_smooth E self fuel a target_pt steps hz) w.
Proof.
  unfold _move_smooth.
  apply follows_quiet_prefix;
    [apply ext_current_point; auto with no_pose | intros curr w1 Hcurr].
  unfold smooth_plan. rewrite Hcurr.
  destruct (step_diffs curr target_pt steps) as [diffs|e] eqn:Hdiffs.
  - eapply follows_eq; [apply (bind_lift_Ok _ _ _ _ eq_refl)|].
    destruct (period_of hz) as [period|e] eqn:Hperiod.
    + eapply follows_eq; [apply (bind_lift_Ok _ _ _ _ eq_refl)|].
      apply follows_quiet_prefix; [quiet_with fail | intros [] w2 _].
      apply follows_quiet_suffix; [apply smooth_loop_follows | intros []].
      quiet_with ltac:(apply ext_current_point; auto with no_pose).
    + apply follows_nothing.
      * intros w0. exists []. rewrite app_nil_r. split; reflexivity.
      * intros _ (x & w' & Hd). discriminate Hd.
  - apply follows_nothing.
    + intros w0. exists []. rewrite app_nil_r. split; reflexivity.
    + reflexivity.
Qed.

Lemma run_track_follows (E : environment) (self : terminal) (fuel : nat)
  (a : arm) (data : list Track.TrackPoint) (w : world) :
  follows E self a (track_plan data) (_run_track E self fuel a data) w.
Proof.
  apply plays_follows. unfold _run_track.
  apply plays_quiet_prefix; [quiet_with fail | intros [] w1].
  apply plays_quiet_prefix; [quiet_with fail | intros [] w2].
  apply plays_quiet_prefix; [quiet_with fail | intros started_at w3].
  apply plays_quiet_prefix; [quiet_with fail | intros tp0 w4].
  apply plays_quiet_suffix; [apply track_loop_plays | intros []].
  quiet_with fail.
Qed.

Lemma run_timed_track_follows (E : environment) (self : terminal) (fuel : nat)
  (a : arm) (trk_obj : TimedTrack) (hz : Z) (w : world) :
  follows E self a (timed_track_plan E fuel a trk_obj hz w)
          (_run_timed_track E self fuel a trk_obj hz) w.
Proof.
  unfold _run_timed_track, timed_track_plan.
  destruct (tt_points trk_obj) as [|p0 [|p1 points]] eqn:Hpts.
  - apply follows_nothing; [quiet_with fail | reflexivity].
  - apply follows_quiet_prefix; [quiet_with fail | intros [] w1 Hw1].
    rewrite prepare_track_play_run in Hw1. injection Hw1 as <-.
    apply follows_quiet_suffix; [apply move_smooth_follows | intros resp].
    quiet_with fail.
  - apply follows_quiet_prefix; [quiet_with fail | intros [] w1 _].
    apply follows_quiet_prefix; [quiet_with fail | intros period w2 _].
    apply follows_quiet_suffix; [|intros []; quiet_with fail].
    rewrite <- Hpts. apply timed_segments_follows.
Qed.

(** C8.  [_send_point] issues for a pose [pt] exactly [JointCtrl] with the
    six joints of [pt] and [GripperCtrl] with [int(pt[6] * (1 - 0.075))]
    under [GRIPPER_EFFORT] (a recorded opening of 50000 goes out as 46250),
    or raises before its first call (a [pt] without a gripper value).  And
    whatever the environment does and however the run ends (normally, by an
    exception, or still waiting when the fuel is spent), the pose commands
    that a smooth move, a dense playback and a timed playback add to the event
    log are these pairs for the poses they were to send, in order and with
    nothing else in between: the steps of the glide, the points of the
    track, the steps of the segments.  No pose command carries a gripper
    value that is not the tightened value of the pose it was issued for; a
    smooth move that returns has sent every step of its glide, and so has a
    playback that returns when no stop was requested. *)
Theorem every_pose_command_is_tightened
  (E : environment) (self : terminal) (a : arm) (fuel : nat) :
  (forall pt w,
     _send_point self a pt w
     = match tight_pair a pt with
       | Ok calls => Done tt (after w (now w) (calls ++ hook_events self pt))
       | Raise e => Raised e w
       end) /\
  tight_pair a [0; 0; 0; 0; 0; 0; 50000]
  = Ok [Sdk a (JointCtrl 0 0 0 0 0 0); Sdk a (GripperCtrl 46250 5000 1 0)] /\
  (forall target_pt steps hz w,
     commands_tightened True a (smooth_plan E fuel a target_pt steps w)
                        (_move_smooth E self fuel a target_pt steps hz) w) /\
  (forall data w,
     commands_tightened (never_stopped E) a (track_plan data)
                        (_run_track E self fuel a data) w) /\
  (forall trk_obj hz w,
     commands_tightened (never_stopped E) a
                        (timed_track_plan E fuel a trk_obj hz w)
                        (_run_timed_track E self fuel a trk_obj hz) w).
Proof.
  split; [|split; [|split; [|split]]].
  - intros pt w. rewrite send_point_eq. unfold sent, tight_pair, tightened.
    change 0.075%float with GRIPPER_TIGHT_COEFFICEINT.
    destruct (7 <=? List.length pt)%nat; [|reflexivity].
    now destruct (py_int _).
  - vm_compute. reflexivity.
  - intros target_pt steps hz w.
    destruct (follows_tightened _ _ _ _ _ _
                (move_smooth_follows (unstoppable E) self fuel a target_pt
                   steps hz w))
      as (k & poses & pairs & l & Hposes & Hpairs & Hl & Hf & Hall).
    exists k, poses, pairs, l. repeat split; try assumption.
    intros _. apply Hall. intros t. reflexivity.
  - intros. eapply follows_tightened, run_track_follows.
  - intros. eapply follows_tightened, run_timed_track_follows.
Qed.

End Terminal.

(** ** The two-arm orchestrator (terminal_v3.py) *)

Module Orchestrator.

Import Canon.

(** Which arms have a proxy: [self.left] and [self.right] stay [None] when
    the CAN interface of the arm is not configured. *)
Record orchestrator : Type := mkOrchestrator {
  left : bool;
  right : bool
}.

Inductive side : Type := LeftProxy | RightProxy.

(** What a command of the orchestrator does: it calls a method of a proxy
    with string arguments, or writes a log record. *)
Inductive action : Type :=
| Call (proxy : side) (method : string) (args : list string)
| LogInfo (msg : string)
| LogError (msg : string).

(** [_proxy_for_track] *)
Definition _proxy_for_track (self : orchestrator) (name : string) : Result side :=
  let name := _canon_name name in
  if startswith name "left__"
  then if negb (left self) then Raise (RuntimeError "Left arm not initialised")
       else Ok LeftProxy
  else if startswith name "right__"
  then if negb (right self) then Raise (RuntimeError "Right arm not initialised")
       else Ok RightProxy
  else Raise (ValueError "track name must start with left__ or right__").

(** [cmd_record] *)
Definition cmd_record (self : orchestrator) (args : list string)
  : Result (list action) :=
  match args with
  | [] => Ok [LogInfo "record: a track name is required"]
  | arg0 :: _ =>
      let full := _canon_name arg0 in
      (proxy <- _proxy_for_track self full ;;
       Ok [Call proxy "cmd_record" [full]])%result
  end.

(** The grouping loop of [cmd_play]: the first name with neither prefix
    ends the command. *)
Fixpoint group (tracks left_tracks right_tracks : list string)
  : string + list string * list string :=
  match tracks with
  | [] => inr (left_tracks, right_tracks)
  | t :: rest =>
      if startswith t "left__"
      then group rest (left_tracks ++ [t])%list right_tracks
      else if startswith t "right__"
      then group rest left_tracks (right_tracks ++ [t])%list
      else inl t
  end.

Definition nonempty (l : list string) : bool :=
  match l with [] => false | _ => true end.

(** [cmd_play]: one thread per arm that has tracks and a proxy, each calling
    [cmd_play] of its proxy with the tracks of the arm; the threads are
    started left first and then joined. *)
Definition cmd_play (self : orchestrator) (tracks : list string) : list action :=
  match tracks with
  | [] => [LogInfo "play: at least one track is required"]
  | _ =>
      let tracks := map _canon_name tracks in
      match group tracks [] [] with
      | inl t => [LogError ("bad track name " ++ t)]
      | inr (left_tracks, right_tracks) =>
          ((if nonempty left_tracks && left self
            then [Call LeftProxy "cmd_play" left_tracks] else [])
           ++ (if nonempty right_tracks && right self
               then [Call RightProxy "cmd_play" right_tracks] else []))%list
      end
  end.

(** *** Properties *)

Definition is_call (act : action) : bool :=
  match act with Call _ _ _ => true | _ => false end.

Definition for_left (t : string) : bool := startswith t "left__".
Definition for_right (t : string) : bool :=
  negb (startswith t "left__") && startswith t "right__".

Lemma group_spec (tracks : list string) :
  forall left_tracks right_tracks,
    match group tracks left_tracks right_tracks with
    | inl t =>
        In t tracks /\ startswith t "left__" = false /\
        startswith t "right__" = false
    | inr (ls, rs) =>
        forallb (fun t => for_left t || for_right t) tracks = true /\
        ls = (left_tracks ++ filter for_left tracks)%list /\
        rs = (right_tracks ++ filter for_right tracks)%list
    end.
Proof.
  induction tracks as [|t rest IH]; intros left_tracks right_tracks;
    cbn [group].
  - cbn. now rewrite !app_nil_r.
  - unfold for_left, for_right. cbn [forallb filter].
    destruct (startswith t "left__") eqn:Hl.
    + specialize (IH (left_tracks ++ [t])%list right_tracks).
      destruct (group rest _ _) as [bad | [ls rs]].
      * destruct IH as (Hin & Hbad). split; [now right | exact Hbad].
      * destruct IH as (Hall & -> & ->). cbn [negb andb orb].
        rewrite <- app_assoc. now repeat split.
    + destruct (startswith t "right__") eqn:Hr.
      * specialize (IH left_tracks (right_tracks ++ [t])%list).
        destruct (group rest _ _) as [bad | [ls rs]].
        -- destruct IH as (Hin & Hbad). split; [now right | exact Hbad].
        -- destruct IH as (Hall & -> & ->). cbn [negb andb orb].
           rewrite <- app_assoc. now repeat split.
      * split; [now left | now split].
Qed.

(** [cmd_play] of the orchestrator is all or nothing.  When some name, once
    canonicalised, starts with neither [left__] nor [right__], no proxy is
    called at all, not even for the well-named tracks before it.  Otherwise
    each arm that has a proxy is handed, in one call, the canonical names of
    its tracks in the order given; the tracks of an arm without a proxy are
    dropped without a word. *)
Theorem cmd_play_groups_by_arm
  (self : orchestrator) (t0 : string) (more : list string) :
  let tracks := map _canon_name (t0 :: more) in
  (forallb (fun t => for_left t || for_right t) tracks = false ->
   forallb (fun act => negb (is_call act)) (cmd_play self (t0 :: more)) = true)
  /\
  (forallb (fun t => for_left t || for_right t) tracks = true ->
   cmd_play self (t0 :: more)
   = ((if nonempty (filter for_left tracks) && left self
       then [Call LeftProxy "cmd_play" (filter for_left tracks)] else [])
      ++ (if nonempty (filter for_right tracks) && right self
          then [Call RightProxy "cmd_play" (filter for_right tracks)]
          else []))%list).
Proof.
  intros tracks. unfold cmd_play. fold tracks.
  pose proof (group_spec tracks [] []) as Hg.
  destruct (group tracks [] []) as [bad | [ls rs]].
  - destruct Hg as (Hin & Hl & Hr). split; [reflexivity|].
    intros Hall. rewrite forallb_forall in Hall. specialize (Hall bad Hin).
    unfold for_left, for_right in Hall. rewrite Hl, Hr in Hall.
    discriminate Hall.
  - destruct Hg as (Hall & -> & ->). cbn [app]. split; [congruence|].
    reflexivity.
Qed.

Lemma cmd_play_groups_by_arm_witness :
  cmd_play (mkOrchestrator true true) ["l_a"; "right__b"; "r_c"]
  = [Call LeftProxy "cmd_play" ["left__a"];
     Call RightProxy "cmd_play" ["right__b"; "right__c"]] /\
  forallb (fun act => negb (is_call act))
          (cmd_play (mkOrchestrator true true) ["l_a"; "wave"; "r_c"]) = true.
Proof.
  split.
  - apply (proj2 (cmd_play_groups_by_arm (mkOrchestrator true true) "l_a"
                    ["right__b"; "r_c"])).
    reflexivity.
  - apply (proj1 (cmd_play_groups_by_arm (mkOrchestrator true true) "l_a"
                    ["wave"; "r_c"])).
    reflexivity.
Defined.

Lemma startswith_app (p rest : string) : startswith (p ++ rest) p = true.
Proof.
  unfold startswith. induction p as [|c p IH]; cbn.
  - now destruct rest.
  - destruct (ascii_dec c c) as [_|Hne]; [exact IH | now elim Hne].
Qed.

Lemma startswith_shorter (p q name : string) :
  startswith name (p ++ q) = true -> startswith name p = true.
Proof.
  unfold startswith. revert name. induction p as [|c p IH]; intros name.
  - intros _. now destruct name.
  - destruct name as [|c' name]; cbn; [discriminate|].
    destruct (ascii_dec c c'); [apply IH | discriminate].
Qed.

(** Canonicalising twice keeps the arm.  Every name the first pass sends to
    the left arm is rewritten once more by the second pass, and still starts
    with [left__]; every other canonical name is a fixed point. *)
Lemma canon_twice (name : string) :
  (startswith (_canon_name name) "left__" = true /\
   startswith (_canon_name (_canon_name name)) "left__" = true) \/
  (startswith (_canon_name name) "left__" = false /\
   _canon_name (_canon_name name) = _canon_name name).
Proof.
  destruct (startswith name "l_") eqn:H1.
  { assert (Hc : _canon_name name = "left__" ++ slice_from 2 name)
      by (unfold _canon_name; now rewrite H1).
    rewrite Hc. left. split; [apply (startswith_app "left__")|].
    generalize (slice_from 2 name). intros r. now destruct r. }
  destruct (startswith name "left_") eqn:H2.
  { assert (Hc : _canon_name name = "left__" ++ slice_from 5 name)
      by (unfold _canon_name; now rewrite H1, H2).
    rewrite Hc. left. split; [apply (startswith_app "left__")|].
    generalize (slice_from 5 name). intros r. now destruct r. }
  right.
  destruct (startswith name "r_") eqn:H3.
  { assert (Hc : _canon_name name = "right__" ++ slice_from 2 name)
      by (unfold _canon_name; now rewrite H1, H2, H3).
    rewrite Hc. generalize (slice_from 2 name). intros r.
    split; now destruct r. }
  destruct (startswith name "right_" && negb (startswith name "right__")) eqn:H4.
  { assert (Hc : _canon_name name = "right__" ++ slice_from 6 name)
      by (unfold _canon_name; now rewrite H1, H2, H3, H4).
    rewrite Hc. generalize (slice_from 6 name). intros r.
    split; now destruct r. }
  destruct (startswith name "scene_" && negb (startswith name "scene__")) eqn:H5.
  { assert (Hc : _canon_name name = "scene__" ++ slice_from 6 name)
      by (unfold _canon_name; now rewrite H1, H2, H3, H4, H5).
    rewrite Hc. generalize (slice_from 6 name). intros r.
    split; now destruct r. }
  assert (Hfix : _canon_name name = name).
  { unfold _canon_name. now rewrite H1, H2, H3, H4, H5. }
  rewrite !Hfix. split; [|reflexivity].
  destruct (startswith name "left__") eqn:H6; [|reflexivity].
  (* a name that starts with left__ starts with left_ *)
  rewrite (startswith_shorter "left_" "_" name H6) in H2. discriminate H2.
Qed.

(** The arm a track is routed to does not change when its name is
    canonicalised once more, although the name itself may: [cmd_record]
    canonicalises the name and [_proxy_for_track] canonicalises the result
    again, and both passes agree on the proxy. *)
Theorem proxy_for_track_canon (self : orchestrator) (name : string) :
  _proxy_for_track self (_canon_name name) = _proxy_for_track self name.
Proof.
  unfold _proxy_for_track. cbv zeta.
  destruct (canon_twice name) as [[H1 H2] | [H1 H2]].
  - now rewrite H1, H2.
  - now rewrite H2.
Qed.

(** What the workers are asked for.  A track recorded through the
    orchestrator under the short name [l_X] is recorded by the left worker
    as [left__X], and playing [l_X] asks for [left__X]; but playing it under
    its full name [left__X] asks the left worker for [left___X], a different
    track.  On the right arm the short and the full name lead to the same
    track [right__X]. *)
Theorem orchestrator_track_names (self : orchestrator) (x : string) :
  (left self = true ->
   cmd_record self ["l_" ++ x] = Ok [Call LeftProxy "cmd_record" ["left__" ++ x]] /\
   cmd_play self ["l_" ++ x] = [Call LeftProxy "cmd_play" ["left__" ++ x]] /\
   cmd_play self ["left__" ++ x] = [Call LeftProxy "cmd_play" ["left___" ++ x]])
  /\
  (right self = true ->
   cmd_record self ["r_" ++ x] = Ok [Call RightProxy "cmd_record" ["right__" ++ x]] /\
   cmd_play self ["r_" ++ x] = [Call RightProxy "cmd_play" ["right__" ++ x]] /\
   cmd_play self ["right__" ++ x] = [Call RightProxy "cmd_play" ["right__" ++ x]]).
Proof.
  split; intros Hside; repeat split;
    unfold cmd_record, cmd_play, _proxy_for_track; destruct x; cbn;
    rewrite Hside; reflexivity.
Qed.

Lemma orchestrator_track_names_witness :
  cmd_record (mkOrchestrator true true) ["l_wave"]
  = Ok [Call LeftProxy "cmd_record" ["left__wave"]] /\
  cmd_play (mkOrchestrator true true) ["l_wave"]
  = [Call LeftProxy "cmd_play" ["left__wave"]] /\
  cmd_play (mkOrchestrator true true) ["left__wave"]
  = [Call LeftProxy "cmd_play" ["left___wave"]].
Proof.
  apply (proj1 (orchestrator_track_names (mkOrchestrator true true) "wave")).
  reflexivity.
Defined.

End Orchestrator.

(** ** Scenes (scene.py) and the scene viewer (terminal_v2.py) *)

Module Scenes.

Import Track.

(** Besides the exceptions of the track layer, a scene file whose elements
    are not mappings fails with [AttributeError] at [obj.get]. *)
Inductive error : Type :=
| Py (e : exn)
| AttributeError (attr : string).

Definition of_result {A : Type} (r : Result A) : error + A :=
  match r with
  | Ok a => inr a
  | Raise e => inl (Py e)
  end.

Definition abind {A B : Type} (r : error + A) (k : A -> error + B) : error + B :=
  match r with
  | inl e => inl e
  | inr a => k a
  end.

Declare Scope answer_scope.
Delimit Scope answer_scope with answer.
Notation "x <- r ;; k" := (abind r (fun x => k))
  (at level 61, r at next level, right associativity) : answer_scope.

Fixpoint amap {A B : Type} (f : A -> error + B) (l : list A) : error + list B :=
  match l with
  | [] => inr []
  | x :: xs =>
      (y <- f x ;;
       ys <- amap f xs ;;
       inr (y :: ys))%answer
  end.

(** [d.get(key)] with the default [None] *)
Definition get_or_none (fields : list (string * json)) (key : string) : json :=
  match dict_get fields key with
  | Some v => v
  | None => JNull
  end.

(** [SceneElement]: [name] and [duration] hold [None] ([JNull]) when absent. *)
Record SceneElement : Type := mkSceneElement {
  type : string;
  name : json;
  duration : json
}.

(** The item of a field that is not [None]. *)
Definition item (key : string) (v : json) : list (string * json) :=
  match v with
  | JNull => []
  | _ => [(key, v)]
  end.

(** [SceneElement.to_json] and [SceneElement.from_json] *)
Definition element_to_json (el : SceneElement) : json :=
  JDict ([("type", JStr (type el))] ++ item "name" (name el)
         ++ item "duration" (duration el))%list.

Definition element_from_json (obj : json) : error + SceneElement :=
  match obj with
  | JDict fields =>
      match dict_get fields "type" with
      | Some (JStr t) =>
          if String.eqb t "track" || String.eqb t "pause"
          then inr (mkSceneElement t (get_or_none fields "name")
                                   (get_or_none fields "duration"))
          else inl (Py (ValueError "Unknown element type"))
      | _ => inl (Py (ValueError "Unknown element type"))
      end
  | _ => inl (AttributeError "get")
  end.

(** [Scene] *)
Record Scene : Type := mkScene {
  scene_name : string;
  left : list SceneElement;
  right : list SceneElement;
  version : json
}.

(** [Scene.to_json], [Scene.save] and [Scene.load], on the scenes directory. *)
Definition to_json (self : Scene) : json :=
  JDict [("version", version self);
         ("left", JList (map element_to_json (left self)));
         ("right", JList (map element_to_json (right self)))].

Definition save (scenes : FS) (self : Scene) : FS :=
  write_json scenes (path (scene_name self)) (to_json self).

Definition load (scenes : FS) (name : string) : error + Scene :=
  (obj <- of_result (load_json scenes (path name)) ;;
   l <- of_result (py_getitem obj "left") ;;
   l_items <- of_result (py_iter l) ;;
   left <- amap element_from_json l_items ;;
   r <- of_result (py_getitem obj "right") ;;
   r_items <- of_result (py_iter r) ;;
   right <- amap element_from_json r_items ;;
   match obj with
   | JDict fields =>
       inr (mkScene name left right
                    match dict_get fields "version" with
                    | Some v => v
                    | None => JStr "scene_v1"
                    end)
   | _ => inl (AttributeError "get")
   end)%answer.

(** [t + (el.duration or 0)] *)
Definition add_duration (t : float) (d : json) : Result float :=
  if negb (py_truthy d) then Ok (t + PyNum.float_of_int 0)%float
  else
    match d with
    | JInt z => Ok (t + PyNum.float_of_int z)%float
    | JFloat x => Ok (t + x)%float
    | JBool b => Ok (t + (if b then 1 else 0))%float
    | _ => Raise TypeError
    end.

(** The inner loop of [timeline_with_times] for one arm. *)
Fixpoint timeline_arm (t : float) (seq : list SceneElement)
  : Result (list (SceneElement * float * option float)) :=
  match seq with
  | [] => Ok []
  | el :: rest =>
      if String.eqb (type el) "pause"
      then
        (t_end <- add_duration t (duration el) ;;
         arr <- timeline_arm t_end rest ;;
         Ok ((el, t, Some t_end) :: arr))%result
      else
        (arr <- timeline_arm t rest ;;
         Ok ((el, t, None) :: arr))%result
  end.

(** [Scene.timeline_with_times]: the timelines of both arms are built into
    [res], and the function ends without a [return] statement: its value is
    [None]. *)
Definition timeline_with_times (self : Scene) : Result unit :=
  (left_arr <- timeline_arm 0 (left self) ;;
   right_arr <- timeline_arm 0 (right self) ;;
   let res := [("left", left_arr); ("right", right_arr)] in
   Ok tt)%result.

(** [PiperTerminal.cmd_scene_show]: with [tl] the [None] that
    [timeline_with_times] answers, the first [tl[arm]] raises. *)
Definition cmd_scene_show (scenes : FS) (scene_name : string)
  : Terminal.M unit :=
  match load scenes scene_name with
  | inl exc => Terminal.log Terminal.ERROR "Failed"
  | inr scene =>
      Terminal.bind (Terminal.lift (timeline_with_times scene)) (fun tl =>
      Terminal.bind (Terminal.log Terminal.INFO "--- LEFT ---") (fun _ =>
      Terminal.raise TypeError))
  end.

(** *** Properties *)

(** The element types [from_json] accepts. *)
Definition known_type (el : SceneElement) : bool :=
  String.eqb (type el) "track" || String.eqb (type el) "pause".

Lemma element_round_trip (el : SceneElement) :
  known_type el = true -> element_from_json (element_to_json el) = inr el.
Proof.
  destruct el as [t n d]. unfold known_type. cbn [type]. intros Hk.
  unfold element_to_json, element_from_json. cbn [type name duration app dict_get].
  cbn [String.eqb Ascii.eqb Bool.eqb]. rewrite Hk.
  destruct n, d; reflexivity.
Qed.

Lemma element_unknown_type (el : SceneElement) :
  known_type el = false ->
  element_from_json (element_to_json el)
  = inl (Py (ValueError "Unknown element type")).
Proof.
  destruct el as [t n d]. unfold known_type. cbn [type]. intros Hk.
  unfold element_to_json, element_from_json. cbn [type name duration app dict_get].
  cbn [String.eqb Ascii.eqb Bool.eqb]. now rewrite Hk.
Qed.

Lemma elements_round_trip (els : list SceneElement) :
  forallb known_type els = true ->
  amap element_from_json (map element_to_json els) = inr els.
Proof.
  induction els as [|el rest IH]; [reflexivity|]. cbn [forallb map amap].
  intros H. apply andb_prop in H as [Hel Hrest].
  now rewrite (element_round_trip el Hel), (IH Hrest).
Qed.

Lemma elements_unknown_type (els : list SceneElement) :
  forallb known_type els = false ->
  amap element_from_json (map element_to_json els)
  = inl (Py (ValueError "Unknown element type")).
Proof.
  induction els as [|el rest IH]; [discriminate|]. cbn [forallb map amap].
  destruct (known_type el) eqn:Hel.
  - cbn [andb]. intros Hrest.
    now rewrite (element_round_trip el Hel), (IH Hrest).
  - intros _. now rewrite (element_unknown_type el Hel).
Qed.

(** Round trip of a scene: a scene whose elements are all of type "track"
    or "pause" is loaded back, under its name, exactly as it was saved;
    a scene with an element of any other type is saved without complaint
    and can never be loaded again. *)
Theorem scene_save_load_round_trip (scenes : FS) (self : Scene) :
  (forallb known_type (left self) && forallb known_type (right self) = true ->
   load (save scenes self) (scene_name self) = inr self) /\
  (forallb known_type (left self) && forallb known_type (right self) = false ->
   load (save scenes self) (scene_name self)
   = inl (Py (ValueError "Unknown element type"))).
Proof.
  destruct self as [nm l r v]. cbn [left right scene_name].
  unfold load, save, load_json, write_json. cbn [scene_name].
  rewrite String.eqb_refl. unfold to_json. cbn [left right version].
  cbn [of_result abind py_getitem dict_get String.eqb Ascii.eqb Bool.eqb
       py_iter].
  split; intros H.
  - apply andb_prop in H as [Hl Hr].
    now rewrite (elements_round_trip l Hl), (elements_round_trip r Hr).
  - destruct (forallb known_type l) eqn:Hl.
    + cbn [andb] in H.
      now rewrite (elements_round_trip l Hl), (elements_unknown_type r H).
    + now rewrite (elements_unknown_type l Hl).
Qed.

(** The scene of the spec's two arms: the left arm plays a track, the right
    arm waits and then plays one. *)
Definition dinner : Scene :=
  mkScene "scene__dinner"
          [mkSceneElement "track" (JStr "left__open_door") JNull]
          [mkSceneElement "pause" JNull (JFloat 2);
           mkSceneElement "track" (JStr "right__salt") JNull]
          (JStr "scene_v1").

Definition broken : Scene :=
  mkScene "scene__broken" [mkSceneElement "wait" JNull (JFloat 2)] []
          (JStr "scene_v1").

Lemma scene_save_load_round_trip_witness :
  load (save (fun _ => Missing) dinner) "scene__dinner" = inr dinner /\
  load (save (fun _ => Missing) broken) "scene__broken"
  = inl (Py (ValueError "Unknown element type")).
Proof.
  split.
  - apply (proj1 (scene_save_load_round_trip (fun _ => Missing) dinner)).
    reflexivity.
  - apply (proj2 (scene_save_load_round_trip (fun _ => Missing) broken)).
    reflexivity.
Defined.

(** The scene viewer never shows a timeline: whenever the scene loads,
    [cmd_scene_show] raises [TypeError], at the latest when it subscripts the
    [None] that [timeline_with_times] returned, right after the header of
    the left arm. *)
Theorem cmd_scene_show_raises
  (scenes : FS) (scene_name : string) (scene : Scene) (w : Terminal.world) :
  load scenes scene_name = inr scene ->
  exists w',
    cmd_scene_show scenes scene_name w = Terminal.Raised TypeError w' /\
    (w' = w \/
     w' = Terminal.after w (Terminal.now w)
            [Terminal.Log Terminal.INFO "--- LEFT ---"]).
Proof.
  intros Hload. unfold cmd_scene_show. rewrite Hload.
  assert (Ht : timeline_with_times scene = Ok tt \/
               timeline_with_times scene = Raise TypeError).
  { assert (Harm : forall seq t,
              (exists arr, timeline_arm t seq = Ok arr) \/
              timeline_arm t seq = Raise TypeError).
    { induction seq as [|el rest IH]; intros t; cbn [timeline_arm].
      - left. now eexists.
      - destruct (String.eqb (type el) "pause").
        + unfold add_duration.
          destruct (negb (py_truthy (duration el)));
            [|destruct (duration el)]; cbn [rbind]; try (now right);
            match goal with
            | |- context [timeline_arm ?t' rest] =>
                destruct (IH t') as [[arr ->] | ->]; cbn [rbind];
                [left; now eexists | now right]
            end.
        + destruct (IH t) as [[arr ->] | ->]; cbn [rbind];
            [left; now eexists | now right]. }
    unfold timeline_with_times.
    destruct (Harm (left scene) 0%float) as [[la ->] | ->]; cbn [rbind];
      [|now right].
    destruct (Harm (right scene) 0%float) as [[ra ->] | ->]; cbn [rbind];
      [now left | now right]. }
  destruct Ht as [-> | ->].
  - eexists. split; [reflexivity|]. right. reflexivity.
  - eexists. split; [reflexivity|]. now left.
Qed.

Lemma cmd_scene_show_raises_witness :
  exists w',
    cmd_scene_show (save (fun _ => Missing) dinner) "scene__dinner"
                   (Terminal.mkWorld 0 [])
    = Terminal.Raised TypeError w' /\
    (w' = Terminal.mkWorld 0 [] \/
     w' = Terminal.after (Terminal.mkWorld 0 []) 0
            [Terminal.Log Terminal.INFO "--- LEFT ---"]).
Proof.
  apply (cmd_scene_show_raises (save (fun _ => Missing) dinner)
           "scene__dinner" dinner (Terminal.mkWorld 0 [])).
  reflexivity.
Defined.

End Scenes.

(** ** The recorder of dense tracks (terminal_v2.py) *)

Module Recorder.

(** High-speed and low-speed feedback of the six motors, by motor number. *)
Record high_speed : Type := mkHighSpeed {
  motor_speed : nat -> Z;
  current : nat -> Z;
  pos : nat -> Z;
  effort : nat -> Z
}.

Record low_speed : Type := mkLowSpeed {
  vol : nat -> Z;
  foc_temp : nat -> Z;
  motor_temp : nat -> Z;
  bus_current : nat -> Z
}.

(** What the recorder reads and does not control, as a function of the
    clock: the feedback of the arm and whether [_rec_stop] is set. *)
Record link : Type := mkLink {
  joints : float -> Terminal.feedback;
  high : float -> high_speed;
  low : float -> low_speed;
  rec_stop_is_set : float -> bool
}.

(** What a recording leaves behind on the arm and in the log. *)
Inductive event : Type :=
| MotionCtrl_1 (grag_teach_ctrl : Z)
| EnableArm (motor_num : Z)
| ModeCtrl (ctrl_mode move_mode move_spd_rate_ctrl : Z)
| Log (lv : Terminal.level) (msg : string).

(** One kept sample: the pose, [time.time()] and the telemetry read with it.
    The lists [data] and [details] of the source grow together, one sample
    at a time; both are read off the samples. *)
Record sample : Type := mkSample {
  curr_point : list Z;
  ts : float;
  hs : high_speed;
  ls : low_speed
}.

(** The local state of [_rec_worker], with the clock and the events. *)
Record state : Type := mkState {
  now : float;
  out : list event;
  samples : list sample;
  zero_start : option float;
  zero_warned_at : float
}.

Definition motors (f : nat -> Z) : Track.json :=
  Track.JList (map (fun i => Track.JInt (f i)) [1; 2; 3; 4; 5; 6]%nat).

(** The dict [details.append] receives. *)
Definition details_entry (s : sample) : Track.json :=
  Track.JDict
    [("ts", Track.JFloat (ts s));
     ("joints_deg001", Track.JList (map Track.JInt (firstn 6 (curr_point s))));
     ("gripper_deg001", Track.JInt (nth 6 (curr_point s) 0));
     ("motor_speed_rpm", motors (motor_speed (hs s)));
     ("motor_current_ma", motors (current (hs s)));
     ("motor_pos_deg001", motors (pos (hs s)));
     ("motor_effort_mNm", motors (effort (hs s)));
     ("voltage_mv", motors (vol (ls s)));
     ("foc_temp_c", motors (foc_temp (ls s)));
     ("motor_temp_c", motors (motor_temp (ls s)));
     ("bus_current_ma", motors (bus_current (ls s)))].

Definition data (st : state) : list (list Z) := map curr_point (samples st).
Definition details (st : state) : list Track.json :=
  map details_entry (samples st).

(** [[(pt, d["ts"]) for pt, d in zip(data, details)]] *)
Definition points_ts (st : state) : list (list Z * float) :=
  map (fun s => (curr_point s, ts s)) (samples st).

Definition emit (ev : event) (st : state) : state :=
  mkState (now st) (out st ++ [ev])%list (samples st) (zero_start st)
          (zero_warned_at st).

Definition sleep (d : float) (st : state) : state :=
  mkState (now st + d)%float (out st) (samples st) (zero_start st)
          (zero_warned_at st).

(** The branch of the loop body for an all-zero reading: nothing is kept. *)
Definition on_zeros (st : state) : state :=
  match zero_start st with
  | None =>
      mkState (now st) (out st) (samples st) (Some (now st)) (zero_warned_at st)
  | Some z0 =>
      if (1 <? now st - z0)%float
      then
        if (1 <? now st - zero_warned_at st)%float
        then
          let st := emit (Log Terminal.ERROR
                            "[REC] zero data for more than 1 s, check the link")
                         st in
          mkState (now st) (out st) (samples st) (zero_start st) (now st)
        else st
      else st
  end.

(** The branch for a live reading: the sample is appended. *)
Definition on_reading (L : link) (pt : list Z) (st : state) : state :=
  let s := mkSample pt (now st) (high L (now st)) (low L (now st)) in
  mkState (now st) (out st) (samples st ++ [s])%list None (now st).

(** The [while not self._rec_stop.is_set()] loop; [false] when the fuel is
    spent with the recording still going on. *)
Fixpoint rec_loop (fuel : nat) (L : link) (period : float) (st : state)
  : bool * state :=
  match fuel with
  | O => (false, st)
  | S fuel' =>
      if rec_stop_is_set L (now st) then (true, st)
      else
        let pt := Terminal.pose_of (joints L (now st)) in
        let st := if negb (Terminal.any_nonzero pt)
                  then on_zeros st
                  else on_reading L pt st in
        rec_loop fuel' L period (sleep period st)
  end.

(** [_finalize_record] *)
Definition _finalize_record (st : state) : state :=
  let st := emit (Log Terminal.INFO
                    "MotionCtrl_1: grag_teach_ctrl=0x02   (stop recording)") st in
  let st := emit (MotionCtrl_1 2) st in
  let st := emit (Log Terminal.INFO "EnableArm: id_mask=7") st in
  let st := emit (EnableArm 7) st in
  let st := emit (Log Terminal.INFO
                    "ModeCtrl: ctrl_mode=0x01, move_mode=0x00, move_spd_rate_ctrl=50")
                 st in
  emit (ModeCtrl 1 0 50) st.

(** How a run of [_rec_worker] stands: the track is written, or the
    recording is still going on. *)
Inductive recording : Type :=
| Saved (fs : Track.FS) (st : state)
| Recording (st : state).

(** [_rec_worker] with the default [track_cls = TrackV2], from the clock
    [t0] and the tracks directory [fs].  (The acquisition-time statistics of
    the [finally] block are computed and dropped; they index a non-empty
    sorted list within its bounds.) *)
Definition _rec_worker (fuel : nat) (L : link) (fs : Track.FS)
  (full_name : string) (hz : Z) (t0 : float) : Result recording :=
  (period <- Terminal.period_of hz ;;
   let st := mkState t0 [] [] None t0 in
   let st := emit (Log Terminal.INFO
                     "MotionCtrl_1: grag_teach_ctrl=0x01   (start recording)") st in
   let st := emit (MotionCtrl_1 1) st in
   let '(stopped, st) := rec_loop fuel L period st in
   if stopped
   then
     let st := _finalize_record st in
     let fs := Track.V2_write_from_record fs full_name (points_ts st)
                                          (details st) in
     Ok (Saved fs (emit (Log Terminal.INFO "[REC] saved") st))
   else Ok (Recording st))%result.

(** *** Properties *)

Definition is_sdk (ev : event) : bool :=
  match ev with
  | Log _ _ => false
  | _ => true
  end.

(** The loop keeps live readings only and talks to the arm through reads
    alone. *)
Lemma rec_loop_keeps (L : link) (period : float) :
  forall (fuel : nat) (st st' : state) (stopped : bool),
    rec_loop fuel L period st = (stopped, st') ->
    Forall (fun pt => Terminal.any_nonzero pt = true) (data st) ->
    Forall (fun pt => Terminal.any_nonzero pt = true) (data st') /\
    filter is_sdk (out st') = filter is_sdk (out st).
Proof.
  induction fuel as [|fuel IH]; intros st st' stopped; cbn [rec_loop].
  - intros [= <- <-] Hall. now split.
  - destruct (rec_stop_is_set L (now st)); [intros [= <- <-] Hall; now split|].
    destruct (Terminal.any_nonzero (Terminal.pose_of (joints L (now st))))
      eqn:Hnz; cbn [negb]; intros Hrun Hall.
    + destruct (IH _ _ _ Hrun) as [Hall' Hout].
      * unfold data, sleep, on_reading. cbn [samples].
        rewrite map_app. apply Forall_app. split; [exact Hall|].
        now repeat constructor.
      * split; [exact Hall' | exact Hout].
    + destruct (IH _ _ _ Hrun) as [Hall' Hout].
      * unfold data, sleep, on_zeros. cbn [samples].
        destruct (zero_start st); [|exact Hall].
        destruct (1 <? now st - f)%float; [|exact Hall].
        destruct (1 <? now st - zero_warned_at st)%float; exact Hall.
      * split; [exact Hall'|]. rewrite Hout. unfold sleep, on_zeros.
        cbn [out]. destruct (zero_start st); [|reflexivity].
        destruct (1 <? now st - f)%float; [|reflexivity].
        destruct (1 <? now st - zero_warned_at st)%float; [|reflexivity].
        cbn [emit out]. rewrite filter_app. cbn. now rewrite app_nil_r.
Qed.

Lemma details_complete (l : list sample) :
  forallb Track.entry_complete (map details_entry l) = true.
Proof. induction l as [|s l IH]; [reflexivity | exact IH]. Qed.

(** What a finished recording leaves.  When [_rec_worker] has saved its
    track: no kept pose is all zeros (such readings are skipped); the track
    loads back, through [_load], as one track point per kept sample, with the
    pose and the time of the sample; and the arm received exactly four
    commands, in this order: drag-teach on, drag-teach off, [EnableArm(7)]
    and [ModeCtrl(1, 0, 50)]. *)
Theorem recorded_track_loads
  (fuel : nat) (L : link) (fs fs' : Track.FS) (full_name : string) (hz : Z)
  (t0 : float) (st : state) :
  _rec_worker fuel L fs full_name hz t0 = Ok (Saved fs' st) ->
  Forall (fun pt => Terminal.any_nonzero pt = true) (data st) /\
  (exists tps,
     Track._load fs' full_name = Ok tps /\
     map Track.coordinates tps = map Track.pose_json (data st) /\
     map Track.coordinates_timestamp tps
       = map (fun s => Track.JFloat (ts s)) (samples st)) /\
  filter is_sdk (out st)
  = [MotionCtrl_1 1; MotionCtrl_1 2; EnableArm 7; ModeCtrl 1 0 50].
Proof.
  unfold _rec_worker. destruct (Terminal.period_of hz) as [period|];
    [|discriminate]. cbn [rbind].
  destruct (rec_loop fuel L period _) as [stopped st1] eqn:Hloop.
  destruct stopped; [|discriminate]. intros [= <- <-].
  destruct (rec_loop_keeps L period _ _ _ _ Hloop) as [Hall Hout];
    [constructor|].
  split; [exact Hall|]. split.
  - unfold points_ts, details, _finalize_record, emit. cbn [samples].
    destruct (Track.V2_points_from_recorded
                (map details_entry (samples st1))
                (details_complete (samples st1))
                (map (fun s => (curr_point s, ts s)) (samples st1)) 0)
      as (tps & Htps & Hco & Hts & _); [now rewrite !length_map|].
    exists tps. split; [|split].
    + unfold Track._load, Track.V2_write_from_record. cbv zeta.
      rewrite Track.read_written_V2. cbn [rbind Track.track_points].
      unfold Track.V2_track_points, Track.V2_details.
      rewrite Track.written_details.
      destruct (samples st1) as [|s l].
      * cbn in Htps |- *. exact Htps.
      * cbn [map Track.py_truthy rbind Track.py_iter]. exact Htps.
    + rewrite Hco, map_map. unfold data. now rewrite map_map.
    + now rewrite Hts, map_map.
  - unfold _finalize_record, emit. cbn [out]. rewrite !filter_app, Hout.
    reflexivity.
Qed.

(** A link that reports nothing at first, then a pose, and on which the
    recording is stopped after 50 ms. *)
Definition short_take : link :=
  mkLink (fun t => if (t <? 0.01)%float
                   then Terminal.mkFeedback 0 0 0 0 0 0 0
                   else Terminal.mkFeedback 1000 0 0 0 0 0 500)
         (fun _ => mkHighSpeed (fun _ => 0) (fun _ => 0) (fun _ => 0) (fun _ => 0))
         (fun _ => mkLowSpeed (fun _ => 0) (fun _ => 0) (fun _ => 0) (fun _ => 0))
         (fun t => (0.05 <? t)%float).

Lemma recorded_track_loads_witness :
  exists fs' st,
    _rec_worker 5 short_take (fun _ => Track.Missing) "left__wave" 50 0
    = Ok (Saved fs' st) /\
    data st = [[1000; 0; 0; 0; 0; 0; 500]; [1000; 0; 0; 0; 0; 0; 500]] /\
    Forall (fun pt => Terminal.any_nonzero pt = true) (data st) /\
    (exists tps,
       Track._load fs' "left__wave" = Ok tps /\
       map Track.coordinates tps = map Track.pose_json (data st) /\
       map Track.coordinates_timestamp tps
         = map (fun s => Track.JFloat (ts s)) (samples st)) /\
    filter is_sdk (out st)
    = [MotionCtrl_1 1; MotionCtrl_1 2; EnableArm 7; ModeCtrl 1 0 50].
Proof.
  eexists. eexists. split; [vm_compute; reflexivity|].
  split; [vm_compute; reflexivity|].
  eapply (recorded_track_loads 5 short_take (fun _ => Track.Missing) _
            "left__wave" 50 0%float).
  vm_compute. reflexivity.
Defined.

End Recorder.
